(** * upload_rwgps: the upload orchestration engine

    A shallow embedding of [upload_rwgps.py]: the file-name and CSV helpers,
    the RideWithGPS client ([ensure_auth], [upload_trip_from_file],
    [poll_task_for_trip], [upload_photo], [upload_media_for_trip]) and the
    per-file loop of [main]; and of [sort.py], which files the activity files
    by sport before the upload.

    Python values are modelled as follows.
    - [str] is [string]; every character is a code point below 256.
    - A [dict] keyed by strings is a [gmap string _], a [set] of strings a
      [gset string].
    - A decoded JSON document is a [json] tree; Python's [None] is [JNull],
      numbers are integers.
    - The network, the wall clock and the file system are the environment:
      a finite script of replies and clock readings that the run consumes
      from the left, the text of the ledger file, and for each path what
      [Path.exists] gives, a truth value or an exception, and whether the
      file opens.  Every request and every [time.sleep] is appended to a log
      of events. *)

From Stdlib Require Import ZArith Ascii.
From stdpp Require Import gmap strings list fin_maps sorting.

Local Open Scope Z_scope.

(** ** Python string primitives *)

Module PyStr.

(** [s.endswith(suf)]: some tail of [s] is [suf]. *)
Fixpoint endswith (s suf : string) : bool :=
  if String.eqb s suf then true
  else match s with
       | "" => false
       | String _ s' => endswith s' suf
       end.

Fixpoint take (n : nat) (s : string) : string :=
  match n, s with
  | S n', String c s' => String c (take n' s')
  | _, _ => ""
  end.

(** [s[:-n]] for a length [n]; Python reads [s[:-0]] as [s[:0]]. *)
Definition drop_last (n : nat) (s : string) : string :=
  match n with
  | O => ""
  | _ => take (String.length s - n) s
  end.

(** [str.isspace] on the code points below 256. *)
Definition is_space (c : ascii) : bool :=
  let n := nat_of_ascii c in
  ((9 <=? n) && (n <=? 13) || (28 <=? n) && (n <=? 32)
   || (n =? 133) || (n =? 160))%nat.

Fixpoint lstrip (s : string) : string :=
  match s with
  | "" => ""
  | String c s' => if is_space c then lstrip s' else s
  end.

Fixpoint rstrip (s : string) : string :=
  match s with
  | "" => ""
  | String c s' =>
      match rstrip s' with
      | "" => if is_space c then "" else String c ""
      | r => String c r
      end
  end.

(** [s.strip()] *)
Definition strip (s : string) : string := rstrip (lstrip s).

(** [s.split(sep)] for a one-character separator. *)
Fixpoint split (sep : ascii) (s : string) : list string :=
  match s with
  | "" => [""]
  | String c s' =>
      if Ascii.eqb c sep then "" :: split sep s'
      else match split sep s' with
           | [] => [String c ""]
           | w :: ws => String c w :: ws
           end
  end.

(** Truth value of a string: non-empty. *)
Definition nonempty (s : string) : bool :=
  match s with "" => false | _ => true end.

(** [Path(p).name] for a POSIX path: the last component, where empty
    components and single dots do not count. *)
Definition path_name (p : string) : string :=
  List.last (List.filter (fun c => negb (String.eqb c "" || String.eqb c "."))
               (split "/" p)) "".

End PyStr.

(** ** File names *)

Definition double_exts : list string := [".fit.gz"; ".gpx.gz"; ".tcx.gz"].
Definition single_exts : list string := [".fit"; ".gpx"; ".tcx"].

(** [for ext in exts: if base.endswith(ext): <leave with base[:-len(ext)]>]:
    the stem for the first extension of [exts] that [base] ends with. *)
Fixpoint strip_first_ext (exts : list string) (base : string) : option string :=
  match exts with
  | [] => None
  | ext :: exts' =>
      if PyStr.endswith base ext
      then Some (PyStr.drop_last (String.length ext) base)
      else strip_first_ext exts' base
  end.

Definition infer_activity_id_from_filename (filename : string) : string :=
  let base := filename in
  match strip_first_ext double_exts base with
  | Some stem => stem
  | None =>
      match strip_first_ext single_exts base with
      | Some stem => stem
      | None => base
      end
  end.

(** [Path(name).suffix]: the text from the last dot on, unless that dot is
    the first or the last character of the name. *)
Fixpoint last_dot_tail (s : string) : option string :=
  match s with
  | "" => None
  | String c s' =>
      match last_dot_tail s' with
      | Some t => Some t
      | None => if Ascii.eqb c "." then Some s else None
      end
  end.

Definition path_suffix (name : string) : string :=
  match last_dot_tail name with
  | Some t =>
      if ((String.length t <? String.length name)
          && (1 <? String.length t))%nat then t else ""
  | None => ""
  end.

(** [Path(name).stem]: the name without its suffix. *)
Definition path_stem (name : string) : string :=
  match path_suffix name with
  | "" => name
  | t => PyStr.take (String.length name - String.length t) name
  end.

(** [p.suffix in exts or any(str(p.name).endswith(suf) for suf in ...)] *)
Definition is_activity_name (name : string) : bool :=
  bool_decide (path_suffix name ∈ [".fit"; ".gpx"; ".tcx"; ".gz"])
  || existsb (PyStr.endswith name) double_exts.

(** [discover_activity_files], from the names of the regular files of the
    directory; Python sorts them as strings. *)
Definition discover_activity_files (listing : list string) : list string :=
  List.filter is_activity_name (merge_sort String.le listing).

(** ** The metadata index (CSV parsing) *)

Record ActivityMeta := {
  activity_id : string;
  name : string;
  description : string;
  media_paths : list string;
}.

(** One CSV data row as [csv.DictReader] yields it: a column that the row
    does not have reads as [None]. *)
Record CsvRow := {
  col_activity_id : option string;
  col_activity_name : option string;
  col_activity_description : option string;
  col_media : option string;
  col_filename : option string;
}.

(** [(row.get(col) or '').strip()] *)
Definition cell (v : option string) : string := PyStr.strip (default "" v).

(** [media_base / part]; paths are kept as written, not normalised. *)
Definition path_join (base part : string) : string :=
  match part with
  | "" => base
  | String "/" _ => part
  | _ => base +:+ "/" +:+ part
  end.

(** [mapping.setdefault(k, v)] *)
Definition setdefault {V} (k : string) (v : V) (m : gmap string V) : gmap string V :=
  match m !! k with
  | Some _ => m
  | None => <[k:=v]> m
  end.

(** The extensions tried by [load_activity_metadata], in its order: the
    double ones, then the single ones. *)
Definition all_exts : list string := double_exts ++ single_exts.

Definition row_meta (media_base : string) (row : CsvRow) : ActivityMeta :=
  let act_id := cell (col_activity_id row) in
  let name := cell (col_activity_name row) in
  let media_field := cell (col_media row) in
  {| activity_id := act_id;
     name := if PyStr.nonempty name then name else "Activity " +:+ act_id;
     description := cell (col_activity_description row);
     media_paths :=
       if PyStr.nonempty media_field
       then path_join media_base <$> PyStr.split "|" media_field
       else [] |}.

(** The key a row derives from its [Filename] column, when it derives one. *)
Definition row_file_id (row : CsvRow) : option string :=
  let filename := cell (col_filename row) in
  if PyStr.nonempty filename then
    match strip_first_ext all_exts (PyStr.path_name filename) with
    | Some file_id => if PyStr.nonempty file_id then Some file_id else None
    | None => None
    end
  else None.

(** The body of the loop over the CSV rows. *)
Definition index_row (media_base : string)
    (mapping : gmap string ActivityMeta) (row : CsvRow) : gmap string ActivityMeta :=
  let act_id := cell (col_activity_id row) in
  if negb (PyStr.nonempty act_id) then mapping
  else
    let meta := row_meta media_base row in
    let mapping := setdefault act_id meta mapping in
    match row_file_id row with
    | Some file_id => setdefault file_id meta mapping
    | None => mapping
    end.

Definition load_activity_metadata (media_base : string) (rows : list CsvRow)
    : gmap string ActivityMeta :=
  fold_left (index_row media_base) rows ∅.

(** [load_uploaded_set], from the lines of the log file. *)
Definition load_uploaded_set (lines : list string) : gset string :=
  list_to_set (List.filter PyStr.nonempty (PyStr.strip <$> lines)).

(** [--only]: [{x.strip() for x in only.split(',') if x.strip()}], or [None]
    when the option is absent or empty. *)
Definition parse_only (only : option string) : option (gset string) :=
  match only with
  | None | Some "" => None
  | Some s => Some (list_to_set (List.filter PyStr.nonempty (PyStr.strip <$> PyStr.split "," s)))
  end.

(** ** Decoded JSON and the Python operations the client applies to it *)

#[local] Set Warnings "-register-all".

Inductive json :=
| JNull
| JBool (b : bool)
| JNum (n : Z)
| JStr (s : string)
| JArr (items : list json)
| JObj (fields : list (string * json)).

Inductive exn :=
| RuntimeError (msg : string)
| AttributeError
| TypeError
| KeyError
| IndexError
| ValueError
| OSError
| FileNotFoundError
| RequestException.

(** The result of a call: a value, or an exception on its way up. *)
Inductive outcome (A : Type) :=
| Ret (a : A)
| Raise (e : exn).
Arguments Ret {A} a.
Arguments Raise {A} e.

Definition obind {A B} (o : outcome A) (k : A → outcome B) : outcome B :=
  match o with
  | Ret a => k a
  | Raise e => Raise e
  end.

Notation "x <~ e ;; k" := (obind e (fun x => k))
  (at level 100, e at next level, right associativity).

(** Python truth value. *)
Definition truthy (j : json) : bool :=
  match j with
  | JNull => false
  | JBool b => b
  | JNum n => negb (n =? 0)
  | JStr s => PyStr.nonempty s
  | JArr items => match items with [] => false | _ => true end
  | JObj fields => match fields with [] => false | _ => true end
  end.

(** [j == s] for a string literal [s]. *)
Definition eq_str (j : json) (s : string) : bool :=
  match j with
  | JStr t => String.eqb t s
  | _ => false
  end.

(** [j == k] for an integer literal [k]; [True] and [False] compare as 1
    and 0. *)
Definition eq_int (j : json) (k : Z) : bool :=
  match j with
  | JNum n => n =? k
  | JBool b => (if b then 1 else 0) =? k
  | _ => false
  end.

Definition is_dict (j : json) : bool :=
  match j with JObj _ => true | _ => false end.

Definition is_str (j : json) : bool :=
  match j with JStr _ => true | _ => false end.

(** The items of a decoded object are listed with distinct keys. *)
Fixpoint assoc (k : string) (fields : list (string * json)) : option json :=
  match fields with
  | [] => None
  | (k', v) :: rest => if String.eqb k' k then Some v else assoc k rest
  end.

(** [j.get(k, d)]; only a dict has [get]. *)
Definition get_or (j : json) (k : string) (d : json) : outcome json :=
  match j with
  | JObj fields => Ret (default d (assoc k fields))
  | _ => Raise AttributeError
  end.

(** [j.get(k)] *)
Definition get (j : json) (k : string) : outcome json := get_or j k JNull.

(** [a or b] *)
Definition por (a b : json) : json := if truthy a then a else b.

(** [j[0]] *)
Definition first_item (j : json) : outcome json :=
  match j with
  | JArr (x :: _) => Ret x
  | JArr [] => Raise IndexError
  | JStr (String c _) => Ret (JStr (String c ""))
  | JStr "" => Raise IndexError
  | JObj _ => Raise KeyError
  | _ => Raise TypeError
  end.

Fixpoint chars (s : string) : list json :=
  match s with
  | "" => []
  | String c s' => JStr (String c "") :: chars s'
  end.

(** What [for obj in j] iterates over. *)
Definition iter (j : json) : outcome (list json) :=
  match j with
  | JArr items => Ret items
  | JStr s => Ret (chars s)
  | JObj fields => Ret ((λ kv, JStr kv.1) <$> fields)
  | _ => Raise TypeError
  end.

(** ** Text files *)

(** A text file is the string of its characters, as the decoder gives them
    on a POSIX system whose locale decodes UTF-8, the encoding in which the
    ledger file is written. *)

(** The line feed that [append_uploaded] writes after an identifier. *)
Definition LF : string := String "010" "".

(** The characters at which [str.splitlines] cuts, among the code points
    below 256: line feed, vertical tab, form feed, carriage return, the
    three separators 28 to 30 and the next-line character 133. *)
Definition is_line_break (c : ascii) : bool :=
  let n := nat_of_ascii c in
  ((10 <=? n) && (n <=? 13) || (28 <=? n) && (n <=? 30) || (n =? 133))%nat.

(** [s.splitlines()]: a carriage return and the line feed behind it cut
    once, and the text after the last cut is a line unless it is empty. *)
Fixpoint splitlines (s : string) : list string :=
  match s with
  | "" => []
  | String c s' =>
      if is_line_break c then
        match s' with
        | String c' s'' =>
            if Ascii.eqb c "013" && Ascii.eqb c' "010" then "" :: splitlines s''
            else "" :: splitlines s'
        | "" => [""]
        end
      else match splitlines s' with
           | [] => [String c ""]
           | l :: ls => String c l :: ls
           end
  end.

(** What reading in text mode makes of the text of a file: a carriage
    return, with the line feed behind it if there is one, is read as one
    line feed. *)
Fixpoint universal_newlines (s : string) : string :=
  match s with
  | "" => ""
  | String c s' =>
      if Ascii.eqb c "013" then
        match s' with
        | String c' s'' =>
            if Ascii.eqb c' "010" then String "010" (universal_newlines s'')
            else String "010" (universal_newlines s')
        | "" => LF
        end
      else String c (universal_newlines s')
  end.

(** ** The environment and the state of a run *)

Definition DUPLICATE_TRIP : Z := -2.

Inductive request :=
| GetAuth (email password : string)
| PostTrip (file_name name description : string) (token : json)
| GetStatus (task_id token : json)
| PostPhoto (photo_name : string) (trip_id token : json).

Inductive event :=
| Net (q : request)
| Sleep (interval : Z).

(** What a request comes back with: the call raised, or a response with its
    status code and its body decoded as JSON ([None]: the body is not
    JSON). *)
Inductive reply :=
| NetError
| Response (status : Z) (body : option json).

(** Settings that do not change during a run. Times are integers in one
    fixed unit. *)
Record Config := {
  project_root : string;         (* [PROJECT_ROOT], also the base of media paths *)
  api_key : string;
  email : option string;
  password : option string;
  dry_run : bool;
  poll_debug : bool;
  only : option string;
  force : bool;
  poll_interval : Z;
  poll_timeout : Z;
  path_exists : string → outcome bool;   (* [Path.exists], which may raise *)
  file_ok : string → bool;       (* the file opens and reads *)
}.

Record State := {
  auth_token : json;            (* [client.auth_token] *)
  clock : list Z;               (* readings [time.time()] will return *)
  replies : list reply;         (* what the requests will come back with *)
  events : list event;          (* requests sent and sleeps, oldest first *)
  uploaded_log : string;        (* the text of [UPLOADED_LOG], empty when the
                                   file is missing *)
}.

(** A computation on the state. [None]: the script of the environment ended
    before the run did. *)
Definition M (A : Type) : Type := State → option (outcome A * State).

Definition ret {A} (a : A) : M A := λ st, Some (Ret a, st).
Definition raise {A} (e : exn) : M A := λ st, Some (Raise e, st).
Definition lift {A} (o : outcome A) : M A := λ st, Some (o, st).

Definition bind {A B} (m : M A) (k : A → M B) : M B :=
  λ st, match m st with
        | None => None
        | Some (Ret a, st') => k a st'
        | Some (Raise e, st') => Some (Raise e, st')
        end.

Notation "x <- m ;; k" := (bind m (fun x => k))
  (at level 100, m at next level, right associativity).
Notation "m ;;; k" := (bind m (fun _ => k))
  (at level 100, right associativity).

(** [try: m except Exception: h] *)
Definition try_except {A} (m : M A) (h : exn → M A) : M A :=
  λ st, match m st with
        | None => None
        | Some (Ret a, st') => Some (Ret a, st')
        | Some (Raise e, st') => h e st'
        end.

Definition get_token : M json := λ st, Some (Ret (auth_token st), st).

Definition set_token (t : json) : M unit :=
  λ st, Some (Ret tt, {| auth_token := t; clock := clock st; replies := replies st;
                         events := events st; uploaded_log := uploaded_log st |}).

(** [time.time()] *)
Definition now : M Z :=
  λ st, match clock st with
        | [] => None
        | t :: rest =>
            Some (Ret t, {| auth_token := auth_token st; clock := rest;
                            replies := replies st; events := events st;
                            uploaded_log := uploaded_log st |})
        end.

Definition readings_left : M nat := λ st, Some (Ret (length (clock st)), st).

Definition emit (e : event) : M unit :=
  λ st, Some (Ret tt, {| auth_token := auth_token st; clock := clock st;
                         replies := replies st; events := events st ++ [e];
                         uploaded_log := uploaded_log st |}).

(** One request: it is logged and the next reply of the script comes back. *)
Definition send (q : request) : M reply :=
  λ st, match replies st with
        | [] => None
        | r :: rest =>
            Some (Ret r, {| auth_token := auth_token st; clock := clock st;
                            replies := rest; events := events st ++ [Net q];
                            uploaded_log := uploaded_log st |})
        end.

(** [time.sleep(interval)] *)
Definition sleep (interval : Z) : M unit :=
  if interval <? 0 then raise ValueError else emit (Sleep interval).

(** [append_uploaded]: the identifier and a line feed go to the end of the
    file. *)
Definition append_uploaded (act_id : string) : M unit :=
  λ st, Some (Ret tt, {| auth_token := auth_token st; clock := clock st;
                         replies := replies st; events := events st;
                         uploaded_log := uploaded_log st +:+ act_id +:+ LF |}).

(** [UPLOADED_LOG.read_text().splitlines()] *)
Definition log_lines (text : string) : list string :=
  splitlines (universal_newlines text).

Definition read_log : M (list string) :=
  λ st, Some (Ret (log_lines (uploaded_log st)), st).

Definition ok_status (status : Z) : bool :=
  bool_decide (status ∈ [200; 201; 202]).

(** Truth value of an optional setting read with [os.getenv(..) or None]. *)
Definition is_set (v : option string) : bool :=
  match v with
  | Some s => PyStr.nonempty s
  | None => false
  end.

(** [[p for p in paths if p.exists()]]: the tests are made in the order of
    the list, and the first one that raises ends the comprehension. *)
Fixpoint existing (path_exists : string → outcome bool) (paths : list string)
    : outcome (list string) :=
  match paths with
  | [] => Ret []
  | p :: rest =>
      found <~ path_exists p ;;
      others <~ existing path_exists rest ;;
      Ret (if found then p :: others else others)
  end.

(** ** The RideWithGPS client *)

Section Client.

Variable cfg : Config.

(** [RWGPSClient.ensure_auth] *)
Definition ensure_auth : M unit :=
  tok <- get_token ;;
  if truthy tok then ret tt
  else if negb (is_set (email cfg) && is_set (password cfg))
  then raise (RuntimeError "Email/password required to obtain auth_token.")
  else if dry_run cfg then set_token (JStr "DUMMY_TOKEN")
  else
    r <- send (GetAuth (default "" (email cfg)) (default "" (password cfg))) ;;
    match r with
    | NetError => raise RequestException
    | Response status body =>
        if negb (status =? 200) then raise (RuntimeError "Auth failed")
        else match body with
             | None => raise ValueError
             | Some data =>
                 user <- lift (get_or data "user" (JObj [])) ;;
                 tok <- lift (get user "auth_token") ;;
                 set_token tok ;;;
                 if negb (truthy tok)
                 then raise (RuntimeError "Auth token not found in response")
                 else ret tt
             end
    end.

(** The scan of [associated_objects] on a [success] response code: the
    first trip entry that carries a truthy id. *)
Fixpoint find_trip (objs : list json) : outcome (option json) :=
  match objs with
  | [] => Ret None
  | obj :: rest =>
      ty <~ get obj "type" ;;
      if eq_str ty "trip" then
        trip0 <~ get obj "trip" ;;
        trip_id <~ get (por trip0 (JObj [])) "id" ;;
        if truthy trip_id then Ret (Some trip_id) else find_trip rest
      else find_trip rest
  end.

(** What one poll tick makes of a decoded 200 response: [Some v] leaves
    the loop returning [v], [None] sleeps and polls again. *)
Definition examine_status (data : json) : outcome (option json) :=
  q <~ get data "queued_tasks" ;;
  let qtasks := por q (JArr []) in
  if negb (truthy qtasks) then Ret None
  else
    task <~ first_item qtasks ;;
    _ <~ get task "status" ;;
    response_code <~ get task "response_code" ;;
    if eq_str response_code "success" then
      a <~ get_or task "associated_objects" (JArr []) ;;
      objs <~ iter a ;;
      find_trip objs
    else if eq_str response_code "duplicate" then Ret (Some (JNum DUPLICATE_TRIP))
    else if eq_str response_code "error" || eq_str response_code "failed"
    then Ret (Some JNull)
    else Ret None.

(** What one poll tick makes of a reply. *)
Definition examine_reply (r : reply) : outcome (option json) :=
  match r with
  | NetError => Ret None
  | Response status body =>
      if negb (status =? 200) then Ret None
      else match body with
           | None => Ret None
           | Some data => examine_status data
           end
  end.

(** With [poll_debug] the token is sliced for display, which only a
    string allows. *)
Definition mask_token : M unit :=
  tok <- get_token ;;
  if poll_debug cfg && truthy tok && negb (is_str tok)
  then raise TypeError else ret tt.

(** The [while time.time() < deadline] loop of [poll_task_for_trip]; [tok]
    is the token of [params_base]. Every turn takes one clock reading, so
    [fuel] never needs to exceed the readings that are left. *)
Fixpoint poll_loop (fuel : nat) (deadline : Z) (task_id tok : json) (interval : Z)
    : M json :=
  match fuel with
  | O => λ _, None
  | S fuel' =>
      t <- now ;;
      if t <? deadline then
        if dry_run cfg then ret (JNum (-1))
        else
          mask_token ;;;
          r <- send (GetStatus task_id tok) ;;
          step <- lift (examine_reply r) ;;
          match step with
          | Some v => ret v
          | None => sleep interval ;;; poll_loop fuel' deadline task_id tok interval
          end
      else ret JNull
  end.

(** [RWGPSClient.poll_task_for_trip] *)
Definition poll_task_for_trip (task_id : json) (interval timeout : Z) : M json :=
  t0 <- now ;;
  tok <- get_token ;;
  n <- readings_left ;;
  poll_loop n (t0 + timeout) task_id tok interval.

(** The name the file is sent under: [file_path.stem] for a [.gz] file. *)
Definition send_name (fname : string) : string :=
  if String.eqb (path_suffix fname) ".gz" then path_stem fname else fname.

(** [RWGPSClient.upload_trip_from_file] *)
Definition upload_trip_from_file (fname name description : string)
    (poll : bool) (interval timeout : Z) : M json :=
  ensure_auth ;;;
  tok <- get_token ;;
  if negb (file_ok cfg fname) then raise OSError
  else if dry_run cfg then ret (JNum (-1))
  else
    r <- send (PostTrip (send_name fname) name description tok) ;;
    match r with
    | NetError => raise RequestException
    | Response status body =>
        if negb (ok_status status) then ret JNull
        else match body with
             | None => ret JNull
             | Some resp =>
                 task_id <- lift (if is_dict resp then get resp "task_id"
                                  else Ret JNull) ;;
                 if truthy task_id && poll
                 then poll_task_for_trip task_id interval timeout
                 else ret JNull
             end
    end.

(** [RWGPSClient.upload_photo] *)
Definition upload_photo (trip_id : json) (photo_path : string) : M bool :=
  found <- lift (path_exists cfg photo_path) ;;
  if negb found then ret false
  else
    ensure_auth ;;;
    tok <- get_token ;;
    if negb (file_ok cfg photo_path) then raise OSError
    else if dry_run cfg then ret true
    else
      r <- send (PostPhoto (PyStr.path_name photo_path) trip_id tok) ;;
      match r with
      | NetError => raise RequestException
      | Response status _ => ret (ok_status status)
      end.

(** The loop of [upload_media_for_trip]; [success] counts the photos that
    went through. *)
Fixpoint upload_photos (trip_id : json) (media_list : list string)
    (success : nat) : M nat :=
  match media_list with
  | [] => ret success
  | m :: rest =>
      ok <- try_except (upload_photo trip_id m) (λ _, ret false) ;;
      upload_photos trip_id rest (if ok then S success else success)
  end.

(** [RWGPSClient.upload_media_for_trip] *)
Definition upload_media_for_trip (trip_id : json) (media_files : list string)
    : M unit :=
  match media_files with
  | [] => ret tt
  | _ => upload_photos trip_id media_files 0 ;;; ret tt
  end.

(** ** The loop of [main] *)

Record Counts := {
  successes : nat;
  skipped : nat;
  errors : nat;
}.

Definition add_success (c : Counts) : Counts :=
  {| successes := S (successes c); skipped := skipped c; errors := errors c |}.
Definition add_skipped (c : Counts) : Counts :=
  {| successes := successes c; skipped := S (skipped c); errors := errors c |}.
Definition add_error (c : Counts) : Counts :=
  {| successes := successes c; skipped := skipped c; errors := S (errors c) |}.

(** [target_ids and act_id not in target_ids] *)
Definition filtered_out (target_ids : option (gset string)) (act_id : string) : bool :=
  match target_ids with
  | None => false
  | Some ids => negb (bool_decide (ids = ∅)) && negb (bool_decide (act_id ∈ ids))
  end.

Variable activity_meta : gmap string ActivityMeta.
Variable target_ids : option (gset string).
Variable already_uploaded : gset string.

(** One turn of [for fpath in files]. *)
Definition process_file (fname : string) (c : Counts) : M Counts :=
  let act_id := infer_activity_id_from_filename fname in
  if filtered_out target_ids act_id then ret c
  else if negb (force cfg) && bool_decide (act_id ∈ already_uploaded)
  then ret (add_skipped c)
  else match activity_meta !! act_id with
       | None => ret (add_skipped c)
       | Some meta =>
           r <- try_except
                  (trip_id <- upload_trip_from_file fname (name meta)
                                (description meta) true
                                (poll_interval cfg) (poll_timeout cfg) ;;
                   ret (Some trip_id))
                  (λ _, ret None) ;;
           match r with
           | None => ret (add_error c)
           | Some trip_id =>
               if eq_int trip_id DUPLICATE_TRIP then
                 (if negb (dry_run cfg) then append_uploaded act_id else ret tt) ;;;
                 ret (add_skipped c)
               else if negb (match trip_id with JNull => true | _ => false end) then
                 media <- lift (existing (path_exists cfg) (media_paths meta)) ;;
                 upload_media_for_trip trip_id media ;;;
                 (if negb (dry_run cfg) && negb (eq_int trip_id (-1))
                  then append_uploaded act_id else ret tt) ;;;
                 ret (add_success c)
               else ret (add_error c)
           end
       end.

Fixpoint process_files (files : list string) (c : Counts) : M Counts :=
  match files with
  | [] => ret c
  | fname :: rest => c' <- process_file fname c ;; process_files rest c'
  end.

End Client.

(** [main], from the point where the options and the environment have been
    read. [csv] is what reading [activities.csv] comes to: its rows, or the
    exception that [load_activity_metadata] lets through, which is
    [FileNotFoundError] when the file is missing and the error of the
    decoder or of the CSV reader when the file cannot be read. [listing]
    holds the files of [CYCLING_DIR]. The result is the counts of the
    printed summary, when the run gets that far, and the exit status. *)
Definition main (cfg : Config) (csv : outcome (list CsvRow)) (listing : list string)
    : M (option Counts * Z) :=
  if negb (PyStr.nonempty (api_key cfg)) then ret (None, 2)
  else
    rows <- lift csv ;;
    let activity_meta := load_activity_metadata (project_root cfg) rows in
    let target_ids := parse_only (only cfg) in
    log <- read_log ;;
    let already_uploaded := load_uploaded_set log in
    let files := discover_activity_files listing in
    match files with
    | [] => ret (None, 0)
    | _ =>
        c <- process_files cfg activity_meta target_ids already_uploaded
               files {| successes := 0; skipped := 0; errors := 0 |} ;;
        ret (Some c, if (errors c =? 0)%nat then 0 else 1)
    end.

(** * Vocabulary of the statements *)

(** ** Rows and the keys they claim *)

(** The row declares an identifier, so the loop does not drop it. *)
Definition row_kept (row : CsvRow) : bool :=
  PyStr.nonempty (cell (col_activity_id row)).

(** The keys a row asks to be indexed under: its declared identifier, then
    the stem of its file name when it has one. *)
Definition row_keys (row : CsvRow) : list string :=
  if row_kept row
  then cell (col_activity_id row) :: option_list (row_file_id row)
  else [].

Definition claims (k : string) (row : CsvRow) : bool :=
  bool_decide (k ∈ row_keys row).

(** The record of the first row, in the order of the file, that claims [k]. *)
Definition first_claim (media_base : string) (rows : list CsvRow) (k : string)
    : option ActivityMeta :=
  row_meta media_base <$> List.find (claims k) rows.

(** A row of [activities.csv] with an identifier, a name and a file name. *)
Definition csv_row (act_id name filename : string) : CsvRow :=
  {| col_activity_id := Some act_id; col_activity_name := Some name;
     col_activity_description := None; col_media := None;
     col_filename := Some filename |}.

(** ** Status replies, seen from outside the client *)

(** The first queued task of a status reply that has one: a 200 response
    whose document lists, under [queued_tasks], an array that starts with an
    object. *)
Definition first_task (r : reply) : option (list (string * json)) :=
  match r with
  | Response status (Some (JObj doc)) =>
      if status =? 200 then
        match assoc "queued_tasks" doc with
        | Some (JArr (JObj task :: _)) => Some task
        | _ => None
        end
      else None
  | _ => None
  end.

Definition response_code (task : list (string * json)) : json :=
  default JNull (assoc "response_code" task).

(** The associated objects of a task; a task without the field has none. *)
Definition associated_objects (task : list (string * json)) : option (list json) :=
  match assoc "associated_objects" task with
  | None => Some []
  | Some (JArr objs) => Some objs
  | Some _ => None
  end.

(** The identifier an associated object carries when it is a trip entry with
    an identifier. *)
Definition trip_entry_id (obj : json) : option json :=
  match obj with
  | JObj fields =>
      if eq_str (default JNull (assoc "type" fields)) "trip" then
        match assoc "trip" fields with
        | Some (JObj trip) =>
            match assoc "id" trip with
            | Some trip_id => if truthy trip_id then Some trip_id else None
            | None => None
            end
        | _ => None
        end
      else None
  | _ => None
  end.

(** An associated object of the expected shape: an object whose [trip]
    field, when it is a trip entry, is an object or an empty value. *)
Definition entry_ok (obj : json) : bool :=
  match obj with
  | JObj fields =>
      if eq_str (default JNull (assoc "type" fields)) "trip" then
        match assoc "trip" fields with
        | Some (JObj _) | None => true
        | Some t => negb (truthy t)
        end
      else true
  | _ => false
  end.

(** The reply shows no task to look at: the call failed, the status is not
    200, the body is not JSON, or the document lists no queued task. *)
Definition no_task_yet (r : reply) : bool :=
  match r with
  | NetError => true
  | Response status body =>
      negb (status =? 200)
      || match body with
         | None => true
         | Some (JObj doc) => negb (truthy (default JNull (assoc "queued_tasks" doc)))
         | Some _ => false
         end
  end.

Definition terminal_code (code : json) : bool :=
  eq_str code "success" || eq_str code "duplicate"
  || eq_str code "error" || eq_str code "failed".

(** The task has no terminal response code yet. *)
Definition still_processing (r : reply) : bool :=
  no_task_yet r
  || match first_task r with
     | Some task => negb (terminal_code (response_code task))
     | None => false
     end.

(** The task reports [code]. *)
Definition reports (code : string) (r : reply) : bool :=
  match first_task r with
  | Some task => eq_str (response_code task) code
  | None => false
  end.

(** The task reports success, and none of its associated objects is a trip
    entry with an identifier. *)
Definition success_pending (r : reply) : bool :=
  match first_task r with
  | Some task =>
      eq_str (response_code task) "success"
      && match associated_objects task with
         | Some objs =>
             forallb (λ o, entry_ok o && bool_decide (trip_entry_id o = None)) objs
         | None => false
         end
  | None => false
  end.


(** A tick on which the state stays Processing. *)
Definition keeps_polling (r : reply) : bool :=
  still_processing r || success_pending r.

(** ** States reached *)

(** The text of a ledger file that holds these identifiers, each on a line
    of its own that a line feed ends. *)
Definition ledger_text (ids : list string) : string :=
  foldr (λ act_id text, act_id +:+ LF +:+ text) "" ids.

(** The token can be shown by the debug output of the poll. *)
Definition token_maskable (cfg : Config) (st : State) : bool :=
  negb (poll_debug cfg) || negb (truthy (auth_token st)) || is_str (auth_token st).

(** The state after [k] more poll ticks that kept polling: [k] requests and
    [k] sleeps later, with [cl] and [rs] left of the script. *)
Definition polled (task_id : json) (interval : Z) (k : nat)
    (cl : list Z) (rs : list reply) (st : State) : State :=
  {| auth_token := auth_token st;
     clock := cl;
     replies := rs;
     events := events st
               ++ mjoin (replicate k [Net (GetStatus task_id (auth_token st));
                                      Sleep interval]);
     uploaded_log := uploaded_log st |}.

(** The state after one more request [q], with [rs] left of the replies. *)
Definition sent (q : request) (rs : list reply) (st : State) : State :=
  {| auth_token := auth_token st;
     clock := clock st;
     replies := rs;
     events := events st ++ [Net q];
     uploaded_log := uploaded_log st |}.

Definition with_clock (cl : list Z) (st : State) : State :=
  {| auth_token := auth_token st;
     clock := cl;
     replies := replies st;
     events := events st;
     uploaded_log := uploaded_log st |}.

Definition with_log (log : string) (st : State) : State :=
  {| auth_token := auth_token st;
     clock := clock st;
     replies := replies st;
     events := events st;
     uploaded_log := log |}.

(** Only the token may differ between the two states: nothing was sent,
    nothing was read from the script, nothing was written to the log. *)
Definition quiet (st st' : State) : Prop :=
  events st' = events st ∧ replies st' = replies st ∧
  clock st' = clock st ∧ uploaded_log st' = uploaded_log st.

(** The computation always ends, and quietly. *)
Definition Quiet {A} (m : M A) : Prop :=
  ∀ st, ∃ o st', m st = Some (o, st') ∧ quiet st st'.

(** A reply of the authentication endpoint that counts as a failure: a
    status other than 200, or a document whose token field is missing or
    empty. *)
Definition auth_failure (r : reply) : bool :=
  match r with
  | NetError => false
  | Response status body =>
      negb (status =? 200)
      || match body with
         | Some (JObj doc) =>
             match default (JObj []) (assoc "user" doc) with
             | JObj user => negb (truthy (default JNull (assoc "auth_token" user)))
             | _ => false
             end
         | _ => false
         end
  end.

(** The file passes the allow-list and the ledger check and has a record:
    the loop goes on to upload it. *)
Definition due (cfg : Config) (activity_meta : gmap string ActivityMeta)
    (target_ids : option (gset string)) (already_uploaded : gset string)
    (fname : string) (meta : ActivityMeta) : Prop :=
  let act_id := infer_activity_id_from_filename fname in
  filtered_out target_ids act_id = false ∧
  (force cfg = true ∨ act_id ∉ already_uploaded) ∧
  activity_meta !! act_id = Some meta.

Definition is_photo_post (e : event) : bool :=
  match e with
  | Net (PostPhoto _ _ _) => true
  | _ => false
  end.

(** ** Sample runs *)

(** A configuration with credentials and the default poll settings, where
    every file reads; [only_ids] is the [--only] option, [dry] the dry-run
    flag. *)
Definition sample_cfg (only_ids : option string) (dry : bool) : Config :=
  {| project_root := "."; api_key := "key";
     email := Some "rider@example.org"; password := Some "secret";
     dry_run := dry; poll_debug := false; only := only_ids; force := false;
     poll_interval := 2; poll_timeout := 300;
     path_exists := λ _, Ret true; file_ok := λ _, true |}.

(** The start of a run: the token from the environment, the script of
    the clock and of the network, and the identifiers that the log file
    holds, one on each line. *)
Definition start (token : json) (cl : list Z) (rs : list reply) (log : list string)
    : State :=
  {| auth_token := token; clock := cl; replies := rs; events := [];
     uploaded_log := ledger_text log |}.

Definition no_counts : Counts := {| successes := 0; skipped := 0; errors := 0 |}.

(** Replies of the service. *)
Definition auth_granted (token : string) : reply :=
  Response 200 (Some (JObj [("user", JObj [("auth_token", JStr token)])])).

Definition trip_queued (task_id : Z) : reply :=
  Response 200 (Some (JObj [("task_id", JNum task_id)])).

Definition task_status (task : list (string * json)) : reply :=
  Response 200 (Some (JObj [("queued_tasks", JArr [JObj task])])).

Definition trip_object (trip_id : Z) : json :=
  JObj [("type", JStr "trip"); ("trip", JObj [("id", JNum trip_id)])].

(** A status reply for a task with the response code [code] and the
    associated objects [objs]. *)
Definition status_reply (code : string) (objs : list json) : reply :=
  task_status [("status", JNum 1); ("response_code", JStr code);
               ("associated_objects", JArr objs)].

(** ** What a run may change *)

(** If the computation ends, the states before and after are related by
    [R]. *)
Definition Keeps {A} (R : State → State → Prop) (m : M A) : Prop :=
  ∀ st o st', m st = Some (o, st') → R st st'.

(** If the computation ends, it ends with a value: it does not raise. *)
Definition Returns {A} (m : M A) : Prop :=
  ∀ st o st', m st = Some (o, st') → ∃ a, o = Ret a.

(** The events of [st'] are those of [st] followed by events that all
    satisfy [P]. *)
Definition grows_by (P : event → Prop) (st st' : State) : Prop :=
  ∃ new, events st' = events st ++ new ∧ Forall P new.

(** The ledger file of [st'] is that of [st] followed by identifiers that
    all satisfy [P]. *)
Definition ledger_grows (P : string → Prop) (st st' : State) : Prop :=
  ∃ ids, uploaded_log st' = uploaded_log st +:+ ledger_text ids ∧ Forall P ids.

Definition is_auth_request (e : event) : bool :=
  match e with
  | Net (GetAuth _ _) => true
  | _ => false
  end.

(** A token that is held stays as it is, and no authentication request is
    sent. *)
Definition session_kept (st st' : State) : Prop :=
  truthy (auth_token st) = true →
  auth_token st' = auth_token st ∧
  grows_by (λ e, is_auth_request e = false) st st'.

Definition tally (c : Counts) : nat := (successes c + skipped c + errors c)%nat.

(** The identifier may be recorded by a run over [files]: it is the
    identifier of one of the files, the allow-list lets it through, it was
    not in the ledger at startup unless [--force] is given, and it has a
    record. *)
Definition recordable (cfg : Config) (activity_meta : gmap string ActivityMeta)
    (target_ids : option (gset string)) (already_uploaded : gset string)
    (files : list string) (act_id : string) : Prop :=
  (∃ fname, fname ∈ files ∧ act_id = infer_activity_id_from_filename fname) ∧
  filtered_out target_ids act_id = false ∧
  (force cfg = true ∨ act_id ∉ already_uploaded) ∧
  is_Some (activity_meta !! act_id) ∧
  dry_run cfg = false.

(** The files of [files] that the allow-list lets through. *)
Definition let_through (target_ids : option (gset string)) (files : list string)
    : list string :=
  List.filter (λ fname, negb (filtered_out target_ids
                                (infer_activity_id_from_filename fname))) files.

(** One file, for which the service creates the trip 99 on the second poll
    tick, with the ledger holding [41]. *)
Definition one_file_run : State :=
  start JNull [1000; 1001; 1004; 1007]
    [auth_granted "token"; trip_queued 7;
     status_reply "success" []; status_reply "success" [trip_object 99]]
    ["41"].

Definition one_file_done : State :=
  {| auth_token := JStr "token"; clock := [1007]; replies := [];
     events := [Net (GetAuth "rider@example.org" "secret");
                Net (PostTrip "42.fit" "Morning ride" "" (JStr "token"));
                Net (GetStatus (JNum 7) (JStr "token")); Sleep 2;
                Net (GetStatus (JNum 7) (JStr "token"))];
     uploaded_log := ledger_text ["41"; "42"] |}.

Definition one_file_index : gmap string ActivityMeta :=
  load_activity_metadata "." [csv_row "9001" "Morning ride" "activities/42.fit.gz"].

(** ** Submissions *)

(** The turn for [fname] has authenticated, read the file and had its
    submission accepted with the task [task_id]; [s1] is the state in which
    the poll of that task starts. *)
Definition queued (cfg : Config) (fname : string) (meta : ActivityMeta)
    (st s1 : State) (task_id : json) : Prop :=
  ∃ st0 status doc rs,
    dry_run cfg = false ∧
    ensure_auth cfg st = Some (Ret tt, st0) ∧
    file_ok cfg fname = true ∧
    replies st0 = Response status (Some (JObj doc)) :: rs ∧
    ok_status status = true ∧
    assoc "task_id" doc = Some task_id ∧
    truthy task_id = true ∧
    s1 = sent (PostTrip (send_name fname) (name meta) (description meta)
                 (auth_token st0)) rs st0.

(** A reply to a submission that gives no task to follow: the request
    failed, the status is not 200, 201 or 202, the body is not JSON, or the
    document is not an object with a task identifier. *)
Definition no_task_handle (r : reply) : bool :=
  match r with
  | NetError => true
  | Response status body =>
      negb (ok_status status)
      || match body with
         | None => true
         | Some (JObj doc) => negb (truthy (default JNull (assoc "task_id" doc)))
         | Some _ => true
         end
  end.

(** A 200 status reply that the poll cannot read: its document is not an
    object, or its [queued_tasks] is something else than a list that starts
    with an object. *)
Definition malformed_status (r : reply) : bool :=
  match r with
  | Response status (Some data) =>
      (status =? 200)
      && match data with
         | JObj doc =>
             let q := default JNull (assoc "queued_tasks" doc) in
             truthy q && match q with JArr (JObj _ :: _) => false | _ => true end
         | _ => true
         end
  | _ => false
  end.

(** The state the sample run polls from, and the state it submits from. *)
Definition one_file_authed : State :=
  {| auth_token := JStr "token"; clock := [1000; 1001; 1004; 1007];
     replies := [trip_queued 7; status_reply "success" [];
                 status_reply "success" [trip_object 99]];
     events := [Net (GetAuth "rider@example.org" "secret")];
     uploaded_log := ledger_text ["41"] |}.

Definition one_file_meta : ActivityMeta :=
  {| activity_id := "9001"; name := "Morning ride"; description := "";
     media_paths := [] |}.

(** The state in which the sample run polls the task 7. *)
Definition one_file_queued : State :=
  sent (PostTrip "42.fit" "Morning ride" "" (JStr "token"))
    [status_reply "success" []; status_reply "success" [trip_object 99]]
    one_file_authed.

(** A configuration without credentials, for runs that start with a token
    from the environment, with the given poll interval and timeout. *)
Definition cached_cfg (interval timeout : Z) : Config :=
  {| project_root := "."; api_key := "key"; email := None; password := None;
     dry_run := false; poll_debug := false; only := None; force := false;
     poll_interval := interval; poll_timeout := timeout;
     path_exists := λ _, Ret true; file_ok := λ _, true |}.

(** ** Media *)

(** The photo exists and opens: the client will post it. *)
Definition uploadable (cfg : Config) (photo_path : string) : bool :=
  match path_exists cfg photo_path with
  | Ret found => found && file_ok cfg photo_path
  | Raise _ => false
  end.

(** One photo request per uploadable file, in the order of the list. *)
Definition photo_posts (cfg : Config) (trip_id tok : json) (media : list string)
    : list event :=
  (λ p, Net (PostPhoto (PyStr.path_name p) trip_id tok))
    <$> List.filter (uploadable cfg) media.

(** The state after the photos of [media] have been posted from [st]. *)
Definition after_photos (cfg : Config) (trip_id : json) (media : list string)
    (st : State) : State :=
  {| auth_token := auth_token st;
     clock := clock st;
     replies := drop (length (List.filter (uploadable cfg) media)) (replies st);
     events := events st ++ photo_posts cfg trip_id (auth_token st) media;
     uploaded_log := uploaded_log st |}.

(** A record with two photos, and a configuration for which the second one
    is missing. *)
Definition photo_meta : ActivityMeta :=
  {| activity_id := "9001"; name := "Morning ride"; description := "";
     media_paths := ["./media/a.jpg"; "./media/b.jpg"; "./media/c.jpg"] |}.

Definition photo_cfg : Config :=
  {| project_root := "."; api_key := "key"; email := None; password := None;
     dry_run := false; poll_debug := false; only := None; force := false;
     poll_interval := 2; poll_timeout := 300;
     path_exists := λ p, Ret (negb (String.eqb p "./media/b.jpg"));
     file_ok := λ _, true |}.


(** The suffixes that make a file an activity file. *)
Definition activity_suffixes : list string := [".fit"; ".gpx"; ".tcx"; ".gz"].

(** The string does not start with white space. *)
Definition starts_clean (s : string) : bool :=
  match s with
  | "" => true
  | String c _ => negb (PyStr.is_space c)
  end.

(** The identifiers listed by an [--only] value: its comma-separated parts,
    stripped, without the empty ones. *)
Definition only_ids (s : string) : list string :=
  List.filter PyStr.nonempty (PyStr.strip <$> PyStr.split "," s).

(** * Letter case and [parse_bool] *)

(** [str.lower] on the code points below 256: the letters A to Z and the
    capital letters of Latin-1 (192 to 222, without the sign 215) move up
    by 32; every other character stays. *)
Definition lower_char (c : ascii) : ascii :=
  let n := nat_of_ascii c in
  if ((65 <=? n) && (n <=? 90)
      || (192 <=? n) && (n <=? 222) && negb (n =? 215))%nat
  then ascii_of_nat (n + 32) else c.

Fixpoint lower (s : string) : string :=
  match s with
  | "" => ""
  | String c s' => String (lower_char c) (lower s')
  end.

(** [parse_bool(val, default)] *)
Definition parse_bool (val : option string) (dflt : bool) : bool :=
  match val with
  | None => dflt
  | Some v => bool_decide (lower v ∈ ({["1"; "true"; "yes"; "on"]} : gset string))
  end.

(** The dry-run switch of [main]: the flag [--dry-run], or the variable
    [RWGPS_DRY_RUN] read by [parse_bool]. *)
Definition main_dry_run (flag : bool) (env : option string) : bool :=
  flag || (parse_bool env false || false).

(** * [sort.py]: filing the activity files by sport *)

Definition source_dir : string := "activities".
Definition cycling_dir : string := source_dir +:+ "/cycling".
Definition running_dir : string := source_dir +:+ "/running".
Definition walking_dir : string := source_dir +:+ "/walking".

(** [os.path.join(a, b)] on POSIX. *)
Definition os_path_join (a b : string) : string :=
  match b with
  | String "/" _ => b
  | _ => if negb (PyStr.nonempty a) || PyStr.endswith a "/" then a +:+ b
         else a +:+ "/" +:+ b
  end.

(** [os.path.basename(p)]: what follows the last slash. *)
Definition basename (p : string) : string := List.last (PyStr.split "/" p) "".

(** What [record.get_value("sport")] gives: [None] when the record has no
    such field, the name of the sport, or the raw number when the profile
    has no name for it. *)
Inductive fit_value :=
| FNone
| FStr (s : string)
| FInt (n : Z).

Definition fit_truthy (v : fit_value) : bool :=
  match v with
  | FNone => false
  | FStr s => PyStr.nonempty s
  | FInt n => negb (n =? 0)
  end.

(** One iteration over [fitfile.get_messages(name)]: the [sport] value of
    each record in turn; the decoder may raise on the way. *)
Inductive messages :=
| Done
| Yield (v : fit_value) (rest : messages)
| Broken (e : exn).

Record FitFile := {
  sport_messages : messages;
  session_messages : messages;
}.

(** The three lines that each branch repeats: lower the case, and read
    [ebikeride] as [cycling]. *)
Definition normalise (sport : string) : string :=
  let sport := lower sport in
  if String.eqb sport "ebikeride" then "cycling" else sport.

(** One [for record in ...] loop of [determine_activity_type_fit]: the type,
    when the loop returns one. A truthy value that is not a string has no
    [lower]. *)
Fixpoint scan_messages (ms : messages) : outcome (option string) :=
  match ms with
  | Done => Ret None
  | Broken e => Raise e
  | Yield v rest =>
      if fit_truthy v then
        match v with
        | FStr sport => Ret (Some (normalise sport))
        | _ => Raise AttributeError
        end
      else scan_messages rest
  end.

(** [determine_activity_type_fit], from what [fitparse.FitFile(file_path)]
    gives. *)
Definition determine_activity_type_fit (file : outcome FitFile) : outcome string :=
  fitfile <~ file ;;
  found <~ scan_messages (sport_messages fitfile) ;;
  match found with
  | Some sport => Ret sport
  | None =>
      found <~ scan_messages (session_messages fitfile) ;;
      Ret (default "unknown" found)
  end.

(** The loop over [gpx.tracks]; [track.type] is [None] or a string. *)
Fixpoint scan_tracks (tracks : list (option string)) : option string :=
  match tracks with
  | [] => None
  | ty :: rest =>
      if PyStr.nonempty (default "" ty) then Some (normalise (default "" ty))
      else scan_tracks rest
  end.

(** [determine_activity_type_gpx], from what opening and parsing the file
    gives: the types of the tracks. *)
Definition determine_activity_type_gpx (file : outcome (list (option string)))
    : outcome string :=
  tracks <~ file ;;
  Ret (default "unknown" (scan_tracks tracks)).

(** The file system as [sort.py] meets it. The entries of [source_dir] have
    distinct names without a slash, and a move goes into a folder below
    [source_dir], so that no move changes what a later entry is. *)
Record Env := {
  isfile : string → bool;
  fit_file : string → outcome FitFile;
  gpx_file : string → outcome (list (option string));
  shutil_move : string → string → outcome unit;
}.

(** What the script does with one entry: nothing, or one printed line; the
    line [Moved] follows a [shutil.move] that returned. *)
Inductive sorted :=
| NotAFile
| Moved (file_path dst : string)
| UnknownType (file_path : string)
| Uncategorised (activity_type file_name : string)
| ErrorProcessing (file_name : string) (e : exn).

Definition move_file (env : Env) (file_path activity_type : string)
    : outcome sorted :=
  match (if String.eqb activity_type "cycling" then Some cycling_dir
         else if String.eqb activity_type "running" then Some running_dir
         else if String.eqb activity_type "walking" then Some walking_dir
         else None) with
  | None => Ret (UnknownType file_path)
  | Some dest_folder =>
      let dst := os_path_join dest_folder (basename file_path) in
      _ <~ shutil_move env file_path dst ;;
      Ret (Moved file_path dst)
  end.

(** The body of the loop [for file_name in os.listdir(source_dir)]. *)
Definition sort_entry (env : Env) (file_name : string) : sorted :=
  let file_path := os_path_join source_dir file_name in
  if isfile env file_path then
    let attempt :=
      activity_type <~
        (if PyStr.endswith file_name ".fit"
         then determine_activity_type_fit (fit_file env file_path)
         else if PyStr.endswith file_name ".gpx"
         then determine_activity_type_gpx (gpx_file env file_path)
         else Ret "unknown") ;;
      if bool_decide (activity_type ∈ ["cycling"; "running"; "walking"])
      then move_file env file_path activity_type
      else Ret (Uncategorised activity_type file_name) in
    match attempt with
    | Ret line => line
    | Raise e => ErrorProcessing file_name e
    end
  else NotAFile.

Definition sort_entries (env : Env) (listing : list string) : list sorted :=
  map (sort_entry env) listing.

(** ** Vocabulary for [sort.py] *)

(** The name has no slash, as the names that [os.listdir] gives. *)
Fixpoint slash_free (s : string) : bool :=
  match s with
  | "" => true
  | String c s' => negb (Ascii.eqb c "/") && slash_free s'
  end.

(** No character of the string is white space. *)
Fixpoint space_free (s : string) : bool :=
  match s with
  | "" => true
  | String c s' => negb (PyStr.is_space c) && space_free s'
  end.

(** The messages that yield [vs] and go on as [tail]. *)
Definition yields (vs : list fit_value) (tail : messages) : messages :=
  foldr Yield tail vs.

(** The same values, with the names of the sports in lower case. *)
Definition lower_value (v : fit_value) : fit_value :=
  match v with
  | FStr s => FStr (lower s)
  | _ => v
  end.

Fixpoint lower_messages (ms : messages) : messages :=
  match ms with
  | Yield v rest => Yield (lower_value v) (lower_messages rest)
  | _ => ms
  end.

Definition lower_fit (f : FitFile) : FitFile :=
  {| sport_messages := lower_messages (sport_messages f);
     session_messages := lower_messages (session_messages f) |}.

(** A folder with an e-bike ride, a walk, a file whose sport has no name in
    the profile, and a compressed ride. *)
Definition ebike_fit : FitFile :=
  {| sport_messages := Yield FNone (Yield (FStr "EBikeRide") Done);
     session_messages := Yield (FStr "running") Done |}.

Definition odd_fit : FitFile :=
  {| sport_messages := Yield (FInt 0) (Yield (FInt 64) Done);
     session_messages := Yield (FStr "cycling") Done |}.

Definition sample_env : Env :=
  {| isfile p := bool_decide (p ∈ ["activities/ride.fit"; "activities/walk.gpx";
                                   "activities/odd.fit"; "activities/ride.fit.gz"]);
     fit_file p := if String.eqb p "activities/ride.fit" then Ret ebike_fit
                   else if String.eqb p "activities/odd.fit" then Ret odd_fit
                   else Raise OSError;
     gpx_file p := if String.eqb p "activities/walk.gpx"
                   then Ret [None; Some ""; Some "Walking"]
                   else Raise OSError;
     shutil_move _ _ := Ret tt |}.

(** ** Lines of a text *)

(** No character of the string cuts a line. *)
Fixpoint line_free (s : string) : bool :=
  match s with
  | "" => true
  | String c s' => negb (is_line_break c) && line_free s'
  end.

(** The text is empty or ends with a character that cuts a line, so that
    what is written behind it starts a line. *)
Fixpoint ends_lines (text : string) : bool :=
  match text with
  | "" => true
  | String c text' =>
      match text' with
      | "" => is_line_break c
      | _ => ends_lines text'
      end
  end.

(** The text starts with a line feed. *)
Definition starts_lf (s : string) : bool :=
  match s with
  | String c _ => Ascii.eqb c "010"
  | "" => false
  end.

(** * Properties *)

(** ** The model at work *)

Example infer_double : infer_activity_id_from_filename "1234.fit.gz" = "1234".
Proof. reflexivity. Qed.

Example infer_single : infer_activity_id_from_filename "ride.2024.gpx" = "ride.2024".
Proof. reflexivity. Qed.

Example infer_other : infer_activity_id_from_filename "notes.txt.gz" = "notes.txt.gz".
Proof. reflexivity. Qed.

Example strip_cell : PyStr.strip "  42 " = "42".
Proof. reflexivity. Qed.

Example split_media : PyStr.split "|" "media/a.jpg|media/b.jpg" = ["media/a.jpg"; "media/b.jpg"].
Proof. reflexivity. Qed.

Example base_name : PyStr.path_name "activities/42.fit.gz" = "42.fit.gz".
Proof. reflexivity. Qed.

Example discovered :
  discover_activity_files ["b.tcx"; "readme.md"; "a.fit.gz"; ".fit"]
    = ["a.fit.gz"; "b.tcx"].
Proof. by vm_compute. Qed.

(** The CSV names [42.fit.gz] for the activity [9001]; the file on disk is
    [42.fit]. Its identifier [42] finds the record through the file stem. *)
Example stem_index :
  load_activity_metadata "." [csv_row "9001" "Morning ride" "activities/42.fit.gz"]
    !! infer_activity_id_from_filename "42.fit"
  = Some {| activity_id := "9001"; name := "Morning ride"; description := "";
            media_paths := [] |}.
Proof. by vm_compute. Qed.

(** One file, uploaded in full: authentication, submission, two poll ticks,
    and the identifier appended to the ledger. *)
Example full_run :
  main (sample_cfg None false)
      (Ret [csv_row "9001" "Morning ride" "activities/42.fit.gz"]) ["42.fit"]
      (start JNull [1000; 1001; 1004; 1007]
         [auth_granted "token"; trip_queued 7;
          status_reply "success" []; status_reply "success" [trip_object 99]]
         ["41"])
    = Some (Ret (Some {| successes := 1; skipped := 0; errors := 0 |}, 0),
            {| auth_token := JStr "token"; clock := [1007]; replies := [];
               events := [Net (GetAuth "rider@example.org" "secret");
                          Net (PostTrip "42.fit" "Morning ride" "" (JStr "token"));
                          Net (GetStatus (JNum 7) (JStr "token")); Sleep 2;
                          Net (GetStatus (JNum 7) (JStr "token"))];
               uploaded_log := ledger_text ["41"; "42"] |}).
Proof. by vm_compute. Qed.

(** ** Strings *)

Section StringFacts.

Lemma str_app_nil_l (s : string) : "" +:+ s = s.
Proof. reflexivity. Qed.

Lemma str_app_cons (c : ascii) (s t : string) : String c s +:+ t = String c (s +:+ t).
Proof. reflexivity. Qed.

Lemma str_app_nil_r (s : string) : s +:+ "" = s.
Proof. induction s as [|c s IH]; [done|]. by rewrite str_app_cons, IH. Qed.

Lemma str_app_assoc (s t u : string) : (s +:+ t) +:+ u = s +:+ t +:+ u.
Proof. induction s as [|c s IH]; [done|]. by rewrite !str_app_cons, IH. Qed.

Lemma ledger_text_app (ids more : list string) :
  ledger_text (ids ++ more) = ledger_text ids +:+ ledger_text more.
Proof.
  induction ids as [|act_id ids IH]; [done|].
  cbn [app ledger_text foldr]. fold (ledger_text (ids ++ more)).
  fold (ledger_text ids). by rewrite IH, !str_app_assoc.
Qed.

Lemma str_length_app (s t : string) :
  String.length (s +:+ t) = (String.length s + String.length t)%nat.
Proof.
  induction s as [|c s IH]; [reflexivity|].
  rewrite str_app_cons. simpl. now rewrite IH.
Qed.

Lemma endswith_refl (s : string) : PyStr.endswith s s = true.
Proof. destruct s; cbn [PyStr.endswith]; now rewrite String.eqb_refl. Qed.

Lemma endswith_app (stem suf : string) : PyStr.endswith (stem +:+ suf) suf = true.
Proof.
  induction stem as [|c stem IH]; [apply endswith_refl|].
  rewrite str_app_cons. cbn [PyStr.endswith]. rewrite IH. now destruct (String.eqb _ _).
Qed.

Lemma endswith_inv (s suf : string) :
  PyStr.endswith s suf = true → ∃ stem, s = stem +:+ suf.
Proof.
  induction s as [|c s IH]; cbn [PyStr.endswith].
  - destruct (String.eqb_spec "" suf) as [<-|]; [|discriminate].
    intros _. now exists "".
  - destruct (String.eqb_spec (String c s) suf) as [<-|].
    + intros _. now exists "".
    + intros [stem ->]%IH. now exists (String c stem).
Qed.

(** When two ways of cutting the same string are compared, the shorter
    tail ends the longer one. *)
Lemma tails_nest (a1 b1 a2 b2 : string) :
  a1 +:+ b1 = a2 +:+ b2 →
  (String.length b1 ≤ String.length b2)%nat →
  PyStr.endswith b2 b1 = true.
Proof.
  revert a2. induction a1 as [|c a1 IH]; intros a2 Heq Hlen.
  - rewrite str_app_nil_l in Heq. subst b1. rewrite str_length_app in Hlen.
    destruct a2; [apply endswith_refl|simpl in Hlen; lia].
  - destruct a2 as [|c2 a2].
    + rewrite str_app_nil_l in Heq. subst b2. apply endswith_app.
    + rewrite !str_app_cons in Heq. injection Heq as _ Heq. eauto.
Qed.

Lemma endswith_app_other (stem a b : string) :
  (String.length a ≤ String.length b)%nat →
  PyStr.endswith b a = false →
  PyStr.endswith (stem +:+ a) b = false.
Proof.
  intros Hlen Hba. destruct (PyStr.endswith (stem +:+ a) b) eqn:E; [|done].
  apply endswith_inv in E as [stem' E].
  apply tails_nest in E; [congruence|done].
Qed.

Lemma str_take_app (stem suf : string) :
  PyStr.take (String.length stem) (stem +:+ suf) = stem.
Proof.
  induction stem as [|c stem IH]; [now destruct suf|].
  rewrite str_app_cons. simpl. now rewrite IH.
Qed.

Lemma drop_last_app (stem suf : string) :
  suf ≠ "" → PyStr.drop_last (String.length suf) (stem +:+ suf) = stem.
Proof.
  intros Hne. unfold PyStr.drop_last.
  destruct (String.length suf) eqn:E; [now destruct suf|].
  rewrite <- E, str_length_app.
  replace (String.length stem + String.length suf - String.length suf)%nat
    with (String.length stem) by lia.
  apply str_take_app.
Qed.

Lemma strip_first_ext_none (exts : list string) (base : string) :
  (∀ ext, ext ∈ exts → PyStr.endswith base ext = false) →
  strip_first_ext exts base = None.
Proof.
  induction exts as [|e exts IH]; intros H; [done|].
  simpl. rewrite H by left. apply IH. intros ext Hin. apply H. now right.
Qed.

Lemma strip_first_ext_nonempty_none (exts : list string) (base : string) :
  strip_first_ext exts base = None →
  ∀ ext, ext ∈ exts → PyStr.endswith base ext = false.
Proof.
  induction exts as [|e exts IH]; intros H ext Hin; [by apply elem_of_nil in Hin|].
  simpl in H. destruct (PyStr.endswith base e) eqn:E; [done|].
  apply elem_of_cons in Hin as [->|Hin]; eauto.
Qed.

End StringFacts.

(** ** C5: the identifier inferred from a file name *)

(** C5. [infer_activity_id_from_filename] removes exactly the double
    extension from a name that ends in one of [.fit.gz], [.gpx.gz],
    [.tcx.gz]; it removes exactly the single extension from a name that ends
    in one of [.fit], [.gpx], [.tcx]; and it returns unchanged a name that
    ends in none of the six. In particular [stem.fit.gz] gives [stem], never
    [stem.fit]. *)
Theorem infer_activity_id_strips (f : string) :
  (∀ stem ext, ext ∈ double_exts → f = stem +:+ ext →
     infer_activity_id_from_filename f = stem) ∧
  (∀ stem ext, ext ∈ single_exts → f = stem +:+ ext →
     infer_activity_id_from_filename f = stem) ∧
  ((∀ ext, ext ∈ all_exts → PyStr.endswith f ext = false) →
     infer_activity_id_from_filename f = f).
Proof.
  unfold infer_activity_id_from_filename, double_exts, single_exts.
  split; [|split].
  - intros stem ext Hin ->.
    repeat (apply elem_of_cons in Hin as [->|Hin]); [..|by apply elem_of_nil in Hin];
      cbn [strip_first_ext];
      repeat (rewrite endswith_app_other by (simpl; (lia || reflexivity)));
      rewrite endswith_app; now rewrite drop_last_app.
  - intros stem ext Hin ->.
    repeat (apply elem_of_cons in Hin as [->|Hin]); [..|by apply elem_of_nil in Hin];
      cbn [strip_first_ext];
      repeat (rewrite endswith_app_other by (simpl; (lia || reflexivity)));
      rewrite endswith_app; now rewrite drop_last_app.
  - intros H.
    rewrite !strip_first_ext_none; [done|..];
      intros ext Hin; apply H; unfold all_exts, double_exts, single_exts;
      apply elem_of_app; auto.
Qed.

Lemma infer_activity_id_strips_witness :
  infer_activity_id_from_filename "42.fit.gz" = "42" ∧
  infer_activity_id_from_filename "ride.gpx" = "ride" ∧
  infer_activity_id_from_filename "notes.gz" = "notes.gz".
Proof.
  split; [|split].
  - apply (proj1 (infer_activity_id_strips "42.fit.gz") "42" ".fit.gz");
      [set_solver|reflexivity].
  - apply (proj1 (proj2 (infer_activity_id_strips "ride.gpx")) "ride" ".gpx");
      [set_solver|reflexivity].
  - apply (proj2 (proj2 (infer_activity_id_strips "notes.gz"))).
    intros ext Hin. unfold all_exts, double_exts, single_exts in Hin.
    repeat (apply elem_of_cons in Hin as [->|Hin]); try reflexivity.
    by apply elem_of_nil in Hin.
Defined.

(** ** The metadata index *)

Section Index.

Variable media_base : string.

Lemma lookup_setdefault {V} (k k' : string) (v : V) (m : gmap string V) :
  setdefault k v m !! k' =
    match m !! k' with
    | Some x => Some x
    | None => if decide (k = k') then Some v else None
    end.
Proof.
  unfold setdefault. destruct (m !! k) eqn:Ek.
  - destruct (m !! k') eqn:Ek'; [done|]. case_decide; congruence.
  - rewrite lookup_insert. case_decide; subst; [by rewrite Ek|].
    by destruct (m !! k').
Qed.

Lemma lookup_index_row (m : gmap string ActivityMeta) (row : CsvRow) (k : string) :
  index_row media_base m row !! k =
    match m !! k with
    | Some x => Some x
    | None => if claims k row then Some (row_meta media_base row) else None
    end.
Proof.
  unfold index_row, claims, row_keys, row_kept.
  destruct (PyStr.nonempty (cell (col_activity_id row))); simpl.
  - destruct (row_file_id row) as [file_id|]; simpl;
      rewrite ?lookup_setdefault; destruct (m !! k); try done;
      repeat case_decide; subst; try done;
      (rewrite bool_decide_eq_true_2; [done|]) ||
      (rewrite bool_decide_eq_false_2; [done|]);
      rewrite ?elem_of_cons, elem_of_nil; intuition congruence.
  - by destruct (m !! k).
Qed.

Lemma lookup_fold_index (rows : list CsvRow) (m : gmap string ActivityMeta) (k : string) :
  fold_left (index_row media_base) rows m !! k =
    match m !! k with
    | Some x => Some x
    | None => first_claim media_base rows k
    end.
Proof.
  revert m. induction rows as [|row rows IH]; intros m; simpl.
  - by destruct (m !! k).
  - rewrite IH, lookup_index_row. unfold first_claim. simpl.
    destruct (m !! k); [done|]. by destruct (claims k row).
Qed.

(** Looking a key up in the index gives the record of the first row that
    claims the key. *)
Lemma lookup_index (rows : list CsvRow) (k : string) :
  load_activity_metadata media_base rows !! k = first_claim media_base rows k.
Proof. unfold load_activity_metadata. by rewrite lookup_fold_index, lookup_empty. Qed.

Lemma find_app_skip {A} (p : A → bool) (pre : list A) (x : A) (post : list A) :
  (∀ y, y ∈ pre → p y = false) → p x = true →
  List.find p (pre ++ x :: post) = Some x.
Proof.
  intros Hpre Hx. induction pre as [|y pre IH]; simpl.
  - by rewrite Hx.
  - rewrite Hpre by left. apply IH. intros z Hz. apply Hpre. by right.
Qed.

Lemma first_claim_at (pre : list CsvRow) (row : CsvRow) (post : list CsvRow) (k : string) :
  (∀ r, r ∈ pre → k ∉ row_keys r) → k ∈ row_keys row →
  first_claim media_base (pre ++ row :: post) k = Some (row_meta media_base row).
Proof.
  intros Hpre Hrow. unfold first_claim.
  rewrite (find_app_skip _ pre row post); [done| |].
  - intros r Hr. unfold claims. apply bool_decide_eq_false. auto.
  - unfold claims. by apply bool_decide_eq_true.
Qed.

Lemma empty_key_unclaimed (row : CsvRow) : "" ∉ row_keys row.
Proof.
  unfold row_keys, row_kept.
  destruct (cell (col_activity_id row)) as [|c s] eqn:E; simpl;
    [apply not_elem_of_nil|].
  intros [?|Hin]%elem_of_cons; [done|].
  unfold row_file_id in Hin.
  destruct (PyStr.nonempty (cell (col_filename row)));
    [|by apply elem_of_nil in Hin].
  destruct (strip_first_ext all_exts (PyStr.path_name (cell (col_filename row))))
    as [[|c' s']|]; simpl in Hin.
  - by apply elem_of_nil in Hin.
  - by apply list_elem_of_singleton in Hin.
  - by apply elem_of_nil in Hin.
Qed.

Lemma index_no_empty_key (rows : list CsvRow) :
  load_activity_metadata media_base rows !! "" = None.
Proof.
  rewrite lookup_index. unfold first_claim.
  destruct (List.find _ rows) as [row|] eqn:E; [|done].
  apply List.find_some in E as [_ E]. unfold claims in E.
  apply bool_decide_eq_true in E. by apply empty_key_unclaimed in E.
Qed.

End Index.

(** ** C6: indexing by file stem *)

Lemma strip_all_exts (stem ext : string) :
  ext ∈ all_exts → strip_first_ext all_exts (stem +:+ ext) = Some stem.
Proof.
  unfold all_exts, double_exts, single_exts. intros Hin. simpl in Hin.
  repeat (apply elem_of_cons in Hin as [->|Hin]); [..|by apply elem_of_nil in Hin];
    cbn [strip_first_ext app];
    repeat (rewrite endswith_app_other by (simpl; (lia || reflexivity)));
    rewrite endswith_app; now rewrite drop_last_app.
Qed.

Lemma row_file_id_strips (row : CsvRow) (stem ext : string) :
  ext ∈ all_exts →
  PyStr.path_name (cell (col_filename row)) = stem +:+ ext →
  row_file_id row = if PyStr.nonempty stem then Some stem else None.
Proof.
  intros Hin Hbase. unfold row_file_id.
  destruct (cell (col_filename row)) as [|c s] eqn:E.
  - apply (f_equal String.length) in Hbase. rewrite str_length_app in Hbase.
    assert (String.length ext ≠ 0%nat); [|simpl in Hbase; lia].
    unfold all_exts, double_exts, single_exts in Hin. simpl in Hin.
    repeat (apply elem_of_cons in Hin as [->|Hin]); try done.
    by apply elem_of_nil in Hin.
  - cbn [PyStr.nonempty]. by rewrite Hbase, strip_all_exts.
Qed.

(** C6 (amended). The stem of a row's file name is what is left when the
    first matching extension, in the order [.fit.gz], [.gpx.gz], [.tcx.gz],
    [.fit], [.gpx], [.tcx], is removed from its base name, and an empty stem
    is not used. The record is put under the stem only if the key is absent:
    a key that is already in the index keeps its record. So when no earlier
    row claims the key, as its declared identifier or as its stem, the key
    reads the record of the first row that derives it, whatever the later
    rows are. *)
Theorem index_by_file_stem (media_base : string) :
  (∀ row stem ext, ext ∈ all_exts →
     PyStr.path_name (cell (col_filename row)) = stem +:+ ext →
     row_file_id row = if PyStr.nonempty stem then Some stem else None) ∧
  (∀ rows row k, row_kept row = true → row_file_id row = Some k →
     load_activity_metadata media_base (rows ++ [row]) !! k =
       match load_activity_metadata media_base rows !! k with
       | Some present => Some present
       | None => Some (row_meta media_base row)
       end) ∧
  (∀ pre r1 post k, row_kept r1 = true → row_file_id r1 = Some k →
     (∀ r, r ∈ pre → k ∉ row_keys r) →
     load_activity_metadata media_base (pre ++ r1 :: post) !! k =
       Some (row_meta media_base r1)).
Proof.
  split; [|split].
  - apply row_file_id_strips.
  - intros rows row k Hkept Hk. unfold load_activity_metadata.
    rewrite fold_left_app. simpl. rewrite lookup_index_row.
    destruct (fold_left _ rows ∅ !! k); [done|].
    unfold claims, row_keys. rewrite Hkept, Hk. simpl.
    rewrite bool_decide_eq_true_2; [done|]. right. by left.
  - intros pre r1 post k Hkept Hk Hpre.
    rewrite lookup_index. apply first_claim_at; [done|].
    unfold row_keys. rewrite Hkept, Hk. simpl. right. by left.
Qed.

Lemma index_by_file_stem_witness :
  row_file_id (csv_row "1" "one" "export/42.fit.gz") = Some "42" ∧
  load_activity_metadata "." ([csv_row "42" "own" ""] ++ [csv_row "1" "one" "42.fit"]) !! "42"
    = Some (row_meta "." (csv_row "42" "own" "")) ∧
  load_activity_metadata "."
    ([csv_row "7" "seven" ""] ++ csv_row "1" "one" "42.fit" :: [csv_row "2" "two" "42.gpx"]) !! "42"
    = Some (row_meta "." (csv_row "1" "one" "42.fit")).
Proof.
  destruct (index_by_file_stem ".") as (H1 & H2 & H3).
  split; [|split].
  - apply (H1 _ "42" ".fit.gz"); [|reflexivity].
    unfold all_exts, double_exts. by left.
  - by rewrite (H2 [csv_row "42" "own" ""] (csv_row "1" "one" "42.fit") "42").
  - apply H3; [reflexivity|reflexivity|].
    intros r ->%list_elem_of_singleton. vm_compute.
    intros [?|?%elem_of_nil]%elem_of_cons; done.
Defined.

(** C6, as stated, fails: the rows [1] and [2] both derive the stem [42],
    yet the key [42] reads neither the record of row [1] nor that of row
    [2], but the record of the row that declares [42], which comes before
    them and has no file name. *)
Lemma stem_key_not_first_deriving_row :
  let r7 := csv_row "7" "seven" "7.fit.gz" in
  let r42 := csv_row "42" "own" "" in
  let r1 := csv_row "1" "one" "42.fit" in
  let r2 := csv_row "2" "two" "42.fit.gz" in
  row_file_id r7 = Some "7" ∧
  row_file_id r42 = None ∧
  row_file_id r1 = Some "42" ∧
  row_file_id r2 = Some "42" ∧
  load_activity_metadata "." [r7; r42; r1; r2] !! "42" = Some (row_meta "." r42) ∧
  load_activity_metadata "." [r7; r42; r1; r2] !! "42" ≠ Some (row_meta "." r1).
Proof. vm_compute. repeat split; done. Qed.

(** ** C7: indexing by declared identifier *)

(** C7 (amended). Every declared identifier is a key of the index, and a key
    reads the record of the first row that claims it, as its declared
    identifier or as the stem of its file name: the identifier too is put in
    only if absent. So the identifier of a row reads that row's record when
    no earlier row claims it. *)
Theorem index_by_declared_id (media_base : string) :
  (∀ rows k, load_activity_metadata media_base rows !! k
             = first_claim media_base rows k) ∧
  (∀ rows row, row ∈ rows → row_kept row = true →
     is_Some (load_activity_metadata media_base rows !! cell (col_activity_id row))) ∧
  (∀ pre row post, row_kept row = true →
     (∀ r, r ∈ pre → cell (col_activity_id row) ∉ row_keys r) →
     load_activity_metadata media_base (pre ++ row :: post) !! cell (col_activity_id row)
       = Some (row_meta media_base row)).
Proof.
  split; [|split].
  - apply lookup_index.
  - intros rows row Hin Hkept. rewrite lookup_index. unfold first_claim.
    destruct (List.find _ rows) as [r|] eqn:E; [by eexists|].
    apply list_elem_of_In in Hin.
    apply (List.find_none _ _ E) in Hin. unfold claims, row_keys in Hin.
    rewrite Hkept in Hin. apply bool_decide_eq_false in Hin.
    exfalso. apply Hin. by left.
  - intros pre row post Hkept Hpre. rewrite lookup_index.
    apply first_claim_at; [done|]. unfold row_keys. rewrite Hkept. by left.
Qed.

Lemma index_by_declared_id_witness :
  is_Some (load_activity_metadata "." [csv_row "1" "one" "2.fit"; csv_row "2" "two" ""] !! "2") ∧
  load_activity_metadata "." ([csv_row "1" "one" "1.fit"] ++ csv_row "2" "two" "" :: []) !! "2"
    = Some (row_meta "." (csv_row "2" "two" "")).
Proof.
  destruct (index_by_declared_id ".") as (_ & H2 & H3). split.
  - apply (H2 _ (csv_row "2" "two" "")); [|reflexivity]. right. by left.
  - apply (H3 _ (csv_row "2" "two" "")); [reflexivity|].
    intros r ->%list_elem_of_singleton. vm_compute.
    intros [?|[?|?%elem_of_nil]%elem_of_cons]%elem_of_cons; done.
Defined.

(** C7, as stated, fails: the second row declares [2], but the key [2] was
    taken by the stem of the first row's file name and reads the first
    row's record. *)
Lemma declared_id_reads_other_record :
  let r1 := csv_row "1" "one" "2.fit" in
  let r2 := csv_row "2" "two" "" in
  row_kept r2 = true ∧
  cell (col_activity_id r2) = "2" ∧
  load_activity_metadata "." [r1; r2] !! "2" = Some (row_meta "." r1) ∧
  load_activity_metadata "." [r1; r2] !! "2" ≠ Some (row_meta "." r2).
Proof. vm_compute. repeat split; done. Qed.

(** ** One poll tick *)

Section Ticks.

Lemma no_task_yet_continue (r : reply) :
  no_task_yet r = true → examine_reply r = Ret None.
Proof.
  destruct r as [|status [data|]]; simpl; try done.
  - destruct (status =? 200); simpl; [|done].
    destruct data as [| | | | |doc]; try done.
    intros H. unfold examine_status, get, get_or. simpl.
    unfold por. destruct (truthy (default JNull (assoc "queued_tasks" doc))); done.
  - by destruct (status =? 200).
Qed.

(** With a first task in the reply, what the tick does depends on the
    fields of that task only. *)
Lemma examine_first_task (r : reply) (task : list (string * json)) :
  first_task r = Some task →
  examine_reply r =
    if eq_str (response_code task) "success" then
      a <~ Ret (default (JArr []) (assoc "associated_objects" task)) ;;
      objs <~ iter a ;;
      find_trip objs
    else if eq_str (response_code task) "duplicate" then Ret (Some (JNum DUPLICATE_TRIP))
    else if eq_str (response_code task) "error" || eq_str (response_code task) "failed"
    then Ret (Some JNull)
    else Ret None.
Proof.
  unfold first_task. destruct r as [|status [[| | | | |doc]|]]; try done.
  destruct (status =? 200) eqn:Es; [|done].
  destruct (assoc "queued_tasks" doc) as [[| | | |[|[| | | | |t] rest]|]|] eqn:Eq; try done.
  intros [= <-]. simpl. rewrite Es. simpl.
  unfold examine_status, get, get_or. simpl. rewrite Eq. simpl.
  reflexivity.
Qed.

Lemma find_trip_none (objs : list json) :
  forallb (λ o, entry_ok o && bool_decide (trip_entry_id o = None)) objs = true →
  find_trip objs = Ret None.
Proof.
  induction objs as [|obj objs IH]; [done|].
  cbn [forallb]. intros [[Hok Hid]%andb_true_iff Hrest]%andb_true_iff.
  apply bool_decide_eq_true in Hid. specialize (IH Hrest). clear Hrest.
  destruct obj as [| | | | |fields]; try done.
  unfold entry_ok in Hok. unfold trip_entry_id in Hid.
  cbn [find_trip]. unfold get, get_or. cbn [obind].
  destruct (eq_str (default JNull (assoc "type" fields)) "trip"); [|done].
  destruct (assoc "trip" fields) as [t|]; [|done].
  unfold por. cbn [from_option id]. destruct (truthy t) eqn:Et.
  - destruct t as [| | | | |trip]; try (simpl in Hok; discriminate Hok).
    cbn [obind]. destruct (assoc "id" trip) as [trip_id|]; [|done].
    cbn [from_option id]. by destruct (truthy trip_id).
  - done.
Qed.


Lemma still_processing_continue (r : reply) :
  still_processing r = true → examine_reply r = Ret None.
Proof.
  unfold still_processing. intros [H|H]%orb_true_iff.
  - by apply no_task_yet_continue.
  - destruct (first_task r) as [task|] eqn:E; [|done].
    rewrite (examine_first_task _ _ E). unfold terminal_code in H.
    apply negb_true_iff in H.
    destruct (eq_str (response_code task) "success"); [done|].
    destruct (eq_str (response_code task) "duplicate"); [done|].
    destruct (eq_str (response_code task) "error"); [done|].
    by destruct (eq_str (response_code task) "failed").
Qed.

Lemma success_pending_continue (r : reply) :
  success_pending r = true → examine_reply r = Ret None.
Proof.
  unfold success_pending. destruct (first_task r) as [task|] eqn:E; [|done].
  intros [Hcode H]%andb_true_iff. rewrite (examine_first_task _ _ E), Hcode.
  unfold associated_objects in H.
  destruct (assoc "associated_objects" task) as [[| | | |objs|]|]; try done.
  simpl. by apply find_trip_none.
Qed.

Lemma keeps_polling_continue (r : reply) :
  keeps_polling r = true → examine_reply r = Ret None.
Proof.
  intros [H|H]%orb_true_iff;
    [by apply still_processing_continue|by apply success_pending_continue].
Qed.



End Ticks.

(** ** The polling loop *)

Section Polling.

Variable cfg : Config.
Hypothesis live : dry_run cfg = false.

Lemma mask_token_ok (st : State) :
  token_maskable cfg st = true → mask_token cfg st = Some (Ret tt, st).
Proof.
  unfold token_maskable, mask_token, bind, get_token. intros H.
  destruct (poll_debug cfg); [|done].
  destruct (truthy (auth_token st)); [|done].
  by destruct (is_str (auth_token st)).
Qed.

Lemma poll_tick_deadline (n : nat) (deadline : Z) (task_id : json) (interval : Z)
    (st : State) (t : Z) (cl : list Z) :
  clock st = t :: cl → deadline ≤ t →
  poll_loop cfg (S n) deadline task_id (auth_token st) interval st
    = Some (Ret JNull, with_clock cl st).
Proof.
  intros Hc Ht. cbn [poll_loop]. unfold bind at 1. unfold now. rewrite Hc.
  by rewrite (proj2 (Z.ltb_ge t deadline)).
Qed.

Lemma poll_tick_return (n : nat) (deadline : Z) (task_id : json) (interval : Z)
    (st : State) (t : Z) (cl : list Z) (r : reply) (rs : list reply) (v : json) :
  token_maskable cfg st = true →
  clock st = t :: cl → t < deadline →
  replies st = r :: rs → examine_reply r = Ret (Some v) →
  poll_loop cfg (S n) deadline task_id (auth_token st) interval st
    = Some (Ret v, sent (GetStatus task_id (auth_token st)) rs (with_clock cl st)).
Proof.
  intros Hm Hc Ht Hr Hv. cbn [poll_loop]. unfold bind at 1. unfold now. rewrite Hc.
  rewrite (proj2 (Z.ltb_lt t deadline)) by done. rewrite live.
  unfold bind at 1. rewrite mask_token_ok by done.
  unfold bind, get_token, send, lift. simpl. rewrite Hr, Hv. done.
Qed.

Lemma poll_tick_continue (n : nat) (deadline : Z) (task_id : json) (interval : Z)
    (st : State) (t : Z) (cl : list Z) (r : reply) (rs : list reply) :
  token_maskable cfg st = true → 0 ≤ interval →
  clock st = t :: cl → t < deadline →
  replies st = r :: rs → examine_reply r = Ret None →
  poll_loop cfg (S n) deadline task_id (auth_token st) interval st
    = poll_loop cfg n deadline task_id (auth_token st) interval
        (polled task_id interval 1 cl rs st).
Proof.
  intros Hm Hi Hc Ht Hr Hv. cbn [poll_loop]. unfold bind at 1. unfold now. rewrite Hc.
  rewrite (proj2 (Z.ltb_lt t deadline)) by done. rewrite live.
  unfold bind at 1. rewrite mask_token_ok by done.
  unfold bind, get_token, send, lift, sleep. simpl. rewrite Hr, Hv.
  rewrite (proj2 (Z.ltb_ge interval 0)) by done. unfold emit, polled. simpl.
  by rewrite <- app_assoc.
Qed.

Lemma polled_polled (task_id : json) (interval : Z) (k : nat)
    (cl cl' : list Z) (rs rs' : list reply) (st : State) :
  polled task_id interval k cl' rs' (polled task_id interval 1 cl rs st)
    = polled task_id interval (S k) cl' rs' st.
Proof. unfold polled. simpl. by rewrite <- app_assoc. Qed.

Lemma poll_ticks_continue (m : nat) (deadline : Z) (task_id : json) (interval : Z)
    (ts : list Z) :
  ∀ (rs : list reply) (st : State) (cl : list Z) (rrest : list reply),
    token_maskable cfg st = true → 0 ≤ interval →
    clock st = ts ++ cl → replies st = rs ++ rrest →
    length rs = length ts →
    Forall (λ t, t < deadline) ts →
    Forall (λ r, keeps_polling r = true) rs →
    poll_loop cfg (length ts + m) deadline task_id (auth_token st) interval st
      = poll_loop cfg m deadline task_id (auth_token st) interval
          (polled task_id interval (length ts) cl rrest st).
Proof.
  induction ts as [|t ts IH]; intros rs st cl rrest Hm Hi Hc Hr Hlen Hts Hrs.
  - destruct rs; [|done]. simpl in *. f_equal. unfold polled. simpl.
    rewrite app_nil_r, <- Hc, <- Hr. by destruct st.
  - destruct rs as [|r rs]; [done|]. simpl in Hlen, Hc, Hr.
    apply Forall_cons in Hts as [Ht Hts]. apply Forall_cons in Hrs as [Hk Hrs].
    cbn [length Nat.add].
    etransitivity;
      [apply (poll_tick_continue _ _ _ _ st t (ts ++ cl) r (rs ++ rrest));
         auto using keeps_polling_continue|].
    etransitivity;
      [apply (IH rs (polled task_id interval 1 (ts ++ cl) (rs ++ rrest) st) cl rrest);
         [done..|lia|done|done]|].
    by rewrite polled_polled.
Qed.


(** The poll of a task whose replies keep it polling until one makes the
    loop return [v], all before the deadline. *)
Lemma poll_returns (task_id : json) (interval timeout : Z) (st : State)
    (t0 : Z) (ts : list Z) (t : Z) (crest : list Z)
    (rs : list reply) (r : reply) (rrest : list reply) (v : json) :
  token_maskable cfg st = true → 0 ≤ interval →
  clock st = t0 :: ts ++ t :: crest →
  replies st = rs ++ r :: rrest → length rs = length ts →
  Forall (λ t, t < t0 + timeout) ts → t < t0 + timeout →
  Forall (λ r, keeps_polling r = true) rs →
  examine_reply r = Ret (Some v) →
  poll_task_for_trip cfg task_id interval timeout st
    = Some (Ret v, sent (GetStatus task_id (auth_token st)) rrest
                     (polled task_id interval (length ts) crest rrest st)).
Proof.
  intros Hm Hi Hc Hr Hlen Hts Ht Hrs Hv.
  unfold poll_task_for_trip, bind, now, readings_left. rewrite Hc. simpl.
  rewrite length_app. cbn [length].
  etransitivity;
    [apply (poll_ticks_continue _ _ _ _ ts rs
              (with_clock (ts ++ t :: crest) st) (t :: crest) (r :: rrest)); auto|].
  etransitivity;
    [by apply (poll_tick_return _ _ _ _
                 (polled task_id interval (length ts) (t :: crest) (r :: rrest)
                    (with_clock (ts ++ t :: crest) st)) t crest r rrest v)|].
  reflexivity.
Qed.

End Polling.

(** ** Computations that touch nothing but the token *)

Section QuietFacts.

Lemma quiet_refl (st : State) : quiet st st.
Proof. by repeat split. Qed.

Lemma quiet_trans (st1 st2 st3 : State) :
  quiet st1 st2 → quiet st2 st3 → quiet st1 st3.
Proof. unfold quiet. intros (?&?&?&?) (?&?&?&?). repeat split; congruence. Qed.

Lemma Quiet_ret {A} (a : A) : Quiet (ret a).
Proof. intros st. eauto using quiet_refl. Qed.

Lemma Quiet_raise {A} (e : exn) : Quiet (@raise A e).
Proof. intros st. eauto using quiet_refl. Qed.

Lemma Quiet_lift {A} (o : outcome A) : Quiet (lift o).
Proof. intros st. eauto using quiet_refl. Qed.

Lemma Quiet_get_token : Quiet get_token.
Proof. intros st. eauto using quiet_refl. Qed.

Lemma Quiet_read_log : Quiet read_log.
Proof. intros st. eauto using quiet_refl. Qed.

Lemma Quiet_set_token (t : json) : Quiet (set_token t).
Proof. intros st. do 2 eexists. split; [reflexivity|]. by repeat split. Qed.

Lemma Quiet_bind {A B} (m : M A) (k : A → M B) :
  Quiet m → (∀ a, Quiet (k a)) → Quiet (bind m k).
Proof.
  intros Hm Hk st. unfold bind.
  destruct (Hm st) as (o & st' & -> & Hq). destruct o as [a|e].
  - destruct (Hk a st') as (o' & st'' & -> & Hq').
    eauto using quiet_trans.
  - eauto.
Qed.

Lemma Quiet_try_except {A} (m : M A) (h : exn → M A) :
  Quiet m → (∀ e, Quiet (h e)) → Quiet (try_except m h).
Proof.
  intros Hm Hh st. unfold try_except.
  destruct (Hm st) as (o & st' & -> & Hq). destruct o as [a|e].
  - eauto.
  - destruct (Hh e st') as (o' & st'' & -> & Hq').
    eauto using quiet_trans.
Qed.

End QuietFacts.

Create HintDb quiet.

#[local] Hint Resolve Quiet_ret Quiet_raise Quiet_lift Quiet_get_token
  Quiet_set_token Quiet_read_log : quiet.

Ltac quiet_step :=
  match goal with
  | |- Quiet (bind _ _) => apply Quiet_bind; [|intros ?]
  | |- Quiet (try_except _ _) => apply Quiet_try_except; [|intros ?]
  | |- Quiet (if ?b then _ else _) => destruct b
  | |- Quiet (match ?x with _ => _ end) => destruct x
  | |- Quiet _ => solve [auto with quiet]
  end.

(** ** Dry run *)

Section DryRun.

Variable cfg : Config.
Hypothesis dry : dry_run cfg = true.

Lemma ensure_auth_dry : Quiet (ensure_auth cfg).
Proof. unfold ensure_auth. rewrite dry. repeat quiet_step. Qed.

Lemma upload_trip_from_file_dry (fname name description : string)
    (poll : bool) (interval timeout : Z) :
  Quiet (upload_trip_from_file cfg fname name description poll interval timeout).
Proof.
  unfold upload_trip_from_file. rewrite dry.
  apply Quiet_bind; [apply ensure_auth_dry|intros _]. repeat quiet_step.
Qed.

Lemma upload_photo_dry (trip_id : json) (photo_path : string) :
  Quiet (upload_photo cfg trip_id photo_path).
Proof.
  unfold upload_photo. rewrite dry.
  apply Quiet_bind; [auto with quiet|intros found].
  destruct (negb found); [auto with quiet|].
  apply Quiet_bind; [apply ensure_auth_dry|intros _]. repeat quiet_step.
Qed.

Lemma upload_photos_dry (trip_id : json) (media_list : list string) (success : nat) :
  Quiet (upload_photos cfg trip_id media_list success).
Proof.
  revert success. induction media_list as [|m rest IH]; intros success; simpl.
  - auto with quiet.
  - apply Quiet_bind; [|intros ok; apply IH].
    apply Quiet_try_except; [apply upload_photo_dry|auto with quiet].
Qed.

Lemma upload_media_for_trip_dry (trip_id : json) (media_files : list string) :
  Quiet (upload_media_for_trip cfg trip_id media_files).
Proof.
  unfold upload_media_for_trip. destruct media_files as [|m rest]; [auto with quiet|].
  apply Quiet_bind; [apply upload_photos_dry|auto with quiet].
Qed.

Lemma process_file_dry (activity_meta : gmap string ActivityMeta)
    (target_ids : option (gset string)) (already_uploaded : gset string)
    (fname : string) (c : Counts) :
  Quiet (process_file cfg activity_meta target_ids already_uploaded fname c).
Proof.
  unfold process_file. rewrite dry. cbn [negb andb].
  destruct (filtered_out _ _); [auto with quiet|].
  destruct (_ && _); [auto with quiet|].
  destruct (activity_meta !! _) as [meta|]; [|auto with quiet].
  apply Quiet_bind.
  - apply Quiet_try_except; [|auto with quiet].
    apply Quiet_bind; [apply upload_trip_from_file_dry|auto with quiet].
  - intros [trip_id|]; [|auto with quiet].
    destruct (eq_int trip_id DUPLICATE_TRIP); [repeat quiet_step|].
    destruct (negb _); [|auto with quiet].
    apply Quiet_bind; [auto with quiet|intros media].
    apply Quiet_bind; [apply upload_media_for_trip_dry|intros _].
    repeat quiet_step.
Qed.

Lemma process_files_dry (activity_meta : gmap string ActivityMeta)
    (target_ids : option (gset string)) (already_uploaded : gset string)
    (files : list string) (c : Counts) :
  Quiet (process_files cfg activity_meta target_ids already_uploaded files c).
Proof.
  revert c. induction files as [|fname rest IH]; intros c; simpl.
  - auto with quiet.
  - apply Quiet_bind; [apply process_file_dry|intros c'; apply IH].
Qed.

(** A poll in a dry run reads the clock twice and returns at once. *)
Lemma poll_task_for_trip_dry (task_id : json) (interval timeout : Z) (st : State) :
  poll_task_for_trip cfg task_id interval timeout st =
    match clock st with
    | t0 :: t :: cl =>
        Some (Ret (if t <? t0 + timeout then JNum (-1) else JNull), with_clock cl st)
    | _ => None
    end.
Proof.
  unfold poll_task_for_trip, bind, now, readings_left, get_token.
  destruct (clock st) as [|t0 [|t cl]] eqn:E; [done..|].
  cbn [clock length poll_loop]. unfold bind, now. cbn [clock]. rewrite dry.
  by destruct (t <? t0 + timeout).
Qed.

Lemma main_dry (csv : outcome (list CsvRow)) (listing : list string) :
  Quiet (main cfg csv listing).
Proof.
  unfold main. destruct (negb _); [auto with quiet|].
  apply Quiet_bind; [auto with quiet|intros rows].
  apply Quiet_bind; [auto with quiet|intros log].
  destruct (discover_activity_files listing) eqn:E; [auto with quiet|].
  apply Quiet_bind; [apply process_files_dry|auto with quiet].
Qed.

End DryRun.

(** ** Authentication and trip submission *)

Section Submission.

Variable cfg : Config.

Lemma ensure_auth_held (st : State) :
  truthy (auth_token st) = true → ensure_auth cfg st = Some (Ret tt, st).
Proof. intros H. unfold ensure_auth, bind, get_token. by rewrite H. Qed.

(** A successful authentication leaves a token, writes nothing to the log
    and sends at most the authentication request. *)
Lemma ensure_auth_ok (st st0 : State) :
  ensure_auth cfg st = Some (Ret tt, st0) →
  truthy (auth_token st0) = true ∧
  uploaded_log st0 = uploaded_log st ∧
  ∃ new, events st0 = events st ++ new ∧
         Forall (λ e, is_photo_post e = false) new.
Proof.
  unfold ensure_auth, bind, get_token.
  destruct (truthy (auth_token st)) eqn:Et.
  { intros [= <-]. repeat split; [done|]. exists []. by rewrite app_nil_r. }
  destruct (negb _); [done|].
  destruct (dry_run cfg).
  { intros [= <-]. repeat split. exists []. by rewrite app_nil_r. }
  unfold send. destruct (replies st) as [|r rs]; [done|].
  destruct r as [|status body]; [done|].
  destruct (negb (status =? 200)); [done|].
  destruct body as [data|]; [|done].
  unfold lift. destruct (get_or data "user" (JObj [])) as [user|]; [|done].
  destruct (get user "auth_token") as [tok|]; [|done].
  unfold set_token. cbn [auth_token events uploaded_log].
  destruct (truthy tok) eqn:Etok; [|done].
  intros [= <-]. cbn [auth_token events uploaded_log]. repeat split; [done|].
  eexists. split; [done|]. by repeat constructor.
Qed.

(** A failed authentication raises after one request, and leaves no
    token. *)
Lemma ensure_auth_fails (st : State) (r : reply) (rs : list reply) :
  dry_run cfg = false →
  truthy (auth_token st) = false →
  is_set (email cfg) && is_set (password cfg) = true →
  replies st = r :: rs → auth_failure r = true →
  ∃ e st',
    ensure_auth cfg st = Some (Raise e, st') ∧
    truthy (auth_token st') = false ∧
    replies st' = rs ∧ clock st' = clock st ∧
    uploaded_log st' = uploaded_log st ∧
    events st' = events st
                 ++ [Net (GetAuth (default "" (email cfg)) (default "" (password cfg)))].
Proof.
  intros Hlive Ht Hcred Hr Hf. unfold ensure_auth, bind, get_token.
  rewrite Ht, Hcred, Hlive. cbn [negb]. unfold send. rewrite Hr.
  destruct r as [|status body]; [done|]. unfold auth_failure in Hf.
  destruct (negb (status =? 200)) eqn:Es.
  { do 2 eexists. split; [done|]. by repeat split. }
  cbn [orb] in Hf. destruct body as [[| | | | |doc]|]; try done.
  unfold lift, get_or. cbn [from_option id].
  destruct (default (JObj []) (assoc "user" doc)) as [| | | | |user]; try done.
  unfold get, get_or, set_token.
  cbn [auth_token clock replies events uploaded_log].
  apply negb_true_iff in Hf. rewrite Hf. cbn [negb].
  do 2 eexists. split; [done|]. by repeat split.
Qed.

(** Once authenticated, a file that reads and a submission that is
    accepted with a task identifier lead to the poll of that task. *)
Lemma upload_reaches_poll (fname name description : string) (interval timeout : Z)
    (st st0 : State) (status : Z) (doc : list (string * json)) (task_id : json)
    (rs : list reply) :
  dry_run cfg = false →
  ensure_auth cfg st = Some (Ret tt, st0) →
  file_ok cfg fname = true →
  replies st0 = Response status (Some (JObj doc)) :: rs →
  ok_status status = true →
  assoc "task_id" doc = Some task_id → truthy task_id = true →
  upload_trip_from_file cfg fname name description true interval timeout st
    = poll_task_for_trip cfg task_id interval timeout
        (sent (PostTrip (send_name fname) name description (auth_token st0)) rs st0).
Proof.
  intros Hlive Hauth Hfile Hr Hok Hid Ht.
  unfold upload_trip_from_file. unfold bind at 1. rewrite Hauth.
  unfold bind at 1. unfold get_token at 1. rewrite Hfile, Hlive. cbn [negb].
  unfold bind at 1. unfold send. rewrite Hr, Hok. cbn [negb].
  unfold bind at 1. unfold lift, is_dict, get, get_or. rewrite Hid.
  cbn [from_option id]. rewrite Ht. reflexivity.
Qed.

End Submission.

(** ** One turn of the loop of [main] *)

Section Turn.

Variable cfg : Config.
Variable activity_meta : gmap string ActivityMeta.
Variable target_ids : option (gset string).
Variable already_uploaded : gset string.

Lemma ledger_gate_open (fname : string) (meta : ActivityMeta) :
  due cfg activity_meta target_ids already_uploaded fname meta →
  negb (force cfg)
  && bool_decide (infer_activity_id_from_filename fname ∈ already_uploaded) = false.
Proof.
  intros (_ & [->|Hnot] & _); [done|].
  rewrite bool_decide_eq_false_2 by done. by destruct (force cfg).
Qed.

Lemma turn_upload_raises (fname : string) (meta : ActivityMeta) (c : Counts)
    (st st1 : State) (e : exn) :
  due cfg activity_meta target_ids already_uploaded fname meta →
  upload_trip_from_file cfg fname (name meta) (description meta) true
    (poll_interval cfg) (poll_timeout cfg) st
  = Some (Raise e, st1) →
  process_file cfg activity_meta target_ids already_uploaded fname c st = Some (Ret (add_error c), st1).
Proof.
  intros Hdue Hup. pose proof (ledger_gate_open _ _ Hdue) as Hgate.
  destruct Hdue as (Hf & _ & Hm). unfold process_file.
  rewrite Hf, Hgate, Hm. unfold bind, try_except. by rewrite Hup.
Qed.

Lemma turn_upload_none (fname : string) (meta : ActivityMeta) (c : Counts)
    (st st1 : State) :
  due cfg activity_meta target_ids already_uploaded fname meta →
  upload_trip_from_file cfg fname (name meta) (description meta) true
    (poll_interval cfg) (poll_timeout cfg) st
  = Some (Ret JNull, st1) →
  process_file cfg activity_meta target_ids already_uploaded fname c st = Some (Ret (add_error c), st1).
Proof.
  intros Hdue Hup. pose proof (ledger_gate_open _ _ Hdue) as Hgate.
  destruct Hdue as (Hf & _ & Hm). unfold process_file.
  rewrite Hf, Hgate, Hm. unfold bind, try_except. by rewrite Hup.
Qed.


End Turn.

(** ** C1: a file that is already in the ledger *)

(** C1 (amended). Without [--force], a file whose identifier was in the
    uploaded ledger at startup leaves the state as it is: no request is
    sent, nothing is read from the network and the ledger file is not
    written. It adds one to the skipped count when the allow-list lets it
    through; a file that an active allow-list excludes is passed over
    before the ledger is looked at, and is not counted. *)
Theorem ledger_hit_is_skipped (cfg : Config)
    (activity_meta : gmap string ActivityMeta)
    (target_ids : option (gset string)) (already_uploaded : gset string)
    (fname : string) (c : Counts) (st : State) :
  force cfg = false →
  infer_activity_id_from_filename fname ∈ already_uploaded →
  process_file cfg activity_meta target_ids already_uploaded fname c st
    = Some (Ret (if filtered_out target_ids (infer_activity_id_from_filename fname)
                 then c
                 else {| successes := successes c;
                         skipped := S (skipped c);
                         errors := errors c |}),
            st).
Proof.
  intros Hforce Hin. unfold process_file.
  destruct (filtered_out _ _); [done|].
  by rewrite Hforce, bool_decide_eq_true_2.
Qed.

Lemma ledger_hit_is_skipped_witness :
  process_file (sample_cfg None false) ∅ None {["42"]} "42.fit.gz" no_counts
      (start JNull [] [] ["42"])
    = Some (Ret {| successes := 0; skipped := 1; errors := 0 |},
            start JNull [] [] ["42"]).
Proof.
  apply (ledger_hit_is_skipped (sample_cfg None false) ∅ None {["42"]} "42.fit.gz").
  - reflexivity.
  - by apply elem_of_singleton.
Defined.

(** C1, as stated, fails: with [--only 7] the file [42.fit], whose
    identifier is in the ledger, ends the run with a skipped count of 0. *)
Lemma ledger_hit_outside_allow_list_uncounted :
  let cfg := sample_cfg (Some "7") false in
  let st := start JNull [] [] ["42"] in
  force cfg = false ∧
  (infer_activity_id_from_filename "42.fit"
     ∈ load_uploaded_set (log_lines (uploaded_log st))) ∧
  main cfg (Ret [csv_row "42" "Morning ride" "42.fit.gz"]) ["42.fit"] st
    = Some (Ret (Some {| successes := 0; skipped := 0; errors := 0 |}, 0), st).
Proof.
  split; [done|]. split; [|by vm_compute].
  apply elem_of_list_to_set. by left.
Qed.

(** ** C10: the empty identifier *)

(** C10 (amended). The index never has the empty string as a key. So a file
    whose name is just a known extension, whose identifier is therefore
    empty, and which is not in the ledger, sends nothing; it is counted as
    skipped, except under an active allow-list, which passes over it without
    counting it. *)
Theorem empty_id_is_never_indexed (media_base : string) (rows : list CsvRow) :
  load_activity_metadata media_base rows !! "" = None ∧
  ∀ (cfg : Config) (target_ids : option (gset string))
    (already_uploaded : gset string) (fname : string) (c : Counts) (st : State),
    fname ∈ all_exts → "" ∉ already_uploaded →
    infer_activity_id_from_filename fname = "" ∧
    process_file cfg (load_activity_metadata media_base rows)
        target_ids already_uploaded fname c st
      = Some (Ret (if filtered_out target_ids "" then c
                   else {| successes := successes c;
                           skipped := S (skipped c);
                           errors := errors c |}),
              st).
Proof.
  split; [apply index_no_empty_key|].
  intros cfg target_ids already_uploaded fname c st Hext Hnot.
  assert (infer_activity_id_from_filename fname = "") as Hid.
  { unfold all_exts, double_exts, single_exts in Hext. simpl in Hext.
    repeat (apply elem_of_cons in Hext as [->|Hext]); try reflexivity.
    by apply elem_of_nil in Hext. }
  split; [done|]. unfold process_file. rewrite Hid.
  destruct (filtered_out _ _); [done|].
  rewrite bool_decide_eq_false_2 by done. rewrite andb_false_r.
  by rewrite index_no_empty_key.
Qed.

Lemma empty_id_is_never_indexed_witness :
  process_file (sample_cfg None false)
      (load_activity_metadata "." [csv_row "42" "Morning ride" ".fit.gz"])
      None ∅ ".fit.gz" no_counts (start JNull [] [] [])
    = Some (Ret {| successes := 0; skipped := 1; errors := 0 |},
            start JNull [] [] []).
Proof.
  apply (proj2 (empty_id_is_never_indexed "." [csv_row "42" "Morning ride" ".fit.gz"])
           (sample_cfg None false) None ∅ ".fit.gz").
  - unfold all_exts, double_exts. by left.
  - apply not_elem_of_empty.
Defined.

(** C10, as stated, fails: with [--only 7] the file [.fit.gz], whose
    identifier is empty and is not in the ledger, is not counted as
    skipped. *)
Lemma empty_id_outside_allow_list_uncounted :
  let cfg := sample_cfg (Some "7") false in
  let st := start JNull [] [] [] in
  discover_activity_files [".fit.gz"] = [".fit.gz"] ∧
  infer_activity_id_from_filename ".fit.gz" = "" ∧
  ("" ∉ load_uploaded_set (log_lines (uploaded_log st))) ∧
  main cfg (Ret [csv_row "7" "Evening ride" "7.fit.gz"]) [".fit.gz"] st
    = Some (Ret (Some {| successes := 0; skipped := 0; errors := 0 |}, 0), st).
Proof.
  split; [by vm_compute|]. split; [done|]. split; [|by vm_compute].
  apply not_elem_of_empty.
Qed.

(** ** C8: success without a trip object *)




(** ** C2 and C3: what the loop makes of the outcome of the poll *)






(** ** C9: a failed authentication *)

(** C9 (amended). A failed authentication, by a status other than 200 or by
    a response whose token field is missing or empty, costs the file being
    processed: one request is sent, no trip is submitted, the ledger file is
    left alone and the file is counted as one error. The run is not stopped:
    the loop goes on with the remaining files, from a state that still has
    no token, so the next file authenticates again. *)
Theorem auth_failure_is_one_error (cfg : Config)
    (activity_meta : gmap string ActivityMeta)
    (target_ids : option (gset string)) (already_uploaded : gset string)
    (fname : string) (meta : ActivityMeta) (c : Counts)
    (st : State) (r : reply) (rs : list reply) :
  due cfg activity_meta target_ids already_uploaded fname meta →
  dry_run cfg = false →
  truthy (auth_token st) = false →
  is_set (email cfg) && is_set (password cfg) = true →
  replies st = r :: rs → auth_failure r = true →
  ∃ st',
    process_file cfg activity_meta target_ids already_uploaded fname c st
      = Some (Ret {| successes := successes c;
                     skipped := skipped c;
                     errors := S (errors c) |}, st') ∧
    events st' = events st
                 ++ [Net (GetAuth (default "" (email cfg)) (default "" (password cfg)))] ∧
    uploaded_log st' = uploaded_log st ∧
    replies st' = rs ∧
    truthy (auth_token st') = false ∧
    ∀ rest,
      process_files cfg activity_meta target_ids already_uploaded (fname :: rest) c st
        = process_files cfg activity_meta target_ids already_uploaded rest
            {| successes := successes c; skipped := skipped c; errors := S (errors c) |}
            st'.
Proof.
  intros Hdue Hlive Htok Hcred Hr Hf.
  destruct (ensure_auth_fails cfg st r rs Hlive Htok Hcred Hr Hf)
    as (e & st' & Hauth & Htok' & Hrs & _ & Hlog & Hev).
  assert (process_file cfg activity_meta target_ids already_uploaded fname c st
            = Some (Ret (add_error c), st')) as Hturn.
  { apply (turn_upload_raises _ _ _ _ _ meta _ _ _ e); [done|].
    unfold upload_trip_from_file. unfold bind at 1. by rewrite Hauth. }
  exists st'. repeat split; try done.
  intros rest. cbn [process_files]. unfold bind at 1. by rewrite Hturn.
Qed.

Lemma auth_failure_is_one_error_witness :
  ∃ st',
    process_file (sample_cfg None false)
        (load_activity_metadata "." [csv_row "42" "Morning ride" "42.fit.gz"])
        None ∅ "42.fit" no_counts
        (start JNull [] [Response 401 None; auth_granted "token"] [])
      = Some (Ret {| successes := 0; skipped := 0; errors := 1 |}, st') ∧
    replies st' = [auth_granted "token"] ∧
    uploaded_log st' = ledger_text [].
Proof.
  destruct (auth_failure_is_one_error (sample_cfg None false)
              (load_activity_metadata "." [csv_row "42" "Morning ride" "42.fit.gz"])
              None ∅ "42.fit" (row_meta "." (csv_row "42" "Morning ride" "42.fit.gz"))
              no_counts
              (start JNull [] [Response 401 None; auth_granted "token"] [])
              (Response 401 None) [auth_granted "token"])
    as (st' & Hrun & _ & Hlog & Hrs & _).
  - split; [reflexivity|]. split; [right; apply not_elem_of_empty|by vm_compute].
  - reflexivity.
  - reflexivity.
  - reflexivity.
  - reflexivity.
  - reflexivity.
  - exists st'. by repeat split.
Defined.

(** C9, as stated, fails: the authentication is refused for the first file,
    and the run still uploads the second one, which ends in the ledger. *)
Lemma run_goes_on_after_auth_failure :
  let cfg := sample_cfg None false in
  let st := start JNull [1000; 1001; 1002]
              [Response 401 None; auth_granted "token"; trip_queued 7;
               status_reply "success" [trip_object 99]] [] in
  auth_failure (Response 401 None) = true ∧
  main cfg (Ret [csv_row "41" "Evening ride" "41.fit.gz";
                  csv_row "42" "Morning ride" "42.fit.gz"])
      ["41.fit"; "42.fit"] st
    = Some (Ret (Some {| successes := 1; skipped := 0; errors := 1 |}, 1),
            {| auth_token := JStr "token"; clock := [1002]; replies := [];
               events := [Net (GetAuth "rider@example.org" "secret");
                          Net (GetAuth "rider@example.org" "secret");
                          Net (PostTrip "42.fit" "Morning ride" "" (JStr "token"));
                          Net (GetStatus (JNum 7) (JStr "token"))];
               uploaded_log := ledger_text ["42"] |}).
Proof. split; [done|]. by vm_compute. Qed.

(** ** C4: dry run *)

(** C4. In a dry run, whatever the files, the metadata and the ledger are,
    the loop and the whole of [main] end without sending any request, so
    neither a trip nor a photo is submitted and no task is polled, and
    without writing to the ledger file; no reply of the network is used. The
    same holds for the calls of the client taken one by one: submitting a
    trip and attaching media end quietly, and a poll returns after two
    readings of the clock. *)
Theorem dry_run_sends_and_writes_nothing (cfg : Config) :
  dry_run cfg = true →
  (∀ activity_meta target_ids already_uploaded files c st,
     ∃ o st',
       process_files cfg activity_meta target_ids already_uploaded files c st
         = Some (o, st') ∧
       events st' = events st ∧ uploaded_log st' = uploaded_log st ∧
       replies st' = replies st) ∧
  (∀ csv listing st,
     ∃ o st',
       main cfg csv listing st = Some (o, st') ∧
       events st' = events st ∧ uploaded_log st' = uploaded_log st ∧
       replies st' = replies st) ∧
  (∀ fname name description poll interval timeout,
     Quiet (upload_trip_from_file cfg fname name description poll interval timeout)) ∧
  (∀ trip_id media_files, Quiet (upload_media_for_trip cfg trip_id media_files)) ∧
  (∀ task_id interval timeout st,
     match poll_task_for_trip cfg task_id interval timeout st with
     | Some (_, st') =>
         events st' = events st ∧ uploaded_log st' = uploaded_log st ∧
         replies st' = replies st
     | None => (length (clock st) < 2)%nat
     end).
Proof.
  intros Hdry. split; [|split; [|split; [|split]]].
  - intros activity_meta target_ids already_uploaded files c st.
    destruct (process_files_dry cfg Hdry activity_meta target_ids already_uploaded
                files c st) as (o & st' & Hrun & Hev & Hrs & _ & Hlog).
    by exists o, st'.
  - intros csv listing st.
    destruct (main_dry cfg Hdry csv listing st) as (o & st' & Hrun & Hev & Hrs & _ & Hlog).
    by exists o, st'.
  - intros. by apply upload_trip_from_file_dry.
  - intros. by apply upload_media_for_trip_dry.
  - intros task_id interval timeout st. rewrite poll_task_for_trip_dry by done.
    destruct (clock st) as [|t0 [|t cl]]; simpl; [lia|lia|done].
Qed.

Lemma dry_run_sends_and_writes_nothing_witness :
  main (sample_cfg None true)
      (Ret [csv_row "42" "Morning ride" "42.fit.gz"]) ["42.fit"; "43.gpx"]
      (start JNull [1000] [auth_granted "token"] ["41"])
    = Some (Ret (Some {| successes := 1; skipped := 1; errors := 0 |}, 0),
            start (JStr "DUMMY_TOKEN") [1000] [auth_granted "token"] ["41"]).
Proof.
  destruct (proj1 (proj2 (dry_run_sends_and_writes_nothing (sample_cfg None true) eq_refl))
              (Ret [csv_row "42" "Morning ride" "42.fit.gz"]) ["42.fit"; "43.gpx"]
              (start JNull [1000] [auth_granted "token"] ["41"]))
    as (o & st' & Hrun & _).
  rewrite Hrun. vm_compute in Hrun. by injection Hrun as <- <-.
Defined.

(** * Further properties *)

(** ** Frames *)

Section KeepsFacts.

Context {A B : Type}.
Variable R : State → State → Prop.
Hypothesis R_refl : ∀ st, R st st.
Hypothesis R_trans : ∀ st1 st2 st3, R st1 st2 → R st2 st3 → R st1 st3.

Lemma Keeps_ret (a : A) : Keeps R (ret a).
Proof. intros st o st' [= <- <-]. apply R_refl. Qed.

Lemma Keeps_raise (e : exn) : Keeps R (@raise A e).
Proof. intros st o st' [= <- <-]. apply R_refl. Qed.

Lemma Keeps_lift (o : outcome A) : Keeps R (lift o).
Proof. intros st o' st' [= <- <-]. apply R_refl. Qed.

Lemma Keeps_bind (m : M A) (k : A → M B) :
  Keeps R m → (∀ a, Keeps R (k a)) → Keeps R (bind m k).
Proof.
  intros Hm Hk st o st'. unfold bind.
  destruct (m st) as [[[a|e] st1]|] eqn:E; [|intros [= <- <-]; eauto|done].
  intros Hrun. eapply R_trans; [by eapply Hm|by eapply Hk].
Qed.

Lemma Keeps_try_except (m : M A) (h : exn → M A) :
  Keeps R m → (∀ e, Keeps R (h e)) → Keeps R (try_except m h).
Proof.
  intros Hm Hh st o st'. unfold try_except.
  destruct (m st) as [[[a|e] st1]|] eqn:E; [intros [= <- <-]; eauto| |done].
  intros Hrun. eapply R_trans; [by eapply Hm|by eapply Hh].
Qed.

End KeepsFacts.

Lemma Keeps_get_token (R : State → State → Prop) :
  (∀ st, R st st) → Keeps R get_token.
Proof. intros R_refl st o st' [= <- <-]. apply R_refl. Qed.

Lemma Keeps_readings_left (R : State → State → Prop) :
  (∀ st, R st st) → Keeps R readings_left.
Proof. intros R_refl st o st' [= <- <-]. apply R_refl. Qed.

(** The client, for any relation that its steps keep. *)
Section Frame.

Variable cfg : Config.
Variable R : State → State → Prop.
Variable allowed : request → Prop.
Hypothesis R_refl : ∀ st, R st st.
Hypothesis R_trans : ∀ st1 st2 st3, R st1 st2 → R st2 st3 → R st1 st3.
Hypothesis R_now : Keeps R now.
Hypothesis R_send : ∀ q, allowed q → Keeps R (send q).
Hypothesis R_auth : Keeps R (ensure_auth cfg).

Lemma Keeps_mask_token : Keeps R (mask_token cfg).
Proof.
  unfold mask_token. apply Keeps_bind; [done|by apply Keeps_get_token|intros tok].
  destruct (_ && _); [by apply Keeps_raise|by apply Keeps_ret].
Qed.

Lemma Keeps_poll_loop (fuel : nat) (deadline : Z) (task_id tok : json) (interval : Z) :
  allowed (GetStatus task_id tok) →
  Keeps R (sleep interval) →
  Keeps R (poll_loop cfg fuel deadline task_id tok interval).
Proof.
  intros Hq R_sleep. induction fuel as [|fuel IH]; [done|]. cbn [poll_loop].
  apply Keeps_bind; [done..|intros t].
  destruct (t <? deadline); [|by apply Keeps_ret].
  destruct (dry_run cfg); [by apply Keeps_ret|].
  apply Keeps_bind; [done|apply Keeps_mask_token|intros _].
  apply Keeps_bind; [done|by apply R_send|intros r].
  apply Keeps_bind; [done|by apply Keeps_lift|intros [v|]].
  - by apply Keeps_ret.
  - by apply Keeps_bind.
Qed.

Lemma Keeps_poll_task_for_trip (task_id : json) (interval timeout : Z) :
  (∀ tok, allowed (GetStatus task_id tok)) →
  Keeps R (sleep interval) →
  Keeps R (poll_task_for_trip cfg task_id interval timeout).
Proof.
  intros Hq R_sleep. unfold poll_task_for_trip.
  apply Keeps_bind; [done..|intros t0].
  apply Keeps_bind; [done|by apply Keeps_get_token|intros tok].
  apply Keeps_bind; [done|by apply Keeps_readings_left|intros n].
  by apply Keeps_poll_loop.
Qed.

Lemma Keeps_upload_trip_from_file (fname name description : string)
    (poll : bool) (interval timeout : Z) :
  (∀ f n d tok, allowed (PostTrip f n d tok)) →
  (∀ task_id tok, allowed (GetStatus task_id tok)) →
  Keeps R (sleep interval) →
  Keeps R (upload_trip_from_file cfg fname name description poll interval timeout).
Proof.
  intros Hpost Hget R_sleep. unfold upload_trip_from_file.
  apply Keeps_bind; [done..|intros _].
  apply Keeps_bind; [done|by apply Keeps_get_token|intros tok].
  destruct (negb (file_ok cfg fname)); [by apply Keeps_raise|].
  destruct (dry_run cfg); [by apply Keeps_ret|].
  apply Keeps_bind; [done|by apply R_send|intros [|status body]];
    [by apply Keeps_raise|].
  destruct (negb (ok_status status)); [by apply Keeps_ret|].
  destruct body as [resp|]; [|by apply Keeps_ret].
  apply Keeps_bind; [done|by apply Keeps_lift|intros task_id].
  destruct (_ && _); [by apply Keeps_poll_task_for_trip|by apply Keeps_ret].
Qed.

Lemma Keeps_upload_photo (trip_id : json) (photo_path : string) :
  (∀ p t tok, allowed (PostPhoto p t tok)) →
  Keeps R (upload_photo cfg trip_id photo_path).
Proof.
  intros Hpost. unfold upload_photo.
  apply Keeps_bind; [done|by apply Keeps_lift|intros found].
  destruct (negb found); [by apply Keeps_ret|].
  apply Keeps_bind; [done..|intros _].
  apply Keeps_bind; [done|by apply Keeps_get_token|intros tok].
  destruct (negb (file_ok cfg photo_path)); [by apply Keeps_raise|].
  destruct (dry_run cfg); [by apply Keeps_ret|].
  apply Keeps_bind; [done|by apply R_send|intros [|status body]];
    [by apply Keeps_raise|by apply Keeps_ret].
Qed.

Lemma Keeps_upload_photos (trip_id : json) (media_list : list string) (success : nat) :
  (∀ p t tok, allowed (PostPhoto p t tok)) →
  Keeps R (upload_photos cfg trip_id media_list success).
Proof.
  intros Hpost. revert success.
  induction media_list as [|m rest IH]; intros success; cbn [upload_photos].
  - by apply Keeps_ret.
  - apply Keeps_bind; [done| |intros ok; apply IH].
    apply Keeps_try_except; [done|by apply Keeps_upload_photo|].
    intros _. by apply Keeps_ret.
Qed.

Lemma Keeps_upload_media_for_trip (trip_id : json) (media_files : list string) :
  (∀ p t tok, allowed (PostPhoto p t tok)) →
  Keeps R (upload_media_for_trip cfg trip_id media_files).
Proof.
  intros Hpost. unfold upload_media_for_trip.
  destruct media_files as [|m rest]; [by apply Keeps_ret|].
  apply Keeps_bind; [done|by apply Keeps_upload_photos|].
  intros _. by apply Keeps_ret.
Qed.

Variable activity_meta : gmap string ActivityMeta.
Variable target_ids : option (gset string).
Variable already_uploaded : gset string.

(** A turn of the loop keeps [R] when appending the identifier of a file
    that got as far as the upload, outside a dry run, keeps it. *)
Lemma Keeps_process_file (fname : string) (c : Counts) :
  (∀ f n d tok, allowed (PostTrip f n d tok)) →
  (∀ task_id tok, allowed (GetStatus task_id tok)) →
  (∀ p t tok, allowed (PostPhoto p t tok)) →
  Keeps R (sleep (poll_interval cfg)) →
  (filtered_out target_ids (infer_activity_id_from_filename fname) = false →
   negb (force cfg)
   && bool_decide (infer_activity_id_from_filename fname ∈ already_uploaded) = false →
   is_Some (activity_meta !! infer_activity_id_from_filename fname) →
   dry_run cfg = false →
   Keeps R (append_uploaded (infer_activity_id_from_filename fname))) →
  Keeps R (process_file cfg activity_meta target_ids already_uploaded fname c).
Proof.
  intros Hpost Hget Hphoto R_sleep Happ. unfold process_file.
  destruct (filtered_out _ _) eqn:Ef; [by apply Keeps_ret|].
  destruct (negb (force cfg) && _) eqn:Eg; [by apply Keeps_ret|].
  destruct (activity_meta !! _) as [meta|] eqn:Em; [|by apply Keeps_ret].
  apply Keeps_bind; [done| |].
  - apply Keeps_try_except; [done| |intros _; by apply Keeps_ret].
    apply Keeps_bind; [done|by apply Keeps_upload_trip_from_file|].
    intros v. by apply Keeps_ret.
  - intros [trip_id|]; [|by apply Keeps_ret].
    destruct (eq_int trip_id DUPLICATE_TRIP).
    + apply Keeps_bind; [done| |intros _; by apply Keeps_ret].
      destruct (dry_run cfg) eqn:Ed; [by apply Keeps_ret|]. by apply Happ.
    + destruct (negb match trip_id with JNull => true | _ => false end);
        [|by apply Keeps_ret].
      apply Keeps_bind; [done|by apply Keeps_lift|intros media].
      apply Keeps_bind; [done|by apply Keeps_upload_media_for_trip|intros _].
      apply Keeps_bind; [done| |intros _; by apply Keeps_ret].
      destruct (dry_run cfg) eqn:Ed; [by apply Keeps_ret|].
      destruct (negb (eq_int trip_id (-1))); [by apply Happ|by apply Keeps_ret].
Qed.

End Frame.

Section Relations.

Lemma grows_by_refl (P : event → Prop) (st : State) : grows_by P st st.
Proof. exists []. by rewrite app_nil_r. Qed.

Lemma grows_by_trans (P : event → Prop) (st1 st2 st3 : State) :
  grows_by P st1 st2 → grows_by P st2 st3 → grows_by P st1 st3.
Proof.
  intros (n1 & E1 & H1) (n2 & E2 & H2). exists (n1 ++ n2).
  rewrite E2, E1, <- app_assoc. split; [done|]. by apply Forall_app.
Qed.

Lemma grows_by_same (P : event → Prop) (st st' : State) :
  events st' = events st → grows_by P st st'.
Proof. intros E. exists []. by rewrite app_nil_r. Qed.

Lemma grows_by_one (P : event → Prop) (st st' : State) (e : event) :
  events st' = events st ++ [e] → P e → grows_by P st st'.
Proof. intros E He. exists [e]. split; [done|]. by repeat constructor. Qed.

Lemma ledger_grows_refl (P : string → Prop) (st : State) : ledger_grows P st st.
Proof. exists []. by rewrite str_app_nil_r. Qed.

Lemma ledger_grows_trans (P : string → Prop) (st1 st2 st3 : State) :
  ledger_grows P st1 st2 → ledger_grows P st2 st3 → ledger_grows P st1 st3.
Proof.
  intros (n1 & E1 & H1) (n2 & E2 & H2). exists (n1 ++ n2).
  rewrite E2, E1, ledger_text_app, str_app_assoc. split; [done|].
  by apply Forall_app.
Qed.

Lemma ledger_grows_same (P : string → Prop) (st st' : State) :
  uploaded_log st' = uploaded_log st → ledger_grows P st st'.
Proof. intros E. exists []. by rewrite str_app_nil_r. Qed.

Lemma ledger_grows_weaken (P Q : string → Prop) (st st' : State) :
  (∀ act_id, P act_id → Q act_id) → ledger_grows P st st' → ledger_grows Q st st'.
Proof.
  intros HPQ (ids & E & H). exists ids. split; [done|].
  eapply Forall_impl; [exact H|done].
Qed.

Lemma session_kept_refl (st : State) : session_kept st st.
Proof. intros _. split; [done|apply grows_by_refl]. Qed.

Lemma session_kept_trans (st1 st2 st3 : State) :
  session_kept st1 st2 → session_kept st2 st3 → session_kept st1 st3.
Proof.
  intros H12 H23 Ht. destruct (H12 Ht) as [E12 G12].
  destruct H23 as [E23 G23]; [by rewrite E12|].
  split; [congruence|by eapply grows_by_trans].
Qed.

End Relations.

(** The steps of the client, for these relations. *)
Section Steps.

Lemma now_keeps (R : State → State → Prop) :
  (∀ st cl, R st (with_clock cl st)) → Keeps R now.
Proof.
  intros H st o st'. unfold now. destruct (clock st); [done|].
  intros [= <- <-]. apply (H st).
Qed.

Lemma send_keeps (R : State → State → Prop) (q : request) :
  (∀ st rs, R st (sent q rs st)) → Keeps R (send q).
Proof.
  intros H st o st'. unfold send. destruct (replies st); [done|].
  intros [= <- <-]. apply (H st).
Qed.

Lemma sleep_keeps (R : State → State → Prop) (interval : Z) :
  (∀ st, R st st) →
  (∀ st st', auth_token st' = auth_token st → clock st' = clock st →
             replies st' = replies st → uploaded_log st' = uploaded_log st →
             events st' = events st ++ [Sleep interval] → R st st') →
  Keeps R (sleep interval).
Proof.
  intros Hrefl H st o st'. unfold sleep. destruct (interval <? 0).
  - intros [= <- <-]. apply Hrefl.
  - intros [= <- <-]. by apply H.
Qed.

Lemma ensure_auth_keeps_ledger (cfg : Config) (P : string → Prop) :
  Keeps (ledger_grows P) (ensure_auth cfg).
Proof.
  intros st o st'. unfold ensure_auth, bind, get_token.
  destruct (truthy (auth_token st)).
  { intros [= <- <-]. apply ledger_grows_refl. }
  destruct (negb _).
  { intros [= <- <-]. apply ledger_grows_refl. }
  destruct (dry_run cfg).
  { intros [= <- <-]. by apply ledger_grows_same. }
  unfold send. destruct (replies st) as [|[|status body] rs]; try done.
  { intros [= <- <-]. by apply ledger_grows_same. }
  destruct (negb (status =? 200)).
  { intros [= <- <-]. by apply ledger_grows_same. }
  destruct body as [data|]; [|intros [= <- <-]; by apply ledger_grows_same].
  unfold lift. destruct (get_or data "user" (JObj [])) as [user|];
    [|intros [= <- <-]; by apply ledger_grows_same].
  destruct (get user "auth_token") as [tok|];
    [|intros [= <- <-]; by apply ledger_grows_same].
  unfold set_token. destruct (negb (truthy tok));
    intros [= <- <-]; by apply ledger_grows_same.
Qed.

Lemma ensure_auth_keeps_session (cfg : Config) :
  Keeps session_kept (ensure_auth cfg).
Proof.
  intros st o st' Hrun Ht. rewrite ensure_auth_held in Hrun by done.
  injection Hrun as <- <-. split; [done|apply grows_by_refl].
Qed.

End Steps.

(** ** The ledger file only grows, by identifiers of eligible files *)

Section LedgerGrows.

Variable cfg : Config.
Variable activity_meta : gmap string ActivityMeta.
Variable target_ids : option (gset string).
Variable already_uploaded : gset string.

Lemma process_file_ledger (fname : string) (c : Counts) :
  Keeps (ledger_grows (recordable cfg activity_meta target_ids already_uploaded [fname]))
    (process_file cfg activity_meta target_ids already_uploaded fname c).
Proof.
  apply (Keeps_process_file cfg _ (λ _, True)).
  - apply ledger_grows_refl.
  - apply ledger_grows_trans.
  - apply now_keeps. intros st cl. by apply ledger_grows_same.
  - intros q _. apply send_keeps. intros st rs. by apply ledger_grows_same.
  - apply ensure_auth_keeps_ledger.
  - done.
  - done.
  - done.
  - apply sleep_keeps; [apply ledger_grows_refl|].
    intros st st' _ _ _ E _. by apply ledger_grows_same.
  - intros Hf Hg Hm Hd st o st' [= <- <-].
    exists [infer_activity_id_from_filename fname]. split; [done|].
    constructor; [|constructor]. split; [|split; [|split; [|split]]]; try done.
    + exists fname. split; [by left|done].
    + destruct (force cfg); [by left|]. right. simpl in Hg.
      by apply bool_decide_eq_false in Hg.
Qed.

Lemma process_files_ledger (files : list string) (c : Counts) :
  Keeps (ledger_grows (recordable cfg activity_meta target_ids already_uploaded files))
    (process_files cfg activity_meta target_ids already_uploaded files c).
Proof.
  revert c. induction files as [|fname rest IH]; intros c.
  - intros st o st' [= <- <-]. apply ledger_grows_refl.
  - cbn [process_files]. apply Keeps_bind; [apply ledger_grows_trans| |intros c'].
    + intros st o st' Hrun. eapply ledger_grows_weaken;
        [|by eapply process_file_ledger].
      intros act_id ((f & ->%list_elem_of_singleton & ->) & H). split; [|done].
      exists fname. split; [by left|done].
    + intros st o st' Hrun. eapply ledger_grows_weaken; [|by eapply IH].
      intros act_id ((f & Hin & ->) & H). split; [|done].
      exists f. split; [by right|done].
Qed.

End LedgerGrows.

(** X1. A run of the loop never removes or changes what the ledger file
    holds: it only writes at its end, one identifier and a line feed at a
    time, and only identifiers of files of the run that the allow-list lets
    through, that have a record and that were not in the ledger set at
    startup (unless [--force] is given), outside a dry run. *)
Theorem ledger_only_grows (cfg : Config) (activity_meta : gmap string ActivityMeta)
    (target_ids : option (gset string)) (already_uploaded : gset string)
    (files : list string) (c : Counts) (st : State)
    (o : outcome Counts) (st' : State) :
  process_files cfg activity_meta target_ids already_uploaded files c st
    = Some (o, st') →
  ∃ ids,
    uploaded_log st'
      = uploaded_log st +:+ ledger_text ids ∧
    Forall (recordable cfg activity_meta target_ids already_uploaded files) ids.
Proof. apply process_files_ledger. Qed.

Lemma ledger_only_grows_witness :
  ∃ ids,
    uploaded_log one_file_done
      = uploaded_log one_file_run +:+ ledger_text ids ∧
    Forall (recordable (sample_cfg None false) one_file_index None {["41"]} ["42.fit"])
      ids.
Proof.
  apply (ledger_only_grows (sample_cfg None false) one_file_index None {["41"]}
           ["42.fit"] no_counts one_file_run
           (Ret {| successes := 1; skipped := 0; errors := 0 |}) one_file_done).
  by vm_compute.
Defined.

(** ** A token that is held is kept *)

(** X2. Once the client holds a token, the loop never authenticates again:
    whatever the network answers, the token at the end of the run is the
    same and no authentication request was sent. *)
Theorem held_token_is_kept (cfg : Config) (activity_meta : gmap string ActivityMeta)
    (target_ids : option (gset string)) (already_uploaded : gset string)
    (files : list string) (c : Counts) (st : State)
    (o : outcome Counts) (st' : State) :
  truthy (auth_token st) = true →
  process_files cfg activity_meta target_ids already_uploaded files c st
    = Some (o, st') →
  auth_token st' = auth_token st ∧
  ∃ new, events st' = events st ++ new ∧
         Forall (λ e, is_auth_request e = false) new.
Proof.
  intros Ht Hrun.
  assert (∀ files c, Keeps session_kept
            (process_files cfg activity_meta target_ids already_uploaded files c))
    as Hkeeps; [|by apply (Hkeeps files c st o st')].
  clear. intros files. induction files as [|fname rest IH]; intros c.
  - intros st o st' [= <- <-]. apply session_kept_refl.
  - cbn [process_files].
    apply Keeps_bind; [apply session_kept_trans| |intros c'; apply IH].
    apply (Keeps_process_file cfg _ (λ q, is_auth_request (Net q) = false)).
    + apply session_kept_refl.
    + apply session_kept_trans.
    + apply now_keeps. intros st cl _. split; [done|by apply grows_by_same].
    + intros q Hq. apply send_keeps. intros st rs _.
      split; [done|]. by eapply grows_by_one.
    + apply ensure_auth_keeps_session.
    + done.
    + done.
    + done.
    + apply sleep_keeps; [apply session_kept_refl|].
      intros st st' Etok _ _ _ Eev _. split; [done|]. by eapply grows_by_one.
    + intros _ _ _ _ st o st' [= <- <-] _. split; [done|by apply grows_by_same].
Qed.

Lemma held_token_is_kept_witness :
  auth_token (with_log (ledger_text ["41"; "42"])
                (sent (GetStatus (JNum 7) (JStr "cached")) []
                   (sent (PostTrip "42.fit" "Morning ride" "" (JStr "cached")) []
                      (start (JStr "cached") [1002] [] ["41"]))))
    = JStr "cached" ∧
  ∃ new,
    [Net (PostTrip "42.fit" "Morning ride" "" (JStr "cached"));
     Net (GetStatus (JNum 7) (JStr "cached"))] = [] ++ new ∧
    Forall (λ e, is_auth_request e = false) new.
Proof.
  apply (held_token_is_kept (sample_cfg None false) one_file_index None {["41"]}
           ["42.fit"] no_counts
           (start (JStr "cached") [1000; 1001; 1002]
              [trip_queued 7; status_reply "success" [trip_object 99]] ["41"])
           (Ret {| successes := 1; skipped := 0; errors := 0 |})).
  - reflexivity.
  - by vm_compute.
Defined.

(** ** What a poll may do *)

(** The shape of a poll loop that ends: [k] ticks that sent a request and
    slept, then one tick that ended the loop, with or without a request. *)
Lemma poll_loop_shape (cfg : Config) (task_id tok : json) (interval : Z) :
  ∀ (fuel : nat) (deadline : Z) (st : State) (o : outcome json) (st' : State),
    poll_loop cfg fuel deadline task_id tok interval st = Some (o, st') →
    auth_token st' = auth_token st ∧
    uploaded_log st' = uploaded_log st ∧
    ∃ (k : nat) (asked : bool),
      events st'
        = events st
          ++ mjoin (replicate k [Net (GetStatus task_id tok); Sleep interval])
          ++ (if asked then [Net (GetStatus task_id tok)] else []) ∧
      (k + (if asked then 1 else 0) ≤ length (replies st))%nat ∧
      replies st' = drop (k + (if asked then 1 else 0)) (replies st) ∧
      (S k ≤ length (clock st))%nat ∧
      clock st' = drop (S k) (clock st).
Proof.
  induction fuel as [|fuel IH]; intros deadline st o st'; [done|].
  cbn [poll_loop]. unfold bind at 1. unfold now at 1.
  destruct (clock st) as [|t cl] eqn:Ec; [done|].
  assert (∀ (a o : outcome json) st',
            Some (a, {| auth_token := auth_token st; clock := cl;
                        replies := replies st; events := events st;
                        uploaded_log := uploaded_log st |}) = Some (o, st') →
            auth_token st' = auth_token st ∧
            uploaded_log st' = uploaded_log st ∧
            ∃ (k : nat) (asked : bool),
              events st'
                = events st
                  ++ mjoin (replicate k [Net (GetStatus task_id tok); Sleep interval])
                  ++ (if asked then [Net (GetStatus task_id tok)] else []) ∧
              (k + (if asked then 1 else 0) ≤ length (replies st))%nat ∧
              replies st' = drop (k + (if asked then 1 else 0)) (replies st) ∧
              (S k ≤ length (t :: cl))%nat ∧
              clock st' = drop (S k) (t :: cl)) as Hstop.
  { intros a o0 st0 [= _ <-]. split; [done|]. split; [done|].
    exists 0%nat, false. cbn. rewrite app_nil_r. repeat split; lia. }
  destruct (t <? deadline); [|by apply Hstop].
  destruct (dry_run cfg); [by apply Hstop|].
  unfold bind at 1. unfold mask_token at 1. unfold bind at 1. unfold get_token at 1.
  cbn [auth_token].
  destruct (poll_debug cfg && truthy (auth_token st) && negb (is_str (auth_token st)));
    [by apply Hstop|].
  cbn [ret]. unfold bind at 1. unfold send at 1. cbn [replies].
  destruct (replies st) as [|r rs] eqn:Er; [done|].
  cbn [auth_token clock events uploaded_log].
  assert (∀ (a o : outcome json) st',
            Some (a, {| auth_token := auth_token st; clock := cl; replies := rs;
                        events := events st ++ [Net (GetStatus task_id tok)];
                        uploaded_log := uploaded_log st |}) = Some (o, st') →
            auth_token st' = auth_token st ∧
            uploaded_log st' = uploaded_log st ∧
            ∃ (k : nat) (asked : bool),
              events st'
                = events st
                  ++ mjoin (replicate k [Net (GetStatus task_id tok); Sleep interval])
                  ++ (if asked then [Net (GetStatus task_id tok)] else []) ∧
              (k + (if asked then 1 else 0) ≤ length (r :: rs))%nat ∧
              replies st' = drop (k + (if asked then 1 else 0)) (r :: rs) ∧
              (S k ≤ length (t :: cl))%nat ∧
              clock st' = drop (S k) (t :: cl)) as Hasked.
  { intros a o0 st0 [= _ <-]. split; [done|]. split; [done|].
    exists 0%nat, true. cbn. repeat split; lia. }
  unfold bind at 1. unfold lift at 1.
  destruct (examine_reply r) as [[v|]|e]; [by apply Hasked| |by apply Hasked].
  unfold bind at 1. unfold sleep at 1.
  destruct (interval <? 0); [by apply Hasked|].
  unfold emit at 1. cbn [auth_token clock replies events uploaded_log].
  intros Hrun. apply IH in Hrun as (Ht & Hl & k & asked & He & Hrn & Hr & Hcn & Hc).
  cbn [auth_token clock replies events uploaded_log] in *.
  split; [done|]. split; [done|]. exists (S k), asked.
  split; [|repeat split; simpl; (done || lia)].
  rewrite He. cbn [replicate mjoin list_join]. by rewrite <- !app_assoc.
Qed.

(** X3. Whatever the replies are, a poll that ends has sent nothing but
    status requests for its own task, with the token held when it started,
    and has slept for the given interval after each of them but the last:
    its events are some rounds of one request and one sleep, and then at
    most one more request, on whose reply, or on the sleep behind it, the
    poll ended. It has used one reply for each request and one reading of
    the clock for each tick, and it has changed neither the token nor the
    ledger file. *)
Theorem poll_only_polls (cfg : Config) (task_id : json) (interval timeout : Z)
    (st : State) (o : outcome json) (st' : State) :
  poll_task_for_trip cfg task_id interval timeout st = Some (o, st') →
  auth_token st' = auth_token st ∧
  uploaded_log st' = uploaded_log st ∧
  ∃ (k : nat) (asked : bool),
    events st'
      = events st
        ++ mjoin (replicate k [Net (GetStatus task_id (auth_token st));
                               Sleep interval])
        ++ (if asked then [Net (GetStatus task_id (auth_token st))] else []) ∧
    (k + (if asked then 1 else 0) ≤ length (replies st))%nat ∧
    replies st' = drop (k + (if asked then 1 else 0)) (replies st) ∧
    (k + 2 ≤ length (clock st))%nat ∧
    clock st' = drop (k + 2) (clock st).
Proof.
  unfold poll_task_for_trip, bind, now, get_token, readings_left.
  destruct (clock st) as [|t0 cl] eqn:Ec; [done|]. cbn [auth_token clock].
  intros Hrun.
  apply poll_loop_shape in Hrun as (Ht & Hl & k & asked & He & Hrn & Hr & Hcn & Hc).
  cbn [auth_token clock replies events uploaded_log] in *.
  split; [done|]. split; [done|]. exists k, asked.
  replace (k + 2)%nat with (S (S k)) by lia.
  repeat split; simpl; (done || lia).
Qed.

Lemma poll_only_polls_witness :
  auth_token (sent (GetStatus (JNum 7) (JStr "token")) []
                (polled (JNum 7) 2 1 [1007] [] (start (JStr "token") [] [] [])))
    = JStr "token" ∧
  uploaded_log (start (JStr "token") [] [] [] ) = "" ∧
  ∃ (k : nat) (asked : bool),
    [Net (GetStatus (JNum 7) (JStr "token")); Sleep 2;
     Net (GetStatus (JNum 7) (JStr "token"))]
      = [] ++ mjoin (replicate k [Net (GetStatus (JNum 7) (JStr "token")); Sleep 2])
           ++ (if asked then [Net (GetStatus (JNum 7) (JStr "token"))] else []) ∧
    (k + (if asked then 1 else 0) ≤ 2)%nat ∧
    [] = drop (k + (if asked then 1 else 0))
           [status_reply "success" []; status_reply "success" [trip_object 99]] ∧
    (k + 2 ≤ 4)%nat ∧
    [1007] = drop (k + 2) [1000; 1001; 1004; 1007].
Proof.
  apply (poll_only_polls (sample_cfg None false) (JNum 7) 2 300
           (start (JStr "token") [1000; 1001; 1004; 1007]
              [status_reply "success" []; status_reply "success" [trip_object 99]] [])
           (Ret (JNum 99))).
  by vm_compute.
Defined.

(** ** The counts of the summary *)

Section Counting.

Variable cfg : Config.

Lemma upload_photos_returns (trip_id : json) (media_list : list string) :
  ∀ success, Returns (upload_photos cfg trip_id media_list success).
Proof.
  induction media_list as [|m rest IH]; intros success st o st'; cbn [upload_photos].
  - intros [= <- <-]. by eexists.
  - unfold bind, try_except.
    destruct (upload_photo cfg trip_id m st) as [[[ok|e] st1]|]; [| |done].
    + apply IH.
    + cbn [ret]. apply IH.
Qed.

Lemma upload_media_for_trip_returns (trip_id : json) (media_files : list string) :
  Returns (upload_media_for_trip cfg trip_id media_files).
Proof.
  intros st o st'. unfold upload_media_for_trip.
  destruct media_files as [|m rest]; [intros [= <- <-]; by eexists|].
  unfold bind.
  destruct (upload_photos cfg trip_id (m :: rest) 0 st) as [[[n|e] st1]|] eqn:E;
    [intros [= <- <-]; by eexists| |done].
  by destruct (upload_photos_returns _ _ _ _ _ _ E).
Qed.

Variable activity_meta : gmap string ActivityMeta.
Variable target_ids : option (gset string).
Variable already_uploaded : gset string.

Lemma process_file_counts (fname : string) (c : Counts) (st : State)
    (c' : Counts) (st' : State) :
  process_file cfg activity_meta target_ids already_uploaded fname c st
    = Some (Ret c', st') →
  if filtered_out target_ids (infer_activity_id_from_filename fname)
  then c' = c
  else c' = add_success c ∨ c' = add_skipped c ∨ c' = add_error c.
Proof.
  unfold process_file. destruct (filtered_out _ _); [by intros [= <- <-]|].
  destruct (negb (force cfg) && _); [intros [= <- <-]; eauto|].
  destruct (activity_meta !! _) as [meta|]; [|intros [= <- <-]; eauto].
  unfold bind at 1. unfold try_except, bind at 1.
  destruct (upload_trip_from_file _ _ _ _ _ _ _ st) as [[[v|e] st1]|];
    [| |done]; cbn [ret]; [|intros [= <- <-]; eauto].
  destruct (eq_int v DUPLICATE_TRIP).
  { unfold bind. destruct (negb (dry_run cfg)); intros [= <- <-]; eauto. }
  destruct (negb match v with JNull => true | _ => false end);
    [|intros [= <- <-]; eauto].
  unfold bind at 1, lift.
  destruct (existing _ _) as [media|e]; [|done].
  unfold bind at 1.
  destruct (upload_media_for_trip _ _ _ st1) as [[[u|e] st2]|] eqn:E; [| |done].
  - unfold bind. destruct (_ && _); intros [= <- <-]; eauto.
  - by destruct (upload_media_for_trip_returns _ _ _ _ _ E).
Qed.

End Counting.

(** The counts after a run of the loop that returns. *)
Lemma process_files_counts (cfg : Config)
    (activity_meta : gmap string ActivityMeta)
    (target_ids : option (gset string)) (already_uploaded : gset string)
    (files : list string) (c : Counts) (st : State)
    (c' : Counts) (st' : State) :
  process_files cfg activity_meta target_ids already_uploaded files c st
    = Some (Ret c', st') →
  tally c' = (tally c + length (let_through target_ids files))%nat ∧
  (successes c ≤ successes c')%nat ∧
  (skipped c ≤ skipped c')%nat ∧
  (errors c ≤ errors c')%nat.
Proof.
  revert c st. induction files as [|fname rest IH]; intros c st.
  - intros [= <- <-]. unfold let_through. simpl. repeat split; lia.
  - cbn [process_files]. unfold bind.
    destruct (process_file _ _ _ _ fname c st) as [[[c1|e] st1]|] eqn:E;
      [|done|done].
    pose proof (process_file_counts _ _ _ _ _ _ _ _ _ E) as Hc.
    intros Hrun. destruct (IH _ _ Hrun) as (Ht & Hs & Hk & He).
    unfold let_through in *. cbn [List.filter].
    destruct (filtered_out _ _); cbn [negb].
    + by subst c1.
    + cbn [length]. unfold tally in *.
      destruct Hc as [-> | [-> | ->]]; simpl in *; repeat split; lia.
Qed.

(** X4. A run of the loop that returns has counted every file that the
    allow-list lets through exactly once, as a success, as skipped or as an
    error; no count ever goes down. *)
Theorem every_file_is_counted_once (cfg : Config)
    (activity_meta : gmap string ActivityMeta)
    (target_ids : option (gset string)) (already_uploaded : gset string)
    (files : list string) (c : Counts) (st : State)
    (c' : Counts) (st' : State) :
  process_files cfg activity_meta target_ids already_uploaded files c st
    = Some (Ret c', st') →
  tally c' = (tally c + length (let_through target_ids files))%nat ∧
  (successes c ≤ successes c')%nat ∧
  (skipped c ≤ skipped c')%nat ∧
  (errors c ≤ errors c')%nat.
Proof. apply process_files_counts. Qed.

Lemma every_file_is_counted_once_witness :
  tally {| successes := 1; skipped := 1; errors := 0 |}
    = (tally no_counts + length (let_through None ["41.fit"; "42.fit"]))%nat ∧
  (successes no_counts ≤ 1)%nat ∧
  (skipped no_counts ≤ 1)%nat ∧
  (errors no_counts ≤ 0)%nat.
Proof.
  apply (every_file_is_counted_once (sample_cfg None false) one_file_index None
           {["41"]} ["41.fit"; "42.fit"] no_counts one_file_run
           {| successes := 1; skipped := 1; errors := 0 |} one_file_done).
  by vm_compute.
Defined.

(** ** Submissions that fail *)

Section Failing.

Variable cfg : Config.
Variable activity_meta : gmap string ActivityMeta.
Variable target_ids : option (gset string).
Variable already_uploaded : gset string.

Lemma queued_upload (fname : string) (meta : ActivityMeta) (st s1 : State)
    (task_id : json) :
  queued cfg fname meta st s1 task_id →
  upload_trip_from_file cfg fname (name meta) (description meta) true
      (poll_interval cfg) (poll_timeout cfg) st
    = poll_task_for_trip cfg task_id (poll_interval cfg) (poll_timeout cfg) s1 ∧
  uploaded_log s1 = uploaded_log st ∧
  dry_run cfg = false.
Proof.
  intros (st0 & status & doc & rs & Hlive & Hauth & Hfile & Hr & Hok & Hid & Ht & ->).
  split; [by eapply upload_reaches_poll|]. split; [|done].
  by destruct (ensure_auth_ok _ _ _ Hauth) as (_ & Hlog & _).
Qed.

Lemma poll_tick_raise (n : nat) (deadline : Z) (task_id : json) (interval : Z)
    (st : State) (t : Z) (cl : list Z) (r : reply) (rs : list reply) (e : exn) :
  dry_run cfg = false →
  token_maskable cfg st = true →
  clock st = t :: cl → t < deadline →
  replies st = r :: rs → examine_reply r = Raise e →
  poll_loop cfg (S n) deadline task_id (auth_token st) interval st
    = Some (Raise e, sent (GetStatus task_id (auth_token st)) rs (with_clock cl st)).
Proof.
  intros live Hm Hc Ht Hr Hv. cbn [poll_loop]. unfold bind at 1. unfold now. rewrite Hc.
  rewrite (proj2 (Z.ltb_lt t deadline)) by done. rewrite live.
  unfold bind at 1. rewrite mask_token_ok by done.
  unfold bind, get_token, send, lift. simpl. rewrite Hr, Hv. done.
Qed.

Lemma poll_tick_bad_sleep (n : nat) (deadline : Z) (task_id : json) (interval : Z)
    (st : State) (t : Z) (cl : list Z) (r : reply) (rs : list reply) :
  dry_run cfg = false →
  token_maskable cfg st = true → interval < 0 →
  clock st = t :: cl → t < deadline →
  replies st = r :: rs → examine_reply r = Ret None →
  poll_loop cfg (S n) deadline task_id (auth_token st) interval st
    = Some (Raise ValueError,
            sent (GetStatus task_id (auth_token st)) rs (with_clock cl st)).
Proof.
  intros live Hm Hi Hc Ht Hr Hv. cbn [poll_loop]. unfold bind at 1. unfold now. rewrite Hc.
  rewrite (proj2 (Z.ltb_lt t deadline)) by done. rewrite live.
  unfold bind at 1. rewrite mask_token_ok by done.
  unfold bind, get_token, send, lift, sleep. simpl. rewrite Hr, Hv.
  by rewrite (proj2 (Z.ltb_lt interval 0)).
Qed.

Lemma poll_raises (task_id : json) (interval timeout : Z) (st : State)
    (t0 : Z) (ts : list Z) (t : Z) (crest : list Z)
    (rs : list reply) (r : reply) (rrest : list reply) (e : exn) :
  dry_run cfg = false →
  token_maskable cfg st = true → 0 ≤ interval →
  clock st = t0 :: ts ++ t :: crest →
  replies st = rs ++ r :: rrest → length rs = length ts →
  Forall (λ t, t < t0 + timeout) ts → t < t0 + timeout →
  Forall (λ r, keeps_polling r = true) rs →
  examine_reply r = Raise e →
  poll_task_for_trip cfg task_id interval timeout st
    = Some (Raise e, sent (GetStatus task_id (auth_token st)) rrest
                       (polled task_id interval (length ts) crest rrest st)).
Proof.
  intros live Hm Hi Hc Hr Hlen Hts Ht Hrs Hv.
  unfold poll_task_for_trip, bind, now, readings_left, get_token. rewrite Hc. simpl.
  rewrite length_app. cbn [length].
  etransitivity;
    [apply (poll_ticks_continue cfg live _ _ _ _ ts rs
              (with_clock (ts ++ t :: crest) st) (t :: crest) (r :: rrest)); auto|].
  etransitivity;
    [by apply (poll_tick_raise _ _ _ _
                 (polled task_id interval (length ts) (t :: crest) (r :: rrest)
                    (with_clock (ts ++ t :: crest) st)) t crest r rrest e)|].
  reflexivity.
Qed.

Lemma malformed_status_raises (r : reply) :
  malformed_status r = true → ∃ e, examine_reply r = Raise e.
Proof.
  destruct r as [|status [data|]]; try done. cbn [malformed_status examine_reply].
  destruct (status =? 200); [|done]. cbn [negb andb].
  destruct data as [| | | | |doc]; try (by eexists).
  unfold examine_status, get, get_or. cbn [obind].
  destruct (default JNull (assoc "queued_tasks" doc)) as [| | | |[|[] ?]|] eqn:E;
    unfold por; intros Hq; apply andb_true_iff in Hq as [Hq1 Hq2];
    rewrite ?Hq1; try done; cbn [negb first_item obind]; try (by eexists).
  destruct s; by eexists.
Qed.

End Failing.

(** X5. A submission that is answered without a task to follow (the request
    fails, the status is not 200, 201 or 202, the body is not JSON, or the
    document has no task identifier) costs the file one error: exactly one
    trip request is sent after the authentication, the clock is not read, so
    nothing is polled, and the ledger file is left alone. *)
Theorem rejected_submission_is_one_error (cfg : Config)
    (activity_meta : gmap string ActivityMeta)
    (target_ids : option (gset string)) (already_uploaded : gset string)
    (fname : string) (meta : ActivityMeta) (c : Counts)
    (st st0 : State) (r : reply) (rs : list reply) :
  due cfg activity_meta target_ids already_uploaded fname meta →
  dry_run cfg = false →
  ensure_auth cfg st = Some (Ret tt, st0) →
  file_ok cfg fname = true →
  replies st0 = r :: rs → no_task_handle r = true →
  process_file cfg activity_meta target_ids already_uploaded fname c st
    = Some (Ret {| successes := successes c; skipped := skipped c;
                   errors := S (errors c) |},
            sent (PostTrip (send_name fname) (name meta) (description meta)
                    (auth_token st0)) rs st0) ∧
  uploaded_log st0 = uploaded_log st.
Proof.
  intros Hdue Hlive Hauth Hfile Hr Hno.
  split; [|by destruct (ensure_auth_ok _ _ _ Hauth) as (_ & -> & _)].
  assert (∃ o, upload_trip_from_file cfg fname (name meta) (description meta) true
                 (poll_interval cfg) (poll_timeout cfg) st
               = Some (o, sent (PostTrip (send_name fname) (name meta)
                                  (description meta) (auth_token st0)) rs st0)
               ∧ (o = Ret JNull ∨ ∃ e, o = Raise e)) as (o & Hup & Ho).
  { unfold upload_trip_from_file. unfold bind at 1. rewrite Hauth.
    unfold bind at 1. unfold get_token at 1. rewrite Hfile, Hlive. cbn [negb].
    unfold bind at 1. unfold send. rewrite Hr.
    destruct r as [|status body]; [eexists; split; [done|right; by eexists]|].
    cbn [no_task_handle] in Hno.
    destruct (negb (ok_status status)); [eexists; split; [done|by left]|].
    destruct body as [resp|]; [|eexists; split; [done|by left]].
    cbn [orb] in Hno. unfold bind, lift.
    destruct resp as [| | | | |doc]; try (eexists; split; [done|by left]).
    cbn [is_dict get get_or]. apply negb_true_iff in Hno. rewrite Hno.
    eexists; split; [done|by left]. }
  destruct Ho as [->|[e ->]].
  - by apply (turn_upload_none _ _ _ _ _ meta).
  - by apply (turn_upload_raises _ _ _ _ _ meta _ _ _ e).
Qed.

Lemma rejected_submission_is_one_error_witness :
  process_file (sample_cfg None false) one_file_index None {["41"]} "42.fit" no_counts
      (start JNull [1000] [auth_granted "token"; Response 503 None] ["41"])
    = Some (Ret {| successes := 0; skipped := 0; errors := 1 |},
            sent (PostTrip "42.fit" "Morning ride" "" (JStr "token")) []
              {| auth_token := JStr "token"; clock := [1000];
                 replies := [Response 503 None];
                 events := [Net (GetAuth "rider@example.org" "secret")];
                 uploaded_log := ledger_text ["41"] |}) ∧
  ledger_text ["41"] = ledger_text ["41"].
Proof.
  apply (rejected_submission_is_one_error (sample_cfg None false) one_file_index
           None {["41"]} "42.fit" one_file_meta no_counts
           (start JNull [1000] [auth_granted "token"; Response 503 None] ["41"])
           {| auth_token := JStr "token"; clock := [1000];
              replies := [Response 503 None];
              events := [Net (GetAuth "rider@example.org" "secret")];
              uploaded_log := ledger_text ["41"] |}
           (Response 503 None) []).
  - split; [reflexivity|]. split; [|by vm_compute].
    right. intros H%elem_of_singleton. by vm_compute in H.
  - reflexivity.
  - reflexivity.
  - reflexivity.
  - reflexivity.
  - reflexivity.
Defined.

(** X6. A file that cannot be opened or decompressed costs one error, in a
    dry run as well: the client authenticates first, then fails on the file,
    and sends no trip request. *)
Theorem unreadable_file_is_one_error (cfg : Config)
    (activity_meta : gmap string ActivityMeta)
    (target_ids : option (gset string)) (already_uploaded : gset string)
    (fname : string) (meta : ActivityMeta) (c : Counts) (st st0 : State) :
  due cfg activity_meta target_ids already_uploaded fname meta →
  ensure_auth cfg st = Some (Ret tt, st0) →
  file_ok cfg fname = false →
  process_file cfg activity_meta target_ids already_uploaded fname c st
    = Some (Ret {| successes := successes c; skipped := skipped c;
                   errors := S (errors c) |}, st0).
Proof.
  intros Hdue Hauth Hfile.
  apply (turn_upload_raises _ _ _ _ _ meta _ _ _ OSError); [done|].
  unfold upload_trip_from_file. unfold bind at 1. rewrite Hauth.
  unfold bind, get_token. by rewrite Hfile.
Qed.

Lemma unreadable_file_is_one_error_witness :
  process_file
      {| project_root := "."; api_key := "key"; email := Some "rider@example.org";
         password := Some "secret"; dry_run := true; poll_debug := false;
         only := None; force := false; poll_interval := 2; poll_timeout := 300;
         path_exists := λ _, Ret true; file_ok := λ _, false |}
      one_file_index None ∅ "42.fit" no_counts (start JNull [] [] [])
    = Some (Ret {| successes := 0; skipped := 0; errors := 1 |},
            start (JStr "DUMMY_TOKEN") [] [] []).
Proof.
  apply (unreadable_file_is_one_error _ one_file_index None ∅ "42.fit" one_file_meta).
  - split; [reflexivity|]. split; [right; apply not_elem_of_empty|by vm_compute].
  - reflexivity.
  - reflexivity.
Defined.

(** ** Polls that fail *)

Lemma failed_return (r : reply) :
  reports "error" r || reports "failed" r = true →
  examine_reply r = Ret (Some JNull).
Proof.
  unfold reports. destruct (first_task r) as [task|] eqn:E; [|done].
  intros H. rewrite (examine_first_task _ _ E).
  destruct (response_code task) as [| | |s| |]; try done. cbn [eq_str] in *.
  apply orb_true_iff in H as [H|H]; apply String.eqb_eq in H; subst s; reflexivity.
Qed.

Lemma sample_due :
  due (sample_cfg None false) one_file_index None {["41"]} "42.fit" one_file_meta.
Proof.
  split; [reflexivity|]. split; [|by vm_compute].
  right. intros H%elem_of_singleton. by vm_compute in H.
Qed.

Lemma sample_queued (rs : list reply) (cl : list Z) :
  queued (sample_cfg None false) "42.fit" one_file_meta
    (start JNull cl (auth_granted "token" :: trip_queued 7 :: rs) ["41"])
    (sent (PostTrip "42.fit" "Morning ride" "" (JStr "token")) rs
       {| auth_token := JStr "token"; clock := cl;
          replies := trip_queued 7 :: rs;
          events := [Net (GetAuth "rider@example.org" "secret")];
          uploaded_log := ledger_text ["41"] |})
    (JNum 7).
Proof.
  exists {| auth_token := JStr "token"; clock := cl;
            replies := trip_queued 7 :: rs;
            events := [Net (GetAuth "rider@example.org" "secret")];
            uploaded_log := ledger_text ["41"] |}, 200, [("task_id", JNum 7)], rs.
  by repeat split.
Qed.

(** X7. When the poll of a file's task, after any number of ticks that keep
    it polling, meets before the deadline a reply that reports [error] or
    [failed], or a 200 reply that it cannot read, the poll ends at that
    request without sleeping again; the file costs one error and the ledger
    file is left alone. *)
Theorem failed_task_is_one_error (cfg : Config)
    (activity_meta : gmap string ActivityMeta)
    (target_ids : option (gset string)) (already_uploaded : gset string)
    (fname : string) (meta : ActivityMeta) (c : Counts)
    (st s1 : State) (task_id : json)
    (t0 : Z) (ts : list Z) (t : Z) (crest : list Z)
    (rs : list reply) (r : reply) (rrest : list reply) :
  due cfg activity_meta target_ids already_uploaded fname meta →
  queued cfg fname meta st s1 task_id →
  token_maskable cfg s1 = true → 0 ≤ poll_interval cfg →
  clock s1 = t0 :: ts ++ t :: crest →
  replies s1 = rs ++ r :: rrest → length rs = length ts →
  Forall (λ t, t < t0 + poll_timeout cfg) ts → t < t0 + poll_timeout cfg →
  Forall (λ r, keeps_polling r = true) rs →
  reports "error" r || reports "failed" r || malformed_status r = true →
  process_file cfg activity_meta target_ids already_uploaded fname c st
    = Some (Ret {| successes := successes c; skipped := skipped c;
                   errors := S (errors c) |},
            sent (GetStatus task_id (auth_token s1)) rrest
              (polled task_id (poll_interval cfg) (length ts) crest rrest s1)) ∧
  uploaded_log s1 = uploaded_log st.
Proof.
  intros Hdue Hq Hm Hi Hc Hr Hlen Hts Ht Hrs Hbad.
  destruct (queued_upload _ _ _ _ _ _ Hq) as (Hup & Hlog & Hlive).
  split; [|done]. apply orb_true_iff in Hbad as [Hbad|Hbad].
  - apply (turn_upload_none _ _ _ _ _ meta); [done|]. rewrite Hup.
    apply (poll_returns cfg Hlive _ _ _ _ t0 ts t crest rs r rrest);
      auto using failed_return.
  - destruct (malformed_status_raises _ Hbad) as [e He].
    apply (turn_upload_raises _ _ _ _ _ meta _ _ _ e); [done|]. rewrite Hup.
    by apply (poll_raises cfg _ _ _ _ t0 ts t crest rs r rrest).
Qed.

Lemma failed_task_is_one_error_witness :
  process_file (sample_cfg None false) one_file_index None {["41"]} "42.fit" no_counts
      (start JNull [1000; 1001; 1004; 1007]
         [auth_granted "token"; trip_queued 7; status_reply "queued" [];
          status_reply "failed" []] ["41"])
    = Some (Ret {| successes := 0; skipped := 0; errors := 1 |},
            {| auth_token := JStr "token"; clock := [1007]; replies := [];
               events := [Net (GetAuth "rider@example.org" "secret");
                          Net (PostTrip "42.fit" "Morning ride" "" (JStr "token"));
                          Net (GetStatus (JNum 7) (JStr "token")); Sleep 2;
                          Net (GetStatus (JNum 7) (JStr "token"))];
               uploaded_log := ledger_text ["41"] |}).
Proof.
  apply (failed_task_is_one_error (sample_cfg None false) one_file_index None {["41"]}
           "42.fit" one_file_meta no_counts _ _ (JNum 7) 1000 [1001] 1004 [1007]
           [status_reply "queued" []] (status_reply "failed" []) []
           sample_due
           (sample_queued [status_reply "queued" []; status_reply "failed" []]
              [1000; 1001; 1004; 1007])
           eq_refl ltac:(simpl; lia) eq_refl eq_refl eq_refl
           ltac:(repeat constructor) ltac:(simpl; lia) ltac:(repeat constructor)
           eq_refl).
Defined.

(** X8. With a negative poll interval, a file whose first status reply does
    not end the poll costs one error: the sleep that follows the reply
    fails, after one status request, and the ledger file is left alone. *)
Theorem negative_interval_is_one_error (cfg : Config)
    (activity_meta : gmap string ActivityMeta)
    (target_ids : option (gset string)) (already_uploaded : gset string)
    (fname : string) (meta : ActivityMeta) (c : Counts)
    (st s1 : State) (task_id : json)
    (t0 t : Z) (crest : list Z) (r : reply) (rrest : list reply) :
  due cfg activity_meta target_ids already_uploaded fname meta →
  queued cfg fname meta st s1 task_id →
  token_maskable cfg s1 = true → poll_interval cfg < 0 →
  clock s1 = t0 :: t :: crest → t < t0 + poll_timeout cfg →
  replies s1 = r :: rrest → keeps_polling r = true →
  process_file cfg activity_meta target_ids already_uploaded fname c st
    = Some (Ret {| successes := successes c; skipped := skipped c;
                   errors := S (errors c) |},
            sent (GetStatus task_id (auth_token s1)) rrest (with_clock crest s1)) ∧
  uploaded_log s1 = uploaded_log st.
Proof.
  intros Hdue Hq Hm Hi Hc Ht Hr Hk.
  destruct (queued_upload _ _ _ _ _ _ Hq) as (Hup & Hlog & Hlive).
  split; [|done].
  apply (turn_upload_raises _ _ _ _ _ meta _ _ _ ValueError); [done|]. rewrite Hup.
  unfold poll_task_for_trip, bind, now, readings_left, get_token. rewrite Hc.
  cbn [clock length auth_token].
  etransitivity;
    [apply (poll_tick_bad_sleep cfg _ _ _ _ (with_clock (t :: crest) s1) t crest r rrest);
       auto using keeps_polling_continue|].
  reflexivity.
Qed.

Lemma negative_interval_is_one_error_witness :
  process_file (cached_cfg (-1) 300) one_file_index None ∅ "42.fit" no_counts
      (start (JStr "cached") [1000; 1001; 1002]
         [trip_queued 7; status_reply "queued" []; status_reply "success" [trip_object 99]]
         [])
    = Some (Ret {| successes := 0; skipped := 0; errors := 1 |},
            {| auth_token := JStr "cached"; clock := [1002];
               replies := [status_reply "success" [trip_object 99]];
               events := [Net (PostTrip "42.fit" "Morning ride" "" (JStr "cached"));
                          Net (GetStatus (JNum 7) (JStr "cached"))];
               uploaded_log := ledger_text [] |}).
Proof.
  refine (proj1 (negative_interval_is_one_error (cached_cfg (-1) 300) one_file_index
           None ∅ "42.fit" one_file_meta no_counts
           (start (JStr "cached") [1000; 1001; 1002]
              [trip_queued 7; status_reply "queued" [];
               status_reply "success" [trip_object 99]] [])
           (sent (PostTrip "42.fit" "Morning ride" "" (JStr "cached"))
              [status_reply "queued" []; status_reply "success" [trip_object 99]]
              (start (JStr "cached") [1000; 1001; 1002]
                 [trip_queued 7; status_reply "queued" [];
                  status_reply "success" [trip_object 99]] []))
           (JNum 7) 1000 1001 [1002] (status_reply "queued" [])
           [status_reply "success" [trip_object 99]] _ _ eq_refl _ eq_refl _
           eq_refl eq_refl)).
  - split; [reflexivity|]. split; [right; apply not_elem_of_empty|by vm_compute].
  - eexists _, 200, [("task_id", JNum 7)], _. by repeat split.
  - simpl. lia.
  - simpl. lia.
Defined.

(** X9. With a poll timeout of zero or less, and a clock that does not run
    backwards, a file whose submission was accepted is never polled: the
    poll gives up at once, the file costs one error and the ledger file is
    left alone, although the service holds the upload. *)
Theorem no_time_to_poll_is_one_error (cfg : Config)
    (activity_meta : gmap string ActivityMeta)
    (target_ids : option (gset string)) (already_uploaded : gset string)
    (fname : string) (meta : ActivityMeta) (c : Counts)
    (st s1 : State) (task_id : json) (t0 t : Z) (crest : list Z) :
  due cfg activity_meta target_ids already_uploaded fname meta →
  queued cfg fname meta st s1 task_id →
  poll_timeout cfg ≤ 0 →
  clock s1 = t0 :: t :: crest → t0 ≤ t →
  process_file cfg activity_meta target_ids already_uploaded fname c st
    = Some (Ret {| successes := successes c; skipped := skipped c;
                   errors := S (errors c) |},
            with_clock crest s1) ∧
  uploaded_log s1 = uploaded_log st.
Proof.
  intros Hdue Hq Hto Hc Ht.
  destruct (queued_upload _ _ _ _ _ _ Hq) as (Hup & Hlog & Hlive).
  split; [|done].
  apply (turn_upload_none _ _ _ _ _ meta); [done|]. rewrite Hup.
  unfold poll_task_for_trip, bind, now, readings_left, get_token. rewrite Hc.
  cbn [clock length auth_token].
  etransitivity;
    [apply (poll_tick_deadline cfg _ _ _ _ (with_clock (t :: crest) s1) t crest);
       [done|lia]|].
  reflexivity.
Qed.

Lemma no_time_to_poll_is_one_error_witness :
  process_file (cached_cfg 2 0) one_file_index None ∅ "42.fit" no_counts
      (start (JStr "cached") [1000; 1000; 1002]
         [trip_queued 7; status_reply "success" [trip_object 99]] [])
    = Some (Ret {| successes := 0; skipped := 0; errors := 1 |},
            {| auth_token := JStr "cached"; clock := [1002];
               replies := [status_reply "success" [trip_object 99]];
               events := [Net (PostTrip "42.fit" "Morning ride" "" (JStr "cached"))];
               uploaded_log := ledger_text [] |}).
Proof.
  refine (proj1 (no_time_to_poll_is_one_error (cached_cfg 2 0) one_file_index
           None ∅ "42.fit" one_file_meta no_counts
           (start (JStr "cached") [1000; 1000; 1002]
              [trip_queued 7; status_reply "success" [trip_object 99]] [])
           (sent (PostTrip "42.fit" "Morning ride" "" (JStr "cached"))
              [status_reply "success" [trip_object 99]]
              (start (JStr "cached") [1000; 1000; 1002]
                 [trip_queued 7; status_reply "success" [trip_object 99]] []))
           (JNum 7) 1000 1000 [1002] _ _ _ eq_refl _)).
  - split; [reflexivity|]. split; [right; apply not_elem_of_empty|by vm_compute].
  - eexists _, 200, [("task_id", JNum 7)], _. by repeat split.
  - simpl. lia.
  - lia.
Defined.

(** ** Media are attached on a best-effort basis *)

Section Media.

Variable cfg : Config.
Hypothesis live : dry_run cfg = false.

Lemma upload_photos_posts (trip_id : json) (media : list string) :
  ∀ (success : nat) (st : State),
    truthy (auth_token st) = true →
    (length (List.filter (uploadable cfg) media) ≤ length (replies st))%nat →
    ∃ n, upload_photos cfg trip_id media success st
         = Some (Ret n, after_photos cfg trip_id media st).
Proof.
  induction media as [|m rest IH]; intros success st Ht Hlen.
  - exists success. cbn [upload_photos ret]. do 2 f_equal.
    unfold after_photos, photo_posts. cbn. rewrite app_nil_r. by destruct st.
  - cbn [upload_photos]. unfold bind at 1. unfold try_except, upload_photo.
    unfold after_photos, photo_posts, uploadable in *. cbn [List.filter] in *.
    unfold bind at 1. unfold lift at 1.
    destruct (path_exists cfg m) as [[]|e]; cbn [negb andb] in *;
      [|by apply IH|by apply IH].
    unfold bind at 1. rewrite ensure_auth_held by done.
    unfold bind at 1. unfold get_token at 1.
    destruct (file_ok cfg m); cbn [negb] in *; [|by apply IH].
    rewrite live. unfold bind at 1. unfold send.
    destruct (replies st) as [|r rs] eqn:Er; [simpl in Hlen; lia|].
    cbn [length] in Hlen.
    destruct (IH (if match r with
                     | NetError => false
                     | Response status _ => ok_status status
                     end then S success else success)
                (sent (PostPhoto (PyStr.path_name m) trip_id (auth_token st)) rs st))
      as [n Hn]; [done|cbn; lia|].
    exists n. destruct r as [|status body]; cbn [raise ret];
      (etransitivity; [exact Hn|]); cbn; by rewrite <- app_assoc.
Qed.

Lemma upload_media_posts (trip_id : json) (media : list string) (st : State) :
  truthy (auth_token st) = true →
  (length (List.filter (uploadable cfg) media) ≤ length (replies st))%nat →
  upload_media_for_trip cfg trip_id media st
    = Some (Ret tt, after_photos cfg trip_id media st).
Proof.
  intros Ht Hlen. unfold upload_media_for_trip. destruct media as [|m rest].
  - cbn [ret]. do 2 f_equal. unfold after_photos, photo_posts. cbn.
    rewrite app_nil_r. by destruct st.
  - destruct (upload_photos_posts trip_id (m :: rest) 0%nat st Ht Hlen) as [n Hn].
    unfold bind. by rewrite Hn.
Qed.

End Media.

(** X10. Attaching media never raises. With a token held, outside a dry
    run, and a reply for each request, it posts exactly one photo for each
    listed file that exists and opens, in the order of the list, whatever
    the replies are: a refused or failed photo does not stop the others. It
    changes neither the token nor the ledger file. *)
Theorem media_are_best_effort (cfg : Config) (trip_id : json) (media : list string) :
  (∀ st o st', upload_media_for_trip cfg trip_id media st = Some (o, st') →
               o = Ret tt) ∧
  (∀ st,
     dry_run cfg = false →
     truthy (auth_token st) = true →
     (length (List.filter (uploadable cfg) media) ≤ length (replies st))%nat →
     upload_media_for_trip cfg trip_id media st
       = Some (Ret tt,
               {| auth_token := auth_token st;
                  clock := clock st;
                  replies := drop (length (List.filter (uploadable cfg) media))
                               (replies st);
                  events := events st
                            ++ ((λ p, Net (PostPhoto (PyStr.path_name p) trip_id
                                             (auth_token st)))
                                  <$> List.filter (uploadable cfg) media);
                  uploaded_log := uploaded_log st |})).
Proof.
  split.
  - intros st o st' Hrun.
    destruct (upload_media_for_trip_returns _ _ _ _ _ _ Hrun) as [[] ->]. done.
  - intros st Hlive Ht Hlen. by apply upload_media_posts.
Qed.

Lemma media_are_best_effort_witness :
  upload_media_for_trip photo_cfg (JNum 99) (media_paths photo_meta)
      (start (JStr "cached") [] [Response 500 None; NetError; Response 201 None] [])
    = Some (Ret tt,
            {| auth_token := JStr "cached"; clock := [];
               replies := [Response 201 None];
               events := [Net (PostPhoto "a.jpg" (JNum 99) (JStr "cached"));
                          Net (PostPhoto "c.jpg" (JNum 99) (JStr "cached"))];
               uploaded_log := ledger_text [] |}).
Proof.
  refine (proj2 (media_are_best_effort photo_cfg (JNum 99) (media_paths photo_meta))
            (start (JStr "cached") [] [Response 500 None; NetError; Response 201 None] [])
            eq_refl eq_refl _).
  simpl. lia.
Defined.

(** ** A trip that is created *)



Lemma turn_upload_success (cfg : Config) (activity_meta : gmap string ActivityMeta)
    (target_ids : option (gset string)) (already_uploaded : gset string)
    (fname : string) (meta : ActivityMeta) (c : Counts)
    (st st1 st2 : State) (trip_id : json) (media : list string) :
  due cfg activity_meta target_ids already_uploaded fname meta →
  upload_trip_from_file cfg fname (name meta) (description meta) true
      (poll_interval cfg) (poll_timeout cfg) st
    = Some (Ret trip_id, st1) →
  truthy trip_id = true → eq_int trip_id DUPLICATE_TRIP = false →
  existing (path_exists cfg) (media_paths meta) = Ret media →
  upload_media_for_trip cfg trip_id media st1 = Some (Ret tt, st2) →
  process_file cfg activity_meta target_ids already_uploaded fname c st
    = Some (Ret (add_success c),
            if negb (dry_run cfg) && negb (eq_int trip_id (-1))
            then with_log (uploaded_log st2 +:+ infer_activity_id_from_filename fname +:+ LF)
                   st2
            else st2).
Proof.
  intros Hdue Hup Ht Hnd Hex Hmedia.
  pose proof (ledger_gate_open _ _ _ _ _ _ Hdue) as Hgate.
  destruct Hdue as (Hf & _ & Hm). unfold process_file.
  rewrite Hf, Hgate, Hm. unfold bind at 1. unfold try_except, bind at 1. rewrite Hup.
  cbn [ret]. rewrite Hnd.
  assert (negb match trip_id with JNull => true | _ => false end = true) as ->
    by (by destruct trip_id).
  unfold bind at 1. rewrite Hex. unfold lift at 1.
  unfold bind at 1. rewrite Hmedia. unfold bind.
  by destruct (negb (dry_run cfg) && negb (eq_int trip_id (-1))).
Qed.

(** When the test of a media path raises, the turn ends there. *)
Lemma turn_upload_aborts (cfg : Config) (activity_meta : gmap string ActivityMeta)
    (target_ids : option (gset string)) (already_uploaded : gset string)
    (fname : string) (meta : ActivityMeta) (c : Counts)
    (st st1 : State) (trip_id : json) (e : exn) :
  due cfg activity_meta target_ids already_uploaded fname meta →
  upload_trip_from_file cfg fname (name meta) (description meta) true
      (poll_interval cfg) (poll_timeout cfg) st
    = Some (Ret trip_id, st1) →
  truthy trip_id = true → eq_int trip_id DUPLICATE_TRIP = false →
  existing (path_exists cfg) (media_paths meta) = Raise e →
  process_file cfg activity_meta target_ids already_uploaded fname c st
    = Some (Raise e, st1).
Proof.
  intros Hdue Hup Ht Hnd Hex.
  pose proof (ledger_gate_open _ _ _ _ _ _ Hdue) as Hgate.
  destruct Hdue as (Hf & _ & Hm). unfold process_file.
  rewrite Hf, Hgate, Hm. unfold bind at 1. unfold try_except, bind at 1. rewrite Hup.
  cbn [ret]. rewrite Hnd.
  assert (negb match trip_id with JNull => true | _ => false end = true) as ->
    by (by destruct trip_id).
  unfold bind at 1. by rewrite Hex.
Qed.



(** ** Authentication *)

(** X12. A successful [ensure_auth] leaves a token, so that a second call
    does nothing; it sends one authentication request when no token was held
    outside a dry run, and none otherwise, and it never writes to the ledger
    file. *)
Theorem auth_is_obtained_once (cfg : Config) (st st0 : State) :
  ensure_auth cfg st = Some (Ret tt, st0) →
  truthy (auth_token st0) = true ∧
  ensure_auth cfg st0 = Some (Ret tt, st0) ∧
  events st0
    = events st
      ++ (if truthy (auth_token st) || dry_run cfg then []
          else [Net (GetAuth (default "" (email cfg)) (default "" (password cfg)))]) ∧
  uploaded_log st0 = uploaded_log st.
Proof.
  intros Hauth. destruct (ensure_auth_ok _ _ _ Hauth) as (Ht & Hlog & _).
  split; [done|]. split; [by apply ensure_auth_held|]. split; [|done].
  revert Hauth. unfold ensure_auth, bind, get_token.
  destruct (truthy (auth_token st)); cbn [orb].
  { intros [= <-]. by rewrite app_nil_r. }
  destruct (negb _); [done|].
  destruct (dry_run cfg).
  { intros [= <-]. cbn. by rewrite app_nil_r. }
  unfold send. destruct (replies st) as [|[|status body] rs]; try done.
  destruct (negb (status =? 200)); [done|].
  destruct body as [data|]; [|done].
  unfold lift. destruct (get_or data "user" (JObj [])) as [user|]; [|done].
  destruct (get user "auth_token") as [tok|]; [|done].
  unfold set_token. destruct (negb (truthy tok)); [done|].
  by intros [= <-].
Qed.

Lemma auth_is_obtained_once_witness :
  truthy (JStr "token") = true ∧
  ensure_auth (sample_cfg None false) one_file_authed = Some (Ret tt, one_file_authed) ∧
  events one_file_authed = [] ++ [Net (GetAuth "rider@example.org" "secret")] ∧
  uploaded_log one_file_authed = ledger_text ["41"].
Proof.
  apply (auth_is_obtained_once (sample_cfg None false) one_file_run one_file_authed).
  reflexivity.
Defined.

Section NoCredentials.

Variable cfg : Config.
Variable activity_meta : gmap string ActivityMeta.
Variable target_ids : option (gset string).
Variable already_uploaded : gset string.


End NoCredentials.



(** ** Discovering the files *)

Section Discovery.

Lemma last_dot_tail_app (a b t : string) :
  last_dot_tail b = Some t → last_dot_tail (a +:+ b) = Some t.
Proof.
  intros Hb. induction a as [|c a IH]; [done|].
  rewrite str_app_cons. cbn [last_dot_tail]. by rewrite IH.
Qed.

Lemma double_ext_suffix (name : string) :
  existsb (PyStr.endswith name) double_exts = true → path_suffix name = ".gz".
Proof.
  unfold double_exts. cbn [existsb]. rewrite orb_false_r.
  intros H. unfold path_suffix.
  assert (∃ stem d, name = stem +:+ d ∧ last_dot_tail d = Some ".gz"
                    ∧ String.length d = 7%nat) as (stem & d & -> & Hd & Hlen).
  { apply orb_true_iff in H as [H|H]; [|apply orb_true_iff in H as [H|H]];
      apply endswith_inv in H as [stem ->]; by eexists _, _. }
  rewrite (last_dot_tail_app _ _ _ Hd), str_length_app, Hlen.
  cbn [String.length].
  destruct (3 <? String.length stem + 7)%nat eqn:E; [done|].
  apply Nat.ltb_ge in E. lia.
Qed.

Lemma is_activity_name_suffix (name : string) :
  is_activity_name name = bool_decide (path_suffix name ∈ activity_suffixes).
Proof.
  unfold is_activity_name, activity_suffixes.
  destruct (existsb (PyStr.endswith name) double_exts) eqn:E;
    [|by rewrite orb_false_r].
  rewrite orb_true_r, (double_ext_suffix _ E). symmetry.
  apply bool_decide_eq_true. do 3 right. by left.
Qed.

Lemma filter_Permutation_bool {A} (f : A → bool) (l l' : list A) :
  l ≡ₚ l' → List.filter f l ≡ₚ List.filter f l'.
Proof.
  induction 1 as [|x l l' _ IH|x y l|l1 l2 l3 _ IH1 _ IH2]; cbn [List.filter].
  - done.
  - destruct (f x); [by constructor|done].
  - destruct (f x), (f y); try done. apply perm_swap.
  - by etransitivity.
Qed.

Lemma filter_StronglySorted {A} (R : relation A) (f : A → bool) (l : list A) :
  StronglySorted R l → StronglySorted R (List.filter f l).
Proof.
  induction 1 as [|x l Hl IH Hx]; cbn [List.filter]; [constructor|].
  destruct (f x); [|done]. constructor; [done|].
  apply Forall_forall. intros y Hy%list_elem_of_In%List.filter_In.
  destruct Hy as [Hy _]. rewrite Forall_forall in Hx. apply Hx.
  by apply list_elem_of_In.
Qed.

End Discovery.

(** X14. The files that are discovered are the entries of the directory
    whose suffix is [.fit], [.gpx], [.tcx] or [.gz], each as often as it is
    listed, in ascending order of their names; the second test of the code,
    for names that end in a double extension, adds nothing to the first. *)
Theorem discovered_files_are_sorted (listing : list string) :
  Sorted String.le (discover_activity_files listing) ∧
  discover_activity_files listing
    ≡ₚ List.filter (λ name, bool_decide (path_suffix name ∈ activity_suffixes))
         listing.
Proof.
  unfold discover_activity_files. split.
  - apply StronglySorted_Sorted, filter_StronglySorted.
    apply Sorted_StronglySorted; [apply _|]. apply Sorted_merge_sort. apply _.
  - rewrite (List.filter_ext _ _ is_activity_name_suffix).
    apply filter_Permutation_bool, merge_sort_Permutation.
Qed.

(** ** Stripping *)

Section Stripping.

Lemma lstrip_starts_clean (s : string) : starts_clean (PyStr.lstrip s) = true.
Proof.
  induction s as [|c s IH]; [done|]. cbn [PyStr.lstrip].
  destruct (PyStr.is_space c) eqn:E; [done|]. cbn. by rewrite E.
Qed.

Lemma lstrip_clean (s : string) : starts_clean s = true → PyStr.lstrip s = s.
Proof.
  destruct s as [|c s]; [done|]. cbn. intros H%negb_true_iff. by rewrite H.
Qed.

Lemma rstrip_starts_clean (s : string) :
  starts_clean s = true → starts_clean (PyStr.rstrip s) = true.
Proof.
  destruct s as [|c s]; [done|]. cbn [starts_clean PyStr.rstrip].
  intros H. destruct (PyStr.rstrip s); [|by cbn].
  apply negb_true_iff in H. rewrite H. cbn. by rewrite H.
Qed.

Lemma rstrip_cons (c : ascii) (s : string) :
  PyStr.rstrip (String c s)
    = match PyStr.rstrip s with
      | "" => if PyStr.is_space c then "" else String c ""
      | r => String c r
      end.
Proof. reflexivity. Qed.

Lemma rstrip_rstrip (s : string) : PyStr.rstrip (PyStr.rstrip s) = PyStr.rstrip s.
Proof.
  induction s as [|c s IH]; [done|]. rewrite rstrip_cons.
  destruct (PyStr.rstrip s) as [|d r] eqn:E.
  - destruct (PyStr.is_space c) eqn:Ec; [done|]. cbn. by rewrite Ec.
  - by rewrite rstrip_cons, IH.
Qed.

Lemma strip_strip (s : string) : PyStr.strip (PyStr.strip s) = PyStr.strip s.
Proof.
  unfold PyStr.strip.
  rewrite (lstrip_clean (PyStr.rstrip (PyStr.lstrip s)));
    [apply rstrip_rstrip|]. apply rstrip_starts_clean, lstrip_starts_clean.
Qed.

Lemma elem_of_stripped (parts : list string) (x : string) :
  x ∈ List.filter PyStr.nonempty (PyStr.strip <$> parts) ↔
  x ≠ "" ∧ ∃ part, part ∈ parts ∧ PyStr.strip part = x.
Proof.
  rewrite list_elem_of_In, List.filter_In, <- list_elem_of_In, list_elem_of_fmap.
  split.
  - intros [(part & -> & Hin) Hne]. split; [by intros E; rewrite E in Hne|eauto].
  - intros [Hne (part & Hin & <-)]. split; [eauto|].
    by destruct (PyStr.strip part).
Qed.

End Stripping.

(** ** The ledger across runs *)

Section Lines.

Lemma string_pair_ind (P : string → Prop) :
  P "" → (∀ c, P (String c "")) →
  (∀ c c' s, P s → P (String c' s) → P (String c (String c' s))) →
  ∀ s, P s.
Proof.
  intros H0 H1 H2.
  assert (∀ s, P s ∧ ∀ c, P (String c s)) as H.
  { induction s as [|c' s [IH1 IH2]]; [by split|].
    split; [apply IH2|]. intros c. by apply H2. }
  intros s. apply H.
Qed.

Lemma splitlines_break (c : ascii) (s : string) :
  is_line_break c = true →
  Ascii.eqb c "013" = false ∨ starts_lf s = false →
  splitlines (String c s) = "" :: splitlines s.
Proof.
  intros Hc Hs. cbn [splitlines]. rewrite Hc.
  destruct s as [|c' s']; [done|].
  destruct (Ascii.eqb c "013" && Ascii.eqb c' "010") eqn:E; [|done].
  apply andb_true_iff in E as [E1 E2]. cbn [starts_lf] in Hs.
  destruct Hs; congruence.
Qed.

Lemma splitlines_plain (c : ascii) (s : string) :
  is_line_break c = false →
  splitlines (String c s)
    = match splitlines s with
      | [] => [String c ""]
      | l :: ls => String c l :: ls
      end.
Proof. intros Hc. cbn [splitlines]. by rewrite Hc. Qed.

Lemma splitlines_pair (c c' : ascii) (s : string) :
  is_line_break c = true →
  splitlines (String c (String c' s))
    = if Ascii.eqb c "013" && Ascii.eqb c' "010" then "" :: splitlines s
      else "" :: splitlines (String c' s).
Proof. intros Hc. cbn [splitlines]. by rewrite Hc. Qed.

Lemma splitlines_nonempty (c : ascii) (s : string) : splitlines (String c s) ≠ [].
Proof.
  cbn [splitlines]. destruct (is_line_break c).
  - destruct s as [|c' s']; [done|]. by destruct (_ && _).
  - by destruct (splitlines s).
Qed.

Lemma line_feed_breaks (c : ascii) :
  is_line_break c = false → Ascii.eqb c "010" = false.
Proof. destruct (Ascii.eqb_spec c "010") as [->|]; [done|done]. Qed.

Lemma universal_newlines_pair (c c' : ascii) (s : string) :
  universal_newlines (String c (String c' s))
    = if Ascii.eqb c "013" then
        if Ascii.eqb c' "010" then String "010" (universal_newlines s)
        else String "010" (universal_newlines (String c' s))
      else String c (universal_newlines (String c' s)).
Proof. reflexivity. Qed.

(** Reading in text mode does not change the lines. *)
Lemma splitlines_universal (s : string) :
  splitlines (universal_newlines s) = splitlines s.
Proof.
  induction s as [|c|c c' s IH1 IH2] using string_pair_ind; [done| |].
  - cbn [universal_newlines]. destruct (Ascii.eqb_spec c "013") as [->|]; done.
  - rewrite universal_newlines_pair.
    destruct (Ascii.eqb_spec c "013") as [->|Hc].
    + destruct (Ascii.eqb_spec c' "010") as [->|Hc'].
      * rewrite splitlines_break, IH1 by (done || by left). done.
      * rewrite splitlines_break, IH2 by (done || by left).
        rewrite splitlines_pair by done.
        by destruct (Ascii.eqb_spec c' "010").
    + assert (Ascii.eqb c "013" = false) as Hr
        by (by destruct (Ascii.eqb_spec c "013")).
      destruct (is_line_break c) eqn:Eb.
      * rewrite !(splitlines_break c) by (done || by left). by rewrite IH2.
      * rewrite !(splitlines_plain c) by done. by rewrite IH2.
Qed.

Lemma log_lines_splitlines (text : string) : log_lines text = splitlines text.
Proof. apply splitlines_universal. Qed.

Lemma splitlines_line (l rest : string) :
  line_free l = true → splitlines (l +:+ LF +:+ rest) = l :: splitlines rest.
Proof.
  induction l as [|c l IH]; intros Hl.
  - rewrite str_app_nil_l. unfold LF. rewrite str_app_cons, str_app_nil_l.
    apply splitlines_break; [done|by left].
  - cbn [line_free] in Hl. apply andb_true_iff in Hl as [Hc Hl].
    apply negb_true_iff in Hc.
    by rewrite str_app_cons, splitlines_plain, IH.
Qed.

Lemma starts_lf_line (l rest : string) :
  line_free l = true → l ≠ "" → starts_lf (l +:+ rest) = false.
Proof.
  destruct l as [|c l]; [done|]. cbn [line_free]. intros [Hc _]%andb_true_iff _.
  apply negb_true_iff in Hc. rewrite str_app_cons. cbn [starts_lf].
  by apply line_feed_breaks.
Qed.

Lemma ends_lines_tail (c : ascii) (s : string) :
  s ≠ "" → ends_lines (String c s) = ends_lines s.
Proof. by destruct s. Qed.

Lemma splitlines_app (a b : string) :
  ends_lines a = true → starts_lf b = false →
  splitlines (a +:+ b) = splitlines a ++ splitlines b.
Proof.
  intros Ha Hb. revert Ha.
  induction a as [|c|c c' s IH1 IH2] using string_pair_ind; intros Ha.
  - by rewrite str_app_nil_l.
  - cbn [ends_lines] in Ha. rewrite str_app_cons, str_app_nil_l.
    rewrite splitlines_break by (done || by right). cbn [splitlines].
    by rewrite Ha.
  - rewrite ends_lines_tail in Ha by done. rewrite !str_app_cons.
    destruct (is_line_break c) eqn:Eb.
    + rewrite !splitlines_pair by done.
      destruct (Ascii.eqb c "013" && Ascii.eqb c' "010") eqn:E.
      * rewrite IH1; [done|]. destruct s as [|c2 s2]; [done|].
        by rewrite ends_lines_tail in Ha.
      * rewrite <- str_app_cons, IH2 by done. done.
    + rewrite !(splitlines_plain c) by done.
      rewrite <- str_app_cons, IH2 by done.
      pose proof (splitlines_nonempty c' s).
      by destruct (splitlines (String c' s)).
Qed.

Lemma splitlines_glue (a b l : string) (ls : list string) :
  ends_lines a = false → splitlines b = l :: ls →
  splitlines (a +:+ b)
    = removelast (splitlines a) ++ (List.last (splitlines a) "" +:+ l) :: ls.
Proof.
  intros Ha Hb. revert Ha.
  induction a as [|c|c c' s IH1 IH2] using string_pair_ind; intros Ha.
  - done.
  - cbn [ends_lines] in Ha. rewrite str_app_cons, str_app_nil_l.
    rewrite splitlines_plain, Hb by done. cbn [splitlines]. by rewrite Ha.
  - rewrite ends_lines_tail in Ha by done. rewrite !str_app_cons.
    destruct (is_line_break c) eqn:Eb.
    + rewrite !splitlines_pair by done.
      destruct (Ascii.eqb c "013" && Ascii.eqb c' "010") eqn:E.
      * apply andb_true_iff in E as [_ E2]. apply Ascii.eqb_eq in E2. subst c'.
        destruct s as [|c2 s2]; [done|].
        rewrite ends_lines_tail in Ha by done. rewrite IH1 by done.
        pose proof (splitlines_nonempty c2 s2).
        by destruct (splitlines (String c2 s2)).
      * rewrite <- str_app_cons, IH2 by done.
        pose proof (splitlines_nonempty c' s).
        by destruct (splitlines (String c' s)).
    + rewrite !(splitlines_plain c) by done.
      rewrite <- str_app_cons, IH2 by done.
      pose proof (splitlines_nonempty c' s).
      destruct (splitlines (String c' s)) as [|x [|y ys]]; [done|done|done].
Qed.

Lemma splitlines_line_free (s l : string) :
  l ∈ splitlines s → line_free l = true.
Proof.
  revert l. induction s as [|c|c c' s IH1 IH2] using string_pair_ind; intros l.
  - by intros ?%elem_of_nil.
  - cbn [splitlines]. destruct (is_line_break c) eqn:Eb;
      intros ->%list_elem_of_singleton; [done|]. cbn. by rewrite Eb.
  - destruct (is_line_break c) eqn:Eb.
    + rewrite splitlines_pair by done. destruct (_ && _);
        intros [->|Hl]%elem_of_cons; try done; eauto.
    + rewrite splitlines_plain by done.
      destruct (splitlines (String c' s)) as [|x xs] eqn:Ex.
      * intros ->%list_elem_of_singleton. cbn. by rewrite Eb.
      * intros [->|Hl]%elem_of_cons.
        -- cbn [line_free]. rewrite Eb. cbn [negb andb]. apply IH2. by left.
        -- apply IH2. by right.
Qed.

Lemma line_free_lstrip (s : string) :
  line_free s = true → line_free (PyStr.lstrip s) = true.
Proof.
  induction s as [|c s IH]; [done|]. cbn [PyStr.lstrip].
  destruct (PyStr.is_space c); [|done]. cbn [line_free].
  intros [_ H]%andb_true_iff. by apply IH.
Qed.

Lemma line_free_rstrip (s : string) :
  line_free s = true → line_free (PyStr.rstrip s) = true.
Proof.
  induction s as [|c s IH]; [done|]. cbn [line_free].
  intros [Hc Hs]%andb_true_iff. rewrite rstrip_cons.
  specialize (IH Hs). destruct (PyStr.rstrip s).
  - destruct (PyStr.is_space c); [done|]. cbn. by rewrite Hc.
  - cbn [line_free]. by rewrite Hc.
Qed.

Lemma line_free_strip (s : string) :
  line_free s = true → line_free (PyStr.strip s) = true.
Proof. intros H. by apply line_free_rstrip, line_free_lstrip. Qed.

End Lines.

Lemma elem_of_load_uploaded_set (lines : list string) (act_id : string) :
  (act_id ∈ load_uploaded_set lines ↔
   act_id ≠ "" ∧ ∃ line, line ∈ lines ∧ PyStr.strip line = act_id) ∧
  (act_id ∈ load_uploaded_set lines → PyStr.strip act_id = act_id).
Proof.
  unfold load_uploaded_set. rewrite elem_of_list_to_set, elem_of_stripped.
  split; [done|]. intros (_ & line & _ & <-). apply strip_strip.
Qed.

(** The lines of a ledger file to which an identifier has been written. *)
Lemma log_lines_written (text act_id more : string) :
  ends_lines text = true → line_free act_id = true → act_id ≠ "" →
  log_lines (text +:+ act_id +:+ LF +:+ more)
    = log_lines text ++ act_id :: log_lines more.
Proof.
  intros Ht Hl Hne. rewrite !log_lines_splitlines.
  rewrite splitlines_app by (done || by apply starts_lf_line).
  by rewrite splitlines_line.
Qed.

(** X15. The set read from the ledger file holds exactly the non-empty
    stripped lines of the file. So every identifier in it is non-empty and
    has no white space at either end. *)
Theorem ledger_set_holds_stripped_lines (lines : list string) (act_id : string) :
  (act_id ∈ load_uploaded_set lines ↔
   act_id ≠ "" ∧ ∃ line, line ∈ lines ∧ PyStr.strip line = act_id) ∧
  (act_id ∈ load_uploaded_set lines → PyStr.strip act_id = act_id).
Proof. apply elem_of_load_uploaded_set. Qed.

Lemma ledger_set_holds_stripped_lines_witness :
  PyStr.strip "42" = "42".
Proof.
  apply (proj2 (ledger_set_holds_stripped_lines ["41"; " 42 "; ""] "42")).
  apply (proj1 (ledger_set_holds_stripped_lines ["41"; " 42 "; ""] "42")).
  split; [done|]. exists " 42 ". split; [|reflexivity]. right. by left.
Defined.

(** X16. Once the identifier of a file has been written to a ledger file
    that was empty or ended with a line break, a later run without [--force]
    skips the file without sending anything, whatever has been written since,
    provided the identifier is non-empty, has no white space at either end
    and no line-break character inside. An identifier with white space at
    an end or a line-break character inside is never found in the ledger
    set, whatever the file holds, so the ledger never stops such a file.
    When the ledger file does not end with a line break, the identifier is
    written onto its last line. *)
Theorem recorded_file_is_skipped_next_run (cfg : Config)
    (activity_meta : gmap string ActivityMeta) (target_ids : option (gset string))
    (fname : string) :
  (∀ text more c st,
     ends_lines text = true →
     line_free (infer_activity_id_from_filename fname) = true →
     PyStr.strip (infer_activity_id_from_filename fname)
       = infer_activity_id_from_filename fname →
     infer_activity_id_from_filename fname ≠ "" →
     force cfg = false →
     filtered_out target_ids (infer_activity_id_from_filename fname) = false →
     process_file cfg activity_meta target_ids
         (load_uploaded_set
            (log_lines (text +:+ infer_activity_id_from_filename fname +:+ LF +:+ more)))
         fname c st
       = Some (Ret {| successes := successes c; skipped := S (skipped c);
                      errors := errors c |}, st)) ∧
  (∀ text,
     PyStr.strip (infer_activity_id_from_filename fname)
       ≠ infer_activity_id_from_filename fname
     ∨ line_free (infer_activity_id_from_filename fname) = false →
     infer_activity_id_from_filename fname ∉ load_uploaded_set (log_lines text)) ∧
  (∀ text more,
     ends_lines text = false →
     line_free (infer_activity_id_from_filename fname) = true →
     log_lines (text +:+ infer_activity_id_from_filename fname +:+ LF +:+ more)
       = removelast (log_lines text)
         ++ (List.last (log_lines text) "" +:+ infer_activity_id_from_filename fname)
            :: log_lines more).
Proof.
  split; [|split].
  - intros text more c st Hends Hline Hstrip Hne Hforce Hf. unfold process_file.
    rewrite Hf, Hforce. rewrite bool_decide_eq_true_2; [done|].
    apply elem_of_load_uploaded_set. split; [done|].
    eexists. split; [|exact Hstrip].
    rewrite log_lines_written by done. apply elem_of_app. right. by left.
  - intros text Hbad Hin.
    pose proof (proj2 (elem_of_load_uploaded_set _ _) Hin) as Hstrip.
    destruct Hbad as [Hbad|Hbad]; [done|].
    apply elem_of_load_uploaded_set in Hin as (_ & line & Hline & Hid).
    rewrite log_lines_splitlines in Hline.
    apply splitlines_line_free, line_free_strip in Hline. congruence.
  - intros text more Hends Hline. rewrite !log_lines_splitlines.
    apply splitlines_glue; [done|]. by apply splitlines_line.
Qed.

Lemma recorded_file_is_skipped_next_run_witness :
  process_file (sample_cfg None false) one_file_index None
      (load_uploaded_set (log_lines (ledger_text ["41"] +:+ "42" +:+ LF +:+ "")))
      "42.fit" no_counts (start JNull [] [] ["41"; "42"])
    = Some (Ret {| successes := 0; skipped := 1; errors := 0 |},
            start JNull [] [] ["41"; "42"]) ∧
  (infer_activity_id_from_filename "42 .fit"
     ∉ load_uploaded_set (log_lines (ledger_text ["42 "]))) ∧
  log_lines ("41" +:+ "42" +:+ LF +:+ "")
    = removelast (log_lines "41")
      ++ (List.last (log_lines "41") "" +:+ "42") :: log_lines "".
Proof.
  split; [|split].
  - apply (proj1 (recorded_file_is_skipped_next_run (sample_cfg None false)
                    one_file_index None "42.fit") (ledger_text ["41"]) ""); done.
  - apply (proj1 (proj2 (recorded_file_is_skipped_next_run (sample_cfg None false)
                           one_file_index None "42 .fit")) (ledger_text ["42 "])).
    left. done.
  - apply (proj2 (proj2 (recorded_file_is_skipped_next_run (sample_cfg None false)
                           one_file_index None "42.fit")) "41" ""); done.
Defined.

(** ** The allow-list *)

Lemma filtered_out_only (s : string) (act_id : string) :
  filtered_out (parse_only (Some s)) act_id
    = negb (bool_decide (only_ids s = [])) && negb (bool_decide (act_id ∈ only_ids s)).
Proof.
  unfold parse_only, only_ids. destruct s as [|c s]; [done|].
  cbn [filtered_out]. set (ids := List.filter _ _). f_equal; f_equal.
  - apply bool_decide_ext. split.
    + intros H. destruct ids as [|x ids]; [done|].
      assert (x ∈ (∅ : gset string)) as Hx; [|by apply elem_of_empty in Hx].
      rewrite <- H. apply elem_of_list_to_set. by left.
    + by intros ->.
  - apply bool_decide_ext. apply elem_of_list_to_set.
Qed.

(** X17. An [--only] value lets through the identifiers it lists, taken
    between the commas and stripped of white space, and no other, as soon
    as it lists one. A value that lists none, made of commas and white
    space only, restricts nothing. *)
Theorem only_restricts_to_listed (s : string) :
  ((∀ part, part ∈ PyStr.split "," s → PyStr.strip part = "") →
   ∀ act_id, filtered_out (parse_only (Some s)) act_id = false) ∧
  (∀ part, part ∈ PyStr.split "," s → PyStr.strip part ≠ "" →
     filtered_out (parse_only (Some s)) (PyStr.strip part) = false ∧
     ∀ act_id,
       (∀ part', part' ∈ PyStr.split "," s → PyStr.strip part' ≠ act_id) →
       filtered_out (parse_only (Some s)) act_id = true).
Proof.
  split.
  - intros Hblank act_id. rewrite filtered_out_only.
    rewrite (bool_decide_eq_true_2 (only_ids s = [])); [done|].
    destruct (only_ids s) as [|x ids] eqn:E; [done|].
    assert (x ∈ only_ids s) as Hx by (rewrite E; by left).
    apply elem_of_stripped in Hx as (Hne & part & Hin & <-).
    by rewrite Hblank in Hne.
  - intros part Hin Hne.
    assert (PyStr.strip part ∈ only_ids s) as Hlisted.
    { apply elem_of_stripped. eauto. }
    split.
    + rewrite filtered_out_only.
      rewrite (bool_decide_eq_true_2 (PyStr.strip part ∈ only_ids s)) by done.
      by rewrite andb_false_r.
    + intros act_id Hother. rewrite filtered_out_only.
      rewrite bool_decide_eq_false_2, bool_decide_eq_false_2; [done| |].
      * intros (_ & part' & Hin' & E)%elem_of_stripped. by apply (Hother part').
      * intros E. rewrite E in Hlisted. by apply elem_of_nil in Hlisted.
Qed.

Lemma only_restricts_to_listed_witness :
  (∀ act_id, filtered_out (parse_only (Some " , ")) act_id = false) ∧
  filtered_out (parse_only (Some "41, 42")) "42" = false ∧
  filtered_out (parse_only (Some "41, 42")) "43" = true.
Proof.
  split; [|split].
  - apply (proj1 (only_restricts_to_listed " , ")).
    intros part Hin. cbn in Hin.
    repeat (apply elem_of_cons in Hin as [->|Hin]); try reflexivity.
    by apply elem_of_nil in Hin.
  - apply (proj2 (only_restricts_to_listed "41, 42") " 42"); [|done].
    cbn. right. by left.
  - apply (proj2 (only_restricts_to_listed "41, 42") " 42"); [|done|].
    + cbn. right. by left.
    + intros part Hin. cbn in Hin.
      repeat (apply elem_of_cons in Hin as [->|Hin]); try done.
      by apply elem_of_nil in Hin.
Defined.

(** ** More on the metadata index *)

(** X18. Rows that are added after others never change what the index holds
    for the keys of the earlier rows: a key that reads a record keeps
    reading that record, whatever rows follow. *)
Theorem index_is_stable_under_new_rows (media_base : string)
    (rows more : list CsvRow) (k : string) (meta : ActivityMeta) :
  load_activity_metadata media_base rows !! k = Some meta →
  load_activity_metadata media_base (rows ++ more) !! k = Some meta.
Proof.
  intros H. unfold load_activity_metadata in *.
  by rewrite fold_left_app, lookup_fold_index, H.
Qed.

Lemma index_is_stable_under_new_rows_witness :
  load_activity_metadata "."
    ([csv_row "42" "Morning ride" "42.fit.gz"]
     ++ [csv_row "42" "Evening ride" ""; csv_row "7" "Other" "42.gpx"]) !! "42"
  = Some (row_meta "." (csv_row "42" "Morning ride" "42.fit.gz")).
Proof.
  apply (index_is_stable_under_new_rows "." [csv_row "42" "Morning ride" "42.fit.gz"]).
  by vm_compute.
Defined.

(** X19. Every record of the index comes from a row of the file that
    declares an identifier: the key is that identifier or the stem of the
    row's file name, and the record carries the row's identifier, which is
    not empty. *)
Theorem index_records_come_from_rows (media_base : string) (rows : list CsvRow)
    (k : string) (meta : ActivityMeta) :
  load_activity_metadata media_base rows !! k = Some meta →
  ∃ row,
    row ∈ rows ∧
    meta = row_meta media_base row ∧
    activity_id meta = cell (col_activity_id row) ∧
    activity_id meta ≠ "" ∧
    (k = activity_id meta ∨ row_file_id row = Some k).
Proof.
  rewrite lookup_index. unfold first_claim.
  destruct (List.find (claims k) rows) as [row|] eqn:E; [|done].
  intros [= <-]. apply List.find_some in E as [Hin Hk].
  exists row. split; [by apply list_elem_of_In|]. split; [done|]. split; [done|].
  unfold claims, row_keys, row_kept in Hk. apply bool_decide_eq_true in Hk.
  cbn [row_meta activity_id].
  destruct (cell (col_activity_id row)) as [|c s] eqn:Eid;
    [by apply elem_of_nil in Hk|].
  split; [done|]. cbn [PyStr.nonempty] in Hk.
  apply elem_of_cons in Hk as [->|Hk]; [by left|]. right.
  destruct (row_file_id row) as [file_id|]; cbn in Hk.
  - by apply list_elem_of_singleton in Hk as ->.
  - by apply elem_of_nil in Hk.
Qed.

Lemma index_records_come_from_rows_witness :
  ∃ row,
    row ∈ [csv_row "9001" "Morning ride" "activities/42.fit.gz"] ∧
    one_file_meta = row_meta "." row ∧
    activity_id one_file_meta = cell (col_activity_id row) ∧
    activity_id one_file_meta ≠ "" ∧
    ("42" = activity_id one_file_meta ∨ row_file_id row = Some "42").
Proof.
  apply (index_records_come_from_rows "."
           [csv_row "9001" "Morning ride" "activities/42.fit.gz"] "42" one_file_meta).
  by vm_compute.
Defined.

(** ** A dry run counts what it would upload *)

Section DryCount.

Variable cfg : Config.
Hypothesis dry : dry_run cfg = true.

Lemma upload_photos_dry_held (trip_id : json) (media : list string) :
  ∀ (success : nat) (st : State),
    truthy (auth_token st) = true →
    ∃ n, upload_photos cfg trip_id media success st = Some (Ret n, st).
Proof.
  induction media as [|m rest IH]; intros success st Ht; [by eexists|].
  cbn [upload_photos]. unfold bind at 1. unfold try_except, upload_photo.
  unfold bind at 1. unfold lift at 1.
  destruct (path_exists cfg m) as [[]|e]; cbn [negb ret]; [|by apply IH..].
  unfold bind at 1. rewrite ensure_auth_held by done.
  unfold bind at 1. unfold get_token at 1.
  destruct (file_ok cfg m); cbn [negb raise]; [|by apply IH].
  rewrite dry. cbn [ret]. by apply IH.
Qed.

Lemma upload_media_dry_held (trip_id : json) (media : list string) (st : State) :
  truthy (auth_token st) = true →
  upload_media_for_trip cfg trip_id media st = Some (Ret tt, st).
Proof.
  intros Ht. unfold upload_media_for_trip. destruct media as [|m rest]; [done|].
  destruct (upload_photos_dry_held trip_id (m :: rest) 0%nat st Ht) as [n Hn].
  unfold bind. by rewrite Hn.
Qed.

End DryCount.

(** X20. In a dry run, a file that would be uploaded (the allow-list and the
    ledger let it through, it has a record, it opens, and a token or the
    credentials are there) is counted as a success when the tests of its
    media paths all return; when one of them raises, the exception leaves
    the loop and the file is not counted. Either way nothing is sent and the
    ledger file is not written: the only trace is the placeholder token,
    taken when none was held. *)
Theorem dry_run_counts_a_success (cfg : Config)
    (activity_meta : gmap string ActivityMeta)
    (target_ids : option (gset string)) (already_uploaded : gset string)
    (fname : string) (meta : ActivityMeta) (c : Counts) (st : State) :
  due cfg activity_meta target_ids already_uploaded fname meta →
  dry_run cfg = true →
  truthy (auth_token st) || is_set (email cfg) && is_set (password cfg) = true →
  file_ok cfg fname = true →
  process_file cfg activity_meta target_ids already_uploaded fname c st
    = Some (match existing (path_exists cfg) (media_paths meta) with
            | Ret _ => Ret {| successes := S (successes c); skipped := skipped c;
                              errors := errors c |}
            | Raise e => Raise e
            end,
            {| auth_token := if truthy (auth_token st) then auth_token st
                             else JStr "DUMMY_TOKEN";
               clock := clock st; replies := replies st; events := events st;
               uploaded_log := uploaded_log st |}).
Proof.
  intros Hdue Hdry Hcred Hfile.
  set (st0 := {| auth_token := if truthy (auth_token st) then auth_token st
                               else JStr "DUMMY_TOKEN";
                 clock := clock st; replies := replies st; events := events st;
                 uploaded_log := uploaded_log st |}).
  assert (ensure_auth cfg st = Some (Ret tt, st0)) as Hauth.
  { unfold ensure_auth, bind, get_token. subst st0.
    destruct (truthy (auth_token st)) eqn:Et; [by destruct st|].
    cbn [orb] in Hcred. by rewrite Hcred, Hdry. }
  assert (truthy (auth_token st0) = true) as Ht0.
  { by destruct (ensure_auth_ok _ _ _ Hauth). }
  assert (upload_trip_from_file cfg fname (name meta) (description meta) true
            (poll_interval cfg) (poll_timeout cfg) st = Some (Ret (JNum (-1)), st0))
    as Hup.
  { unfold upload_trip_from_file. unfold bind at 1. rewrite Hauth.
    unfold bind, get_token. by rewrite Hfile, Hdry. }
  destruct (existing (path_exists cfg) (media_paths meta)) as [media|e] eqn:Hex.
  - rewrite (turn_upload_success cfg _ _ _ _ meta c st st0 st0 (JNum (-1)) media);
      try done.
    + by rewrite Hdry.
    + by apply upload_media_dry_held.
  - by apply (turn_upload_aborts cfg _ _ _ _ meta c st st0 (JNum (-1)) e).
Qed.

Lemma dry_run_counts_a_success_witness :
  process_file (sample_cfg None true) one_file_index None {["41"]} "42.fit" no_counts
      (start JNull [] [] ["41"])
    = Some (Ret {| successes := 1; skipped := 0; errors := 0 |},
            start (JStr "DUMMY_TOKEN") [] [] ["41"]).
Proof.
  apply (dry_run_counts_a_success (sample_cfg None true) one_file_index None {["41"]}
           "42.fit" one_file_meta no_counts (start JNull [] [] ["41"]));
    try reflexivity.
  split; [reflexivity|]. split; [|by vm_compute].
  right. intros H%elem_of_singleton. by vm_compute in H.
Defined.

(** ** The exit status of a run *)

(** X21. Without an API key [main] exits with 2 at once, whatever the files
    are. With a key, an exception met while [activities.csv] is read (the
    file is missing, or it does not decode or parse) leaves [main] before
    anything is sent or written. A run that returns without a summary has
    changed nothing and exits with 2, for want of a key, or with 0, for want
    of a file to process. A run that returns with a summary has counted each
    discovered file that the allow-list lets through once, and exits with 0
    when no file failed and with 1 when one did. *)
Theorem main_exit_status (cfg : Config) (csv : outcome (list CsvRow))
    (listing : list string) (st : State) :
  (PyStr.nonempty (api_key cfg) = false →
   main cfg csv listing st = Some (Ret (None, 2), st)) ∧
  (∀ e, PyStr.nonempty (api_key cfg) = true → csv = Raise e →
        main cfg csv listing st = Some (Raise e, st)) ∧
  (∀ summary code st',
     main cfg csv listing st = Some (Ret (summary, code), st') →
     match summary with
     | None =>
         st' = st ∧
         (PyStr.nonempty (api_key cfg) = false ∧ code = 2 ∨
          PyStr.nonempty (api_key cfg) = true ∧ (∃ rows, csv = Ret rows) ∧
          discover_activity_files listing = [] ∧ code = 0)
     | Some c =>
         PyStr.nonempty (api_key cfg) = true ∧ (∃ rows, csv = Ret rows) ∧
         tally c = length (let_through (parse_only (only cfg))
                             (discover_activity_files listing)) ∧
         (errors c = 0%nat ∧ code = 0 ∨ (0 < errors c)%nat ∧ code = 1)
     end).
Proof.
  unfold main. destruct (PyStr.nonempty (api_key cfg)); cbn [negb].
  2:{ split; [done|]. split; [done|]. intros summary code st' [= <- <- <-].
      split; [done|]. by left. }
  split; [done|]. split.
  { intros e _ ->. done. }
  intros summary code st'. destruct csv as [rows|e]; [|done].
  unfold bind at 1. unfold lift at 1.
  unfold bind at 1. unfold read_log at 1.
  destruct (discover_activity_files listing) as [|f files] eqn:Ef.
  { intros [= <- <- <-]. split; [done|]. right. by eauto. }
  unfold bind.
  destruct (process_files _ _ _ _ _ _ st) as [[[c'|e] st1]|] eqn:E; [|done|done].
  destruct (process_files_counts _ _ _ _ _ _ _ _ _ E) as (Ht & _).
  intros [= <- <- <-]. split; [done|]. split; [by eauto|].
  split; [by rewrite Ht|].
  destruct (errors c') as [|n]; [by left|right]. split; [lia|done].
Qed.

Lemma main_exit_status_witness :
  main (sample_cfg None false) (Raise ValueError) ["42.fit"] one_file_run
    = Some (Raise ValueError, one_file_run) ∧
  PyStr.nonempty (api_key (sample_cfg None false)) = true ∧
  (∃ rows, Ret [csv_row "42" "Morning ride" "42.fit"] = Ret rows) ∧
  tally {| successes := 1; skipped := 1; errors := 0 |}
    = length (let_through (parse_only None)
                (discover_activity_files ["42.fit"; "notes.txt"; "41.fit"])) ∧
  (errors {| successes := 1; skipped := 1; errors := 0 |} = 0%nat ∧ 0 = 0 ∨
   (0 < errors {| successes := 1; skipped := 1; errors := 0 |})%nat ∧ 0 = 1).
Proof.
  split.
  - apply (proj1 (proj2 (main_exit_status (sample_cfg None false) (Raise ValueError)
                           ["42.fit"] one_file_run)) ValueError); reflexivity.
  - apply (proj2 (proj2 (main_exit_status (sample_cfg None false)
                           (Ret [csv_row "42" "Morning ride" "42.fit"])
                           ["42.fit"; "notes.txt"; "41.fit"] one_file_run))
             (Some {| successes := 1; skipped := 1; errors := 0 |}) 0 one_file_done).
    by vm_compute.
Defined.

(** ** Letter case *)

Section Case.

Lemma lower_char_idem (c : ascii) : lower_char (lower_char c) = lower_char c.
Proof. destruct c as [[] [] [] [] [] [] [] []]; vm_compute; reflexivity. Qed.

Lemma is_space_lower_char (c : ascii) :
  PyStr.is_space (lower_char c) = PyStr.is_space c.
Proof. destruct c as [[] [] [] [] [] [] [] []]; vm_compute; reflexivity. Qed.

Lemma lower_idem (s : string) : lower (lower s) = lower s.
Proof.
  induction s as [|c s IH]; [done|]. cbn [lower]. by rewrite lower_char_idem, IH.
Qed.

Lemma length_lower (s : string) : String.length (lower s) = String.length s.
Proof. induction s as [|c s IH]; [done|]. cbn [lower String.length]. by rewrite IH. Qed.

Lemma nonempty_lower (s : string) : PyStr.nonempty (lower s) = PyStr.nonempty s.
Proof. by destruct s. Qed.

Lemma space_free_lower (s : string) : space_free (lower s) = space_free s.
Proof.
  induction s as [|c s IH]; [done|].
  cbn [lower space_free]. by rewrite is_space_lower_char, IH.
Qed.

Lemma space_free_rstrip (s : string) : space_free s = true → PyStr.rstrip s = s.
Proof.
  induction s as [|c s IH]; [done|]. cbn [space_free].
  intros [Hc Hs]%andb_true_iff. apply negb_true_iff in Hc.
  rewrite rstrip_cons, (IH Hs), Hc. by destruct s.
Qed.

Lemma space_free_strip (s : string) : space_free s = true → PyStr.strip s = s.
Proof.
  intros H. unfold PyStr.strip.
  replace (PyStr.lstrip s) with s; [by apply space_free_rstrip|].
  destruct s as [|c s]; [done|]. cbn [space_free] in H.
  apply andb_true_iff in H as [Hc _]. apply negb_true_iff in Hc.
  cbn [PyStr.lstrip]. by rewrite Hc.
Qed.

Lemma normalise_lower (s : string) : normalise (lower s) = normalise s.
Proof. unfold normalise. by rewrite lower_idem. Qed.

Lemma normalise_normal (s : string) :
  s ≠ "" →
  normalise s ≠ "ebikeride" ∧ lower (normalise s) = normalise s ∧ normalise s ≠ "".
Proof.
  intros Hs. unfold normalise.
  destruct (String.eqb_spec (lower s) "ebikeride") as [E|E]; [done|].
  split; [done|]. split; [apply lower_idem|].
  intros E'. apply Hs. by destruct s.
Qed.

End Case.

(** X22. The variable [RWGPS_DRY_RUN] is read without regard to letter
    case, but literally otherwise: it turns the dry run on only when it is
    one of the words [1], [true], [yes] and [on], so at most four characters
    long and with no white space in or around it. *)
Theorem dry_run_variable_is_read_literally (flag : bool) (v : string) :
  main_dry_run flag (Some (lower v)) = main_dry_run flag (Some v) ∧
  (main_dry_run false (Some v) = true →
   lower v ∈ ["1"; "true"; "yes"; "on"] ∧
   (String.length v ≤ 4)%nat ∧ space_free v = true ∧ PyStr.strip v = v).
Proof.
  split.
  { unfold main_dry_run, parse_bool. by rewrite lower_idem. }
  unfold main_dry_run, parse_bool. rewrite orb_false_r. cbn [orb].
  intros H%bool_decide_eq_true.
  assert (lower v ∈ ["1"; "true"; "yes"; "on"]) as Hin.
  { rewrite !elem_of_union, !elem_of_singleton in H.
    rewrite !elem_of_cons. tauto. }
  split; [done|].
  assert ((String.length (lower v) ≤ 4)%nat ∧ space_free (lower v) = true)
    as [Hlen Hsp].
  { rewrite !elem_of_cons, elem_of_nil in Hin.
    destruct Hin as [-> | [-> | [-> | [-> | []]]]]; split; cbn; (lia || done). }
  rewrite length_lower in Hlen. rewrite space_free_lower in Hsp.
  split; [done|]. split; [done|]. by apply space_free_strip.
Qed.

Lemma dry_run_variable_is_read_literally_witness :
  lower "Yes" ∈ ["1"; "true"; "yes"; "on"] ∧
  (String.length "Yes" ≤ 4)%nat ∧ space_free "Yes" = true ∧
  PyStr.strip "Yes" = "Yes".
Proof.
  apply (proj2 (dry_run_variable_is_read_literally false "Yes")).
  by vm_compute.
Defined.

(** ** Paths *)

Section Paths.

Lemma split_nonempty (sep : ascii) (s : string) : PyStr.split sep s ≠ [].
Proof.
  destruct s as [|c s]; [done|]. cbn [PyStr.split].
  destruct (Ascii.eqb c sep); [done|]. by destruct (PyStr.split sep s).
Qed.

Lemma split_slash_free (s : string) :
  slash_free s = true → PyStr.split "/" s = [s].
Proof.
  induction s as [|c s IH]; [done|]. cbn [slash_free PyStr.split].
  intros [Hc Hs]%andb_true_iff. apply negb_true_iff in Hc.
  by rewrite Hc, (IH Hs).
Qed.

Lemma split_app (a n : string) :
  PyStr.split "/" (a +:+ "/" +:+ n) = PyStr.split "/" a ++ PyStr.split "/" n.
Proof.
  induction a as [|c a IH].
  - by rewrite str_app_nil_l, str_app_cons, str_app_nil_l.
  - rewrite str_app_cons. cbn [PyStr.split]. rewrite IH.
    destruct (Ascii.eqb c "/"); [done|].
    pose proof (split_nonempty "/" a).
    by destruct (PyStr.split "/" a).
Qed.

Lemma basename_app (a n : string) :
  slash_free n = true → basename (a +:+ "/" +:+ n) = n.
Proof.
  intros Hn. unfold basename. rewrite split_app, (split_slash_free _ Hn).
  apply List.last_last.
Qed.

Lemma path_name_app (a n : string) :
  slash_free n = true → n ≠ "" → n ≠ "." → PyStr.path_name (a +:+ "/" +:+ n) = n.
Proof.
  intros Hn H0 H1. unfold PyStr.path_name.
  rewrite split_app, (split_slash_free _ Hn), List.filter_app. cbn [List.filter].
  destruct (String.eqb_spec n "") as [|_]; [done|].
  destruct (String.eqb_spec n ".") as [|_]; [done|].
  cbn [orb negb]. apply List.last_last.
Qed.

Lemma join_slash_free (a n : string) :
  PyStr.nonempty a = true → PyStr.endswith a "/" = false → slash_free n = true →
  os_path_join a n = a +:+ "/" +:+ n.
Proof.
  intros Ha Hend Hn. unfold os_path_join. rewrite Ha, Hend. cbn [negb orb].
  destruct n as [|c n]; [done|]. cbn [slash_free] in Hn.
  apply andb_true_iff in Hn as [Hc _]. apply negb_true_iff in Hc.
  destruct (Ascii.eqb_spec c "/") as [->|Hne]; [done|].
  destruct c as [[] [] [] [] [] [] [] []]; try done.
Qed.

Lemma slash_free_app (a b : string) :
  slash_free (a +:+ b) = slash_free a && slash_free b.
Proof.
  induction a as [|c a IH]; [done|].
  rewrite str_app_cons. cbn [slash_free]. by rewrite IH, andb_assoc.
Qed.

Lemma endswith_longer (stem a b : string) :
  (String.length b ≤ String.length a)%nat →
  PyStr.endswith a b = false →
  PyStr.endswith (stem +:+ a) b = false.
Proof.
  intros Hlen Hab. destruct (PyStr.endswith (stem +:+ a) b) eqn:E; [|done].
  apply endswith_inv in E as [stem' E]. symmetry in E.
  apply tails_nest in E; [congruence|done].
Qed.

Lemma single_ext_suffix (stem ext : string) :
  ext ∈ [".fit"; ".gpx"] → stem ≠ "" → path_suffix (stem +:+ ext) = ext.
Proof.
  intros Hext Hstem. unfold path_suffix.
  assert (last_dot_tail ext = Some ext ∧ String.length ext = 4%nat) as [Hd Hlen].
  { rewrite !elem_of_cons, elem_of_nil in Hext.
    by destruct Hext as [-> | [-> | []]]. }
  rewrite (last_dot_tail_app _ _ _ Hd), str_length_app, Hlen.
  destruct stem as [|c stem]; [done|]. cbn [String.length].
  destruct (4 <? S (String.length stem) + 4)%nat eqn:E; [done|].
  apply Nat.ltb_ge in E. lia.
Qed.

End Paths.

(** ** What [sort.py] moves *)

Section Sorting.

Variable env : Env.

Lemma sort_entry_moved (name src dst : string) :
  sort_entry env name = Moved src dst →
  src = os_path_join source_dir name ∧
  isfile env src = true ∧
  ∃ activity_type,
    activity_type ∈ ["cycling"; "running"; "walking"] ∧
    (PyStr.endswith name ".fit" = true ∧
     determine_activity_type_fit (fit_file env src) = Ret activity_type ∨
     PyStr.endswith name ".fit" = false ∧ PyStr.endswith name ".gpx" = true ∧
     determine_activity_type_gpx (gpx_file env src) = Ret activity_type) ∧
    dst = os_path_join (source_dir +:+ "/" +:+ activity_type) (basename src) ∧
    shutil_move env src dst = Ret tt.
Proof.
  unfold sort_entry. set (p := os_path_join source_dir name).
  destruct (isfile env p) eqn:Hfile; [|done].
  assert (∀ o : outcome string,
            match (activity_type <~ o ;;
                   if bool_decide (activity_type ∈ ["cycling"; "running"; "walking"])
                   then move_file env p activity_type
                   else Ret (Uncategorised activity_type name)) with
            | Ret line => line
            | Raise e => ErrorProcessing name e
            end = Moved src dst →
            src = p ∧ ∃ activity_type,
              activity_type ∈ ["cycling"; "running"; "walking"] ∧
              o = Ret activity_type ∧
              dst = os_path_join (source_dir +:+ "/" +:+ activity_type) (basename p) ∧
              shutil_move env p dst = Ret tt) as Hgen.
  { intros [t|e]; cbn [obind]; [|done].
    case_bool_decide as Ht; [|done].
    unfold move_file.
    assert (∃ folder,
              (if String.eqb t "cycling" then Some cycling_dir
               else if String.eqb t "running" then Some running_dir
               else if String.eqb t "walking" then Some walking_dir else None)
              = Some folder ∧ folder = source_dir +:+ "/" +:+ t)
      as (folder & -> & ->).
    { rewrite !elem_of_cons, elem_of_nil in Ht.
      destruct Ht as [-> | [-> | [-> | []]]]; by eexists. }
    cbn zeta.
    destruct (shutil_move env p _) as [[]|e] eqn:Hmove; cbn [obind]; [|done].
    intros [= <- <-]. split; [done|]. by exists t. }
  destruct (PyStr.endswith name ".fit") eqn:Efit.
  - intros (-> & t & Ht & Hdet & Hdst & Hmove)%Hgen.
    split; [done|]. split; [done|]. exists t. split; [done|].
    split; [by left|done].
  - destruct (PyStr.endswith name ".gpx") eqn:Egpx.
    + intros (-> & t & Ht & Hdet & Hdst & Hmove)%Hgen.
      split; [done|]. split; [done|]. exists t. split; [done|].
      split; [by right|done].
    + intros (_ & t & Ht & [= <-] & _)%Hgen.
      rewrite !elem_of_cons, elem_of_nil in Ht. by destruct Ht as [? | [? | [? | []]]].
Qed.

Lemma sort_entry_other (name : string) :
  PyStr.endswith name ".fit" = false → PyStr.endswith name ".gpx" = false →
  sort_entry env name
    = if isfile env (os_path_join source_dir name)
      then Uncategorised "unknown" name else NotAFile.
Proof.
  intros Hfit Hgpx. unfold sort_entry. rewrite Hfit, Hgpx.
  by destruct (isfile env _).
Qed.

End Sorting.

(** X23. [sort.py] moves a file only when it is a regular file of
    [activities] whose name ends in [.fit] or [.gpx] and whose type is read
    as cycling, running or walking; the file then goes to the folder of that
    type under its own name. The line for an unknown type in [move_file] is
    never printed by the loop. *)
Theorem sort_moves_into_type_folders (env : Env) (name : string) :
  (∀ file_path, sort_entry env name ≠ UnknownType file_path) ∧
  (∀ src dst,
     slash_free name = true →
     sort_entry env name = Moved src dst →
     src = "activities/" +:+ name ∧
     isfile env src = true ∧
     ∃ activity_type,
       activity_type ∈ ["cycling"; "running"; "walking"] ∧
       (PyStr.endswith name ".fit" = true ∧
        determine_activity_type_fit (fit_file env src) = Ret activity_type ∨
        PyStr.endswith name ".fit" = false ∧ PyStr.endswith name ".gpx" = true ∧
        determine_activity_type_gpx (gpx_file env src) = Ret activity_type) ∧
       dst = "activities/" +:+ activity_type +:+ "/" +:+ name ∧
       shutil_move env src dst = Ret tt).
Proof.
  split.
  - intros file_path. unfold sort_entry.
    destruct (isfile env _); [|done].
    destruct (if PyStr.endswith name ".fit" then _ else _) as [t|e];
      cbn [obind]; [|done].
    case_bool_decide as Ht; [|done].
    rewrite !elem_of_cons, elem_of_nil in Ht. unfold move_file.
    destruct Ht as [-> | [-> | [-> | []]]]; cbn [String.eqb Ascii.eqb Bool.eqb];
      cbn zeta; by destruct (shutil_move env _ _) as [[]|].
  - intros src dst Hname (-> & Hfile & t & Ht & Hdet & -> & Hmove)%sort_entry_moved.
    assert (os_path_join source_dir name = "activities/" +:+ name) as Hp.
    { by rewrite join_slash_free. }
    rewrite Hp in *. split; [done|]. split; [done|].
    exists t. split; [done|]. split; [done|].
    assert (os_path_join (source_dir +:+ "/" +:+ t) (basename ("activities/" +:+ name))
            = "activities/" +:+ t +:+ "/" +:+ name) as Hd.
    { change ("activities/" +:+ name) with ("activities" +:+ "/" +:+ name).
      rewrite basename_app by done.
      rewrite !elem_of_cons, elem_of_nil in Ht.
      destruct Ht as [-> | [-> | [-> | []]]]; by rewrite join_slash_free. }
    by rewrite Hd in *.
Qed.

Lemma sort_moves_into_type_folders_witness :
  "activities/ride.fit" = "activities/" +:+ "ride.fit" ∧
  isfile sample_env "activities/ride.fit" = true ∧
  ∃ activity_type,
    activity_type ∈ ["cycling"; "running"; "walking"] ∧
    (PyStr.endswith "ride.fit" ".fit" = true ∧
     determine_activity_type_fit (fit_file sample_env "activities/ride.fit")
       = Ret activity_type ∨
     PyStr.endswith "ride.fit" ".fit" = false ∧
     PyStr.endswith "ride.fit" ".gpx" = true ∧
     determine_activity_type_gpx (gpx_file sample_env "activities/ride.fit")
       = Ret activity_type) ∧
    "activities/cycling/ride.fit" = "activities/" +:+ activity_type +:+ "/" +:+ "ride.fit" ∧
    shutil_move sample_env "activities/ride.fit" "activities/cycling/ride.fit" = Ret tt.
Proof.
  apply (proj2 (sort_moves_into_type_folders sample_env "ride.fit")
           "activities/ride.fit" "activities/cycling/ride.fit");
    by vm_compute.
Defined.

(** X24. A file whose name ends neither in [.fit] nor in [.gpx] is never
    read and never moved: it is reported as uncategorised, of type
    [unknown]. This is so for the compressed files ([.fit.gz], [.gpx.gz],
    [.tcx.gz]) and the [.tcx] files that the uploader picks up. *)
Theorem other_extensions_are_left (env : Env) (name : string) :
  (PyStr.endswith name ".fit" = false → PyStr.endswith name ".gpx" = false →
   sort_entry env name
     = if isfile env (os_path_join source_dir name)
       then Uncategorised "unknown" name else NotAFile) ∧
  (existsb (PyStr.endswith name) double_exts = true ∨
   PyStr.endswith name ".tcx" = true →
   sort_entry env name
     = if isfile env (os_path_join source_dir name)
       then Uncategorised "unknown" name else NotAFile).
Proof.
  split; [apply sort_entry_other|].
  intros H.
  assert (∃ stem ext, name = stem +:+ ext ∧
                      ext ∈ [".fit.gz"; ".gpx.gz"; ".tcx.gz"; ".tcx"])
    as (stem & ext & -> & Hext).
  { destruct H as [H|H].
    - unfold double_exts in H. cbn [existsb] in H. rewrite orb_false_r in H.
      apply orb_true_iff in H as [H|H]; [|apply orb_true_iff in H as [H|H]];
        apply endswith_inv in H as [stem ->]; eexists _, _;
        (split; [done|]); rewrite !elem_of_cons; tauto.
    - apply endswith_inv in H as [stem ->]. eexists _, _.
      split; [done|]. rewrite !elem_of_cons; tauto. }
  apply sort_entry_other; apply endswith_longer;
    rewrite !elem_of_cons, elem_of_nil in Hext;
    destruct Hext as [-> | [-> | [-> | [-> | []]]]]; cbn; (lia || done).
Qed.

Lemma other_extensions_are_left_witness :
  sort_entry sample_env "ride.fit.gz"
    = if isfile sample_env (os_path_join source_dir "ride.fit.gz")
      then Uncategorised "unknown" "ride.fit.gz" else NotAFile.
Proof.
  apply (proj2 (other_extensions_are_left sample_env "ride.fit.gz")).
  left. by vm_compute.
Defined.

(** ** The type read from a file *)

Section Types.

Lemma fit_truthy_lower (v : fit_value) : fit_truthy (lower_value v) = fit_truthy v.
Proof. destruct v; [done| |done]. apply nonempty_lower. Qed.

Lemma scan_messages_lower (ms : messages) :
  scan_messages (lower_messages ms) = scan_messages ms.
Proof.
  induction ms as [|v rest IH|e]; [done| |done].
  cbn [lower_messages scan_messages]. rewrite fit_truthy_lower, IH.
  destruct v as [|s|n]; [done| |done]. cbn [lower_value].
  by rewrite normalise_lower.
Qed.

Lemma scan_tracks_lower (tracks : list (option string)) :
  scan_tracks (map (fmap lower) tracks) = scan_tracks tracks.
Proof.
  induction tracks as [|ty rest IH]; [done|].
  cbn [map scan_tracks]. rewrite IH.
  destruct ty as [s|]; [|done].
  change (default "" (lower <$> Some s)) with (lower s).
  change (default "" (Some s)) with s.
  by rewrite nonempty_lower, normalise_lower.
Qed.

Lemma scan_messages_normal (ms : messages) (t : string) :
  scan_messages ms = Ret (Some t) →
  t ≠ "ebikeride" ∧ lower t = t ∧ t ≠ "".
Proof.
  induction ms as [|v rest IH|e]; [done| |done].
  cbn [scan_messages]. destruct (fit_truthy v) eqn:Hv; [|done].
  destruct v as [|s|n]; [done| |done].
  intros [= <-]. apply normalise_normal. by destruct s.
Qed.

Lemma scan_tracks_normal (tracks : list (option string)) (t : string) :
  scan_tracks tracks = Some t →
  t ≠ "ebikeride" ∧ lower t = t ∧ t ≠ "".
Proof.
  induction tracks as [|ty rest IH]; [done|].
  cbn [scan_tracks]. destruct (PyStr.nonempty (default "" ty)) eqn:Hv; [|done].
  intros [= <-]. apply normalise_normal. by destruct (default "" ty).
Qed.

Lemma scan_yields (skipped : list fit_value) (tail : messages) :
  Forall (λ v, fit_truthy v = false) skipped →
  scan_messages (yields skipped tail) = scan_messages tail.
Proof.
  induction 1 as [|v vs Hv _ IH]; [done|].
  cbn [yields foldr scan_messages]. by rewrite Hv.
Qed.

End Types.

(** X25. The type read from a file does not depend on the letter case in
    which the file names its sports. *)
Theorem sport_type_ignores_case :
  (∀ f, determine_activity_type_fit (Ret (lower_fit f))
        = determine_activity_type_fit (Ret f)) ∧
  (∀ tracks, determine_activity_type_gpx (Ret (map (fmap lower) tracks))
             = determine_activity_type_gpx (Ret tracks)).
Proof.
  split.
  - intros f. unfold determine_activity_type_fit, lower_fit. cbn [obind].
    cbn [sport_messages session_messages]. by rewrite !scan_messages_lower.
  - intros tracks. unfold determine_activity_type_gpx. cbn [obind].
    by rewrite scan_tracks_lower.
Qed.

(** X26. The type read from a file is never empty, is in lower case, and is
    never [ebikeride], which is read as [cycling]. *)
Theorem determined_type_is_normal (t : string) :
  (∀ file, determine_activity_type_fit file = Ret t →
           t ≠ "ebikeride" ∧ lower t = t ∧ t ≠ "") ∧
  (∀ file, determine_activity_type_gpx file = Ret t →
           t ≠ "ebikeride" ∧ lower t = t ∧ t ≠ "").
Proof.
  split.
  - intros [f|e]; [|done]. unfold determine_activity_type_fit. cbn [obind].
    destruct (scan_messages (sport_messages f)) as [[t1|]|e] eqn:E1;
      cbn [obind]; [| |done].
    { intros [= <-]. by apply (scan_messages_normal _ _ E1). }
    destruct (scan_messages (session_messages f)) as [[t2|]|e] eqn:E2;
      cbn [obind default]; [| |done].
    + intros [= <-]. by apply (scan_messages_normal _ _ E2).
    + by intros [= <-].
  - intros [tracks|e]; [|done]. unfold determine_activity_type_gpx. cbn [obind].
    destruct (scan_tracks tracks) as [t1|] eqn:E1; cbn [default].
    + intros [= <-]. by apply (scan_tracks_normal _ _ E1).
    + by intros [= <-].
Qed.

Lemma determined_type_is_normal_witness :
  "cycling" ≠ "ebikeride" ∧ lower "cycling" = "cycling" ∧ "cycling" ≠ "".
Proof.
  apply (proj1 (determined_type_is_normal "cycling") (Ret ebike_fit)).
  by vm_compute.
Defined.

(** X27. In a [.fit] file the first sport message whose value is truthy
    decides, whatever the later messages and the session messages say: a
    name gives the type, and a number, for a sport that the profile does not
    name, makes the file fail with an [AttributeError], so that it is
    reported as an error and not moved. *)
Theorem first_sport_value_decides (f : FitFile) (skipped : list fit_value)
    (v : fit_value) (rest : messages) :
  sport_messages f = yields skipped (Yield v rest) →
  Forall (λ v, fit_truthy v = false) skipped →
  fit_truthy v = true →
  determine_activity_type_fit (Ret f)
    = match v with
      | FStr sport => Ret (normalise sport)
      | _ => Raise AttributeError
      end ∧
  ∀ env name n,
    v = FInt n →
    isfile env (os_path_join source_dir name) = true →
    PyStr.endswith name ".fit" = true →
    fit_file env (os_path_join source_dir name) = Ret f →
    sort_entry env name = ErrorProcessing name AttributeError.
Proof.
  intros Hf Hskip Hv.
  assert (determine_activity_type_fit (Ret f)
          = match v with
            | FStr sport => Ret (normalise sport)
            | _ => Raise AttributeError
            end) as Hdet.
  { unfold determine_activity_type_fit. cbn [obind].
    rewrite Hf, (scan_yields _ _ Hskip). cbn [scan_messages]. rewrite Hv.
    by destruct v. }
  split; [done|].
  intros env name n -> Hfile Hfit Hread.
  unfold sort_entry. by rewrite Hfile, Hfit, Hread, Hdet.
Qed.

Lemma first_sport_value_decides_witness :
  determine_activity_type_fit (Ret odd_fit) = Raise AttributeError ∧
  sort_entry sample_env "odd.fit" = ErrorProcessing "odd.fit" AttributeError.
Proof.
  destruct (first_sport_value_decides odd_fit [FInt 0] (FInt 64) Done eq_refl
              ltac:(by repeat constructor) eq_refl) as [Hdet Hentry].
  split; [exact Hdet|].
  apply (Hentry sample_env "odd.fit" 64); reflexivity.
Defined.

(** X28. A file that [sort.py] has moved keeps its name, and that name is
    one that the discovery of the uploader accepts in a folder, unless it is
    the bare extension [.fit] or [.gpx]. *)
Theorem moved_file_is_discovered (env : Env) (name src dst : string) :
  slash_free name = true →
  sort_entry env name = Moved src dst →
  PyStr.path_name dst = name ∧
  is_activity_name (PyStr.path_name dst)
    = negb (bool_decide (name ∈ [".fit"; ".gpx"])) ∧
  discover_activity_files [PyStr.path_name dst]
    = if bool_decide (name ∈ [".fit"; ".gpx"]) then [] else [name].
Proof.
  intros Hname (-> & Hfile & t & Ht & Hdet & -> & Hmove)%sort_entry_moved.
  assert (∃ stem ext, name = stem +:+ ext ∧ ext ∈ [".fit"; ".gpx"])
    as (stem & ext & Hn & Hext).
  { destruct Hdet as [[H _] | (_ & H & _)];
      apply endswith_inv in H as [stem ->]; eexists _, _;
      (split; [done|]); rewrite !elem_of_cons; tauto. }
  assert (name ≠ "" ∧ name ≠ ".") as [H0 H1].
  { subst name. rewrite !elem_of_cons, elem_of_nil in Hext.
    destruct Hext as [-> | [-> | []]];
      split; intros E; apply (f_equal String.length) in E;
      rewrite str_length_app in E; cbn in E; lia. }
  assert (PyStr.path_name
            (os_path_join (source_dir +:+ "/" +:+ t)
               (basename (os_path_join source_dir name))) = name) as ->.
  { rewrite (join_slash_free source_dir name) by done.
    rewrite basename_app by done.
    rewrite !elem_of_cons, elem_of_nil in Ht.
    destruct Ht as [-> | [-> | [-> | []]]];
      rewrite join_slash_free by done; by apply path_name_app. }
  split; [done|].
  assert (is_activity_name name = negb (bool_decide (name ∈ [".fit"; ".gpx"])))
    as Hact.
  { destruct stem as [|c stem].
    - rewrite str_app_nil_l in Hn. subst name.
      rewrite bool_decide_eq_true_2 by done.
      rewrite !elem_of_cons, elem_of_nil in Hext.
      by destruct Hext as [-> | [-> | []]].
    - rewrite bool_decide_eq_false_2.
      + rewrite is_activity_name_suffix, Hn, (single_ext_suffix _ _ Hext) by done.
        apply bool_decide_eq_true. unfold activity_suffixes.
        rewrite !elem_of_cons, elem_of_nil in Hext. rewrite !elem_of_cons.
        destruct Hext as [-> | [-> | []]]; tauto.
      + intros Hin. rewrite Hn in Hin.
        assert (String.length (String c stem +:+ ext) = 4%nat) as Hlen.
        { rewrite !elem_of_cons, elem_of_nil in Hin.
          by destruct Hin as [-> | [-> | []]]. }
        rewrite str_length_app in Hlen.
        rewrite !elem_of_cons, elem_of_nil in Hext.
        destruct Hext as [-> | [-> | []]]; cbn in Hlen; lia. }
  split; [done|].
  unfold discover_activity_files.
  change (merge_sort String.le [name]) with [name].
  cbn [List.filter]. rewrite Hact. by case_bool_decide.
Qed.

Lemma moved_file_is_discovered_witness :
  PyStr.path_name "activities/walking/walk.gpx" = "walk.gpx" ∧
  is_activity_name (PyStr.path_name "activities/walking/walk.gpx")
    = negb (bool_decide ("walk.gpx" ∈ [".fit"; ".gpx"])) ∧
  discover_activity_files [PyStr.path_name "activities/walking/walk.gpx"]
    = if bool_decide ("walk.gpx" ∈ [".fit"; ".gpx"]) then [] else ["walk.gpx"].
Proof.
  apply (moved_file_is_discovered sample_env "walk.gpx" "activities/walk.gpx"
           "activities/walking/walk.gpx"); by vm_compute.
Defined.
